(** * backup-tool: planner, catalog probe and executor, embedded in Rocq

    The development follows the TypeScript sources:
    - [planner.ts]   : the data model and [createPlan];
    - [mongodb.ts]   : [fetchHosts] (the reachability probe);
    - [executorHelpers.ts] : [SSHExecutor] ([ready], [finish], [execute], ...);
    - [executor.ts]  : [execute], the realisation of one plan;
    - [run.ts]       : the coordinator loop around [execute].

    JavaScript objects used as dictionaries ([Record<string, Host>], the
    [ssh] map of a host) are finite maps with string keys: the map holds the
    object's own properties, and [o[k]] is the lookup of the map for every
    key [k] that is not the name of a property of [Object.prototype]
    ([inherited], below).  Time values are integers (milliseconds since the
    epoch); a [Date] holds a time value within [-8.64e15, 8.64e15]
    ([JSDate.validTime]), the range on which [TimeClip] is the identity.
    A [Date] object is a mutable cell; it lives in a heap and is passed by
    reference. *)

From Stdlib Require Import ZArith Lia Bool List Ascii String.
From stdpp Require Import gmap strings list fin_maps.
Import ListNotations.

Local Open Scope string_scope.
Local Open Scope Z_scope.

(** ** ECMAScript time arithmetic ([Date.prototype.setDate] / [setMonth]) *)

Module JSDate.

Definition msPerDay : Z := 86400000.

Definition Day (t : Z) : Z := t / msPerDay.
Definition TimeWithinDay (t : Z) : Z := t mod msPerDay.

Definition isLeap (y : Z) : bool :=
  if negb (y mod 4 =? 0) then false
  else if negb (y mod 100 =? 0) then true
  else if negb (y mod 400 =? 0) then false
  else true.

Definition DaysInYear (y : Z) : Z := if isLeap y then 366 else 365.

Definition DayFromYear (y : Z) : Z :=
  365 * (y - 1970) + (y - 1969) / 4 - (y - 1901) / 100 + (y - 1601) / 400.

Definition TimeFromYear (y : Z) : Z := msPerDay * DayFromYear y.

(** [YearFromTime t] is the largest [y] with [TimeFromYear y <= t]; it is
    searched downwards from an estimate that is never too small. *)
Fixpoint yearDown (fuel : nat) (d y : Z) : Z :=
  match fuel with
  | O => y
  | S n => if DayFromYear y <=? d then y else yearDown n d (y - 1)
  end.

Definition YearFromTime (t : Z) : Z :=
  let d := Day t in
  let est := 1970 + (if 0 <=? d then d / 365 else d / 366) + 1 in
  yearDown (Z.to_nat (Z.abs d / 100000) + 4) d est.

Definition InLeapYear (t : Z) : Z := if isLeap (YearFromTime t) then 1 else 0.

Definition DayWithinYear (t : Z) : Z := Day t - DayFromYear (YearFromTime t).

(** First day (within the year) of month [m] (0 = January). *)
Definition monthStart (m leap : Z) : Z :=
  match m with
  | 0 => 0
  | 1 => 31
  | 2 => 59 + leap
  | 3 => 90 + leap
  | 4 => 120 + leap
  | 5 => 151 + leap
  | 6 => 181 + leap
  | 7 => 212 + leap
  | 8 => 243 + leap
  | 9 => 273 + leap
  | 10 => 304 + leap
  | _ => 334 + leap
  end.

Definition MonthFromTime (t : Z) : Z :=
  let d := DayWithinYear t in
  let l := InLeapYear t in
  if d <? 31 then 0
  else if d <? 59 + l then 1
  else if d <? 90 + l then 2
  else if d <? 120 + l then 3
  else if d <? 151 + l then 4
  else if d <? 181 + l then 5
  else if d <? 212 + l then 6
  else if d <? 243 + l then 7
  else if d <? 273 + l then 8
  else if d <? 304 + l then 9
  else if d <? 334 + l then 10
  else 11.

Definition DateFromTime (t : Z) : Z :=
  DayWithinYear t - monthStart (MonthFromTime t) (InLeapYear t) + 1.

(** [MakeDay year month date]: the month may lie outside 0..11 and the date
    outside the month; both carry over. *)
Definition MakeDay (year month date : Z) : Z :=
  let ym := year + month / 12 in
  let mn := month mod 12 in
  DayFromYear ym + monthStart mn (if isLeap ym then 1 else 0) + date - 1.

Definition MakeDate (day time : Z) : Z := day * msPerDay + time.

(** The number of days of month [m] (0 = January). *)
Definition daysInMonth (m : Z) (leap : bool) : Z :=
  match m with
  | 1 => if leap then 29 else 28
  | 3 | 5 | 8 | 10 => 30
  | _ => 31
  end.

Section LocalTime.
  (** The offset of local time, as the host environment supplies it
      ([true]: the argument is a UTC time value, [false]: a local one). *)
Variable LocalTZA : Z -> bool -> Z.

Definition LocalTime (t : Z) : Z := t + LocalTZA t true.
Definition UTC (t : Z) : Z := t - LocalTZA t false.

Definition getDate (tv : Z) : Z := DateFromTime (LocalTime tv).
Definition getMonth (tv : Z) : Z := MonthFromTime (LocalTime tv).

  (** The new time value of the object after [setDate(dt)], for a valid
      [Date] whose new time value is in the range of [TimeClip]. *)
Definition setDate (tv dt : Z) : Z :=
    let t := LocalTime tv in
    UTC (MakeDate (MakeDay (YearFromTime t) (MonthFromTime t) dt)
                  (TimeWithinDay t)).

  (** The new time value of the object after [setMonth(m)], for a valid
      [Date] whose new time value is in the range of [TimeClip]. *)
Definition setMonth (tv m : Z) : Z :=
    let t := LocalTime tv in
    UTC (MakeDate (MakeDay (YearFromTime t) m (DateFromTime t))
                  (TimeWithinDay t)).
End LocalTime.

(** A host whose local time is UTC. *)
Definition utcZone : Z -> bool -> Z := fun _ _ => 0.

(** The time values a [Date] can hold: [TimeClip] maps every other number
    to [NaN]. *)
Definition maxTime : Z := 8640000000000000.
Definition validTime (t : Z) : bool := (- maxTime <=? t) && (t <=? maxTime).

End JSDate.

(** ** planner.ts: data model *)

Inductive BackupStrategy :=
| Files (paths : list string)
| Mongodb (connectionUrl : string).

(** [type: "host"] is the only variant of a destination. *)
Inductive Destination :=
| HostDest (host : string) (path : string).

Definition dest_host (d : Destination) : string :=
  match d with HostDest h _ => h end.
Definition dest_path (d : Destination) : string :=
  match d with HostDest _ p => p end.

Record Hook := { cwd : string; cmd : string }.
Record Hooks := { pre : option Hook; post : option Hook }.

Inductive Interval := Daily | Weekly | Monthly.

Inductive BlueprintMode :=
| BSshAgent (host : string) (hooks : option Hooks)
            (strategy : BackupStrategy) (destinations : list Destination)
| BDummy.

Record Blueprint := {
  b_id : string;
  interval : Interval;
  b_mode : BlueprintMode
}.

Inductive Availability := Reachable | Unreachable | NoData.

Record SSHConfig := {
  username : string;
  ssh_host : string;
  privateKeyPath : string;
  passphrase : option string
}.

Record Host := {
  h_id : string;
  agent : option bool;
  available : option Availability;
  ssh : gmap string SSHConfig
}.

Inductive RetainOnHost :=
| RetainAt (path : string)
| RetainFalse.

Inductive DownloadLocally :=
| DownloadAt (path : string)
| DownloadBool (b : bool).

Record CloneStrategy := {
  retainOnHost : RetainOnHost;
  downloadLocally : DownloadLocally;
  directlyCloneTo : list Destination;
  redirectCloneTo : list Destination;
  receiveCloneFrom : list Destination
}.

Inductive PlanMode :=
| PSshAgent (host : Host) (hooks : option Hooks)
            (strategy : BackupStrategy) (clone : CloneStrategy)
| PSkipped
| PFailed.

Record Plan := { p_id : string; p_mode : PlanMode }.

(** JavaScript truthiness of the values the planner tests. *)
Definition defined {A} (o : option A) : bool :=
  match o with Some _ => true | None => false end.

(** [available] is [undefined] or one of three non-empty strings: every
    string of the three is truthy. *)
Definition truthyAvailable (a : option Availability) : bool := defined a.

Definition truthyRetain (r : RetainOnHost) : bool :=
  match r with RetainAt _ => true | RetainFalse => false end.

Definition truthyDownload (d : DownloadLocally) : bool :=
  match d with DownloadAt _ => true | DownloadBool b => b end.

Definition nonEmpty {A} (l : list A) : bool :=
  match l with [] => false | _ :: _ => true end.

(** ** planner.ts: createPlan *)

Module Planner.

(** The heap of [Date] objects: reference to time value. *)
Abbreviation Heap := (gmap positive Z).

Section WithClock.
Variable LocalTZA : Z -> bool -> Z.
  (** What [new Date()] reads when the due check compares. *)
Variable now : Z.

  (** The [switch (blueprint.interval)] on the [Date] object. *)
Definition advance (i : Interval) (tv : Z) : Z :=
    match i with
    | Daily => JSDate.setDate LocalTZA tv (JSDate.getDate LocalTZA tv + 1)
    | Weekly => JSDate.setDate LocalTZA tv (JSDate.getDate LocalTZA tv + 7)
    | Monthly => JSDate.setMonth LocalTZA tv (JSDate.getMonth LocalTZA tv + 1)
    end.

  (** The filter that computes [destinations]. *)
Definition keepDestination (hosts : gmap string Host) (agentId : string)
      (host : Host) (d : Destination) : bool :=
    if String.eqb (dest_host d) agentId || String.eqb (dest_host d) (h_id host)
    then false
    else match hosts !! dest_host d with
         | None => false
         | Some dh =>
             match available dh with
             | Some Unreachable => false
             | _ => true
             end
         end.

  (** The destinations for which the filter sets [oneOrMoreHostsFailed]. *)
Definition hostFailed (hosts : gmap string Host) (agentId : string)
      (host : Host) (d : Destination) : bool :=
    if String.eqb (dest_host d) agentId || String.eqb (dest_host d) (h_id host)
    then false
    else match hosts !! dest_host d with
         | None => true
         | Some dh =>
             match available dh with
             | Some Unreachable => true
             | _ => false
             end
         end.

Definition isDirect (host : Host) (d : Destination) : bool :=
    defined (ssh host !! dest_host d).

  (** [hosts[destination.host]?.ssh[host._id]] *)
Definition backLink (hosts : gmap string Host) (host : Host)
      (d : Destination) : option SSHConfig :=
    match hosts !! dest_host d with
    | None => None
    | Some dh => ssh dh !! h_id host
    end.

Definition isRedirect (hosts : gmap string Host) (host : Host)
      (d : Destination) : bool :=
    if defined (ssh host !! dest_host d) || defined (backLink hosts host d)
    then false else true.

Definition isReceive (hosts : gmap string Host) (host : Host)
      (d : Destination) : bool :=
    if defined (ssh host !! dest_host d)
       || negb (defined (backLink hosts host d))
    then false else true.

  (** The clone strategy as the object literal builds it. *)
Definition buildClone (hosts : gmap string Host) (agentId : string)
      (host : Host) (bhost : string) (dests : list Destination)
      : CloneStrategy :=
    let destinationHost :=
      List.find (fun d => String.eqb (dest_host d) bhost) dests in
    let agentHost :=
      List.find (fun d => String.eqb (dest_host d) agentId) dests in
    let destinations := List.filter (keepDestination hosts agentId host) dests in
    {| retainOnHost :=
         match destinationHost with
         | Some d => RetainAt (dest_path d)
         | None => RetainFalse
         end;
       downloadLocally :=
         match agentHost with
         | Some d => DownloadAt (dest_path d)
         | None => DownloadBool false
         end;
       directlyCloneTo := List.filter (isDirect host) destinations;
       redirectCloneTo := List.filter (isRedirect hosts host) destinations;
       receiveCloneFrom := List.filter (isReceive hosts host) destinations |}.

  (** [clone.downloadLocally = true] when redirecting without a local copy. *)
Definition forceDownload (c : CloneStrategy) : CloneStrategy :=
    if nonEmpty (redirectCloneTo c) && negb (truthyDownload (downloadLocally c))
    then {| retainOnHost := retainOnHost c;
            downloadLocally := DownloadBool true;
            directlyCloneTo := directlyCloneTo c;
            redirectCloneTo := redirectCloneTo c;
            receiveCloneFrom := receiveCloneFrom c |}
    else c.

  (** The test guarding [throw "no viable destinations"]. *)
Definition noDestinations (c : CloneStrategy) : bool :=
    negb (nonEmpty (redirectCloneTo c))
    && negb (nonEmpty (directlyCloneTo c))
    && negb (truthyRetain (retainOnHost c))
    && negb (truthyDownload (downloadLocally c)).

  (** The body of the [try] block for an ssh-agent blueprint: the thrown
      string on the left, the plan mode on the right. *)
Definition planSshAgent (hosts : gmap string Host) (agentId : string)
      (bhost : string) (hooks : option Hooks) (strategy : BackupStrategy)
      (dests : list Destination) : string + PlanMode :=
    match hosts !! bhost with
    | None => inl "Host does not exist!"
    | Some host =>
        if negb (truthyAvailable (available host))
        then inl "Host is unavailable!"
        else match hosts !! agentId with
             | None => inl "Agent host does not exist!"
             | Some agentH =>
                 if negb (defined (ssh agentH !! bhost))
                 then inl "Host is unreachable from this agent!"
                 else
                   let clone := buildClone hosts agentId host bhost dests in
                   if noDestinations clone
                   then inl "no viable destinations"
                   else inr (PSshAgent host hooks strategy
                                       (forceDownload clone))
             end
    end.

  (** Mode dispatch, with the [catch] that turns a throw into [failed]. *)
Definition dispatch (hosts : gmap string Host) (blueprint : Blueprint)
      (agentId : string) : Plan :=
    match b_mode blueprint with
    | BDummy => {| p_id := b_id blueprint; p_mode := PSkipped |}
    | BSshAgent bhost hooks strategy dests =>
        match planSshAgent hosts agentId bhost hooks strategy dests with
        | inr m => {| p_id := b_id blueprint; p_mode := m |}
        | inl _ => {| p_id := b_id blueprint; p_mode := PFailed |}
        end
    end.

  (** [createPlan(hosts, blueprint, latestRun, agent)].  [latestRun] is a
      reference to a [Date] object of the heap, or [undefined] ([None]).
      The result is the plan and the heap after the call. *)
Definition createPlan (hosts : gmap string Host) (blueprint : Blueprint)
      (latestRun : option positive) (agentId : string) (h : Heap)
      : Plan * Heap :=
    match latestRun with
    | None => (dispatch hosts blueprint agentId, h)
    | Some r =>
        match h !! r with
        | None => (dispatch hosts blueprint agentId, h)
        | Some tv =>
            let tv' := advance (interval blueprint) tv in
            let h' := <[r := tv']> h in
            if now <? tv'
            then ({| p_id := b_id blueprint; p_mode := PSkipped |}, h')
            else (dispatch hosts blueprint agentId, h')
        end
    end.

End WithClock.

End Planner.


(** ** mongodb.ts: fetchHosts and the reachability probe *)

Module Catalog.

(** How a promise settles. *)
Inductive Settled :=
| Fulfilled
| RejectedWith (err : string).

(** The completion of a statement: normal, or an exception thrown
    synchronously (the only kind a [try]/[catch] around it can see). *)
Inductive Completion (A : Type) :=
| Normal (a : A)
| Thrown (err : string).
Arguments Normal {A} a.
Arguments Thrown {A} err.

(** A promise object, with the way it will settle. *)
Record Promise := { settles : Settled }.

Section WithNetwork.
(** The network: how a connection attempt with given parameters settles. *)
Variable network : SSHConfig -> Settled.

(** [ssh.connect(sshConfig)]: [connect] is an [async] method, so the call
    completes normally with a promise, whatever the promise settles to. *)
Definition connect (config : SSHConfig) : Completion Promise :=
  Normal {| settles := network config |}.

(** [ssh.dispose()] on the fresh client: completes normally. *)
Definition dispose : Completion unit := Normal tt.

(** The [try { ... } catch (err) { ... }] of the probe: the value assigned
    to [hosts[hostId].available].  The promise that [connect] returns is
    dropped, not awaited. *)
Definition probe (sshConfig : SSHConfig) : Availability :=
  match connect sshConfig with
  | Thrown _ => Unreachable
  | Normal _ =>
      match dispose with
      | Thrown _ => Unreachable
      | Normal _ => Reachable
      end
  end.

Definition setAvailable (a : Availability) (h : Host) : Host :=
  {| h_id := h_id h; agent := agent h; available := Some a; ssh := ssh h |}.

Definition markAgent (agentId : string) (h : Host) : Host :=
  if String.eqb (h_id h) agentId
  then {| h_id := h_id h; agent := Some true;
          available := available h; ssh := ssh h |}
  else h.

(** The first loop: [hosts[host._id] = host] for every document, in order. *)
Definition loadDocuments (agentId : string) (results : list Host)
    : gmap string Host :=
  fold_left (fun hosts host => <[h_id host := markAgent agentId host]> hosts)
            results ∅.

(** One iteration of the probe loop. *)
Definition probeStep (hosts : gmap string Host) (entry : string * SSHConfig)
    : gmap string Host :=
  match hosts !! entry.1 with
  | None => hosts
  | Some h => <[entry.1 := setAvailable (probe entry.2) h]> hosts
  end.

(** [fetchHosts()], given the documents of the [hosts] collection. *)
Definition fetchHosts (agentId : string) (results : list Host)
    : gmap string Host :=
  let hosts := loadDocuments agentId results in
  match hosts !! agentId with
  | None => hosts
  | Some agentHost => fold_left probeStep (map_to_list (ssh agentHost)) hosts
  end.

End WithNetwork.

End Catalog.

(** ** executorHelpers.ts, executor.ts, run.ts: executing a plan *)

Module Exec.

(** What [execCommand] resolves with. *)
Record Response := {
  stdout : string;
  stderr : string;
  code : option Z
}.

Inductive Outcome :=
| Resolved (r : Response)
| Rejected (err : string).

(** The calls that reach the outside world.  [sid] names the [NodeSSH]
    client (one per executor object). *)
Inductive Event :=
| EvConnect (sid : nat) (config : SSHConfig)
| EvDispose (sid : nat)
| EvExecCommand (sid : nat) (command : string) (cwd : string)
| EvExec (sid : nat) (prog : string) (args : list string)
| EvGetFile (sid : nat) (localFile remoteFile : string)
| EvPutFile (sid : nat) (localFile remoteFile : string)
| EvRm (path : string).

Record State := {
  next_session : nat;
  open_sessions : list nat;
  trace : list Event;
  log : list string
}.

(** A computation either throws (left) or returns (right). *)
Definition M (A : Type) : Type := State -> State * (string + A).

#[global] Instance M_ret : MRet M := fun A a st => (st, inr a).
#[global] Instance M_bind : MBind M := fun A B k m st =>
  match m st with
  | (st', inr a) => k a st'
  | (st', inl e) => (st', inl e)
  end.
#[global] Instance M_throw : MThrow string M := fun A e st => (st, inl e).

(** [try { m } catch (err) { h err }] *)
Definition try_catch {A} (m : M A) (h : string -> M A) : M A := fun st =>
  match m st with
  | (st', inr a) => (st', inr a)
  | (st', inl e) => h e st'
  end.

(** [for (const x of l) { body x }] *)
Fixpoint for_of {A} (l : list A) (body : A -> M unit) : M unit :=
  match l with
  | [] => mret tt
  | x :: l' => body x;; for_of l' body
  end.

(** Property access on a possibly undefined object. *)
Definition member {A} (o : option A) : M A :=
  match o with
  | Some a => mret a
  | None => mthrow "TypeError: Cannot read properties of undefined"
  end.

(** [assert(value, message)] on a string: the empty string is falsy. *)
Definition assert (value : string) (message : string) : M unit :=
  if String.eqb value "" then mthrow ("AssertionError: " ++ message)%string
  else mret tt.

Fixpoint remove_first (n : nat) (l : list nat) : list nat :=
  match l with
  | [] => []
  | x :: l' => if Nat.eqb x n then l' else x :: remove_first n l'
  end.

(** [plan.id.replace(/\//g, "-")] *)
Fixpoint replaceSlashes (s : string) : string :=
  match s with
  | EmptyString => EmptyString
  | String c s' =>
      String (if Ascii.eqb c "/"%char then "-"%char else c) (replaceSlashes s')
  end.

(** [s.includes(needle)] *)
Definition includes (needle s : string) : bool :=
  defined (String.index 0 needle s).

(** An executor object: its configuration and its [NodeSSH] client. *)
Record SSHExecutor := {
  config : option SSHConfig;
  ssh_client : nat
}.

Section WithWorld.
(** The outside world: the outcome of a call, given the calls before it. *)
Variable world : list Event -> Event -> Outcome.
(** [Math.random().toString().substring(2)] in [tmp]. *)
Variable randomDigits : string.
(** [new Date().toISOString()], in [SSHExecutor.execute] and in [execute]. *)
Variable dumpStamp : string.
Variable backupStamp : string.
(** [path.resolve] and [colors.gray]. *)
Variable resolve : string -> string.
Variable gray : string -> string.

Definition emit (s : string) : M unit := fun st =>
  ({| next_session := next_session st; open_sessions := open_sessions st;
      trace := trace st; log := log st ++ [s] |}, inr tt).

(** The state after one more call to the outside. *)
Definition record (ev : Event) (st : State) : State :=
  {| next_session := next_session st; open_sessions := open_sessions st;
     trace := trace st ++ [ev]; log := log st |}.

(** An awaited call: it is recorded, and it throws when it rejects. *)
Definition call (ev : Event) : M Response := fun st =>
  match world (trace st) ev with
  | Resolved r => (record ev st, inr r)
  | Rejected e => (record ev st, inl e)
  end.

(** [tmp(ext = ".tar.gz")] *)
Definition tmp : string := ("/tmp/backup" ++ randomDigits ++ ".tar.gz")%string.

(** [createSSHExecutor(config)]: a new executor with a new client. *)
Definition createSSHExecutor (cfg : option SSHConfig) : M SSHExecutor :=
  fun st =>
  ({| next_session := S (next_session st); open_sessions := open_sessions st;
      trace := trace st; log := log st |},
   inr {| config := cfg; ssh_client := next_session st |}).

(** The client [sid] now holds a connection. *)
Definition markOpen (sid : nat) : M unit := fun st =>
  ({| next_session := next_session st;
      open_sessions := sid :: open_sessions st;
      trace := trace st; log := log st |}, inr tt).

(** [ready()]: [await this.ssh.connect(this.config)].  Connecting without a
    configuration object rejects before anything is sent. *)
Definition ready (ex : SSHExecutor) : M unit :=
  match config ex with
  | None => mthrow "config must be a valid object"
  | Some cfg =>
      call (EvConnect (ssh_client ex) cfg);;
      markOpen (ssh_client ex)
  end.

(** [finish()]: [await this.ssh.dispose()]. *)
Definition finish (ex : SSHExecutor) : M unit := fun st =>
  ({| next_session := next_session st;
      open_sessions := remove_first (ssh_client ex) (open_sessions st);
      trace := trace st ++ [EvDispose (ssh_client ex)]; log := log st |},
   inr tt).

Definition runHook (ex : SSHExecutor) (hk : option Hook) : M unit :=
  match hk with
  | Some h => call (EvExecCommand (ssh_client ex) (cmd h) (cwd h));; mret tt
  | None => mret tt
  end.

Definition preHook (hooks : option Hooks) : option Hook :=
  match hooks with Some hs => pre hs | None => None end.
Definition postHook (hooks : option Hooks) : option Hook :=
  match hooks with Some hs => post hs | None => None end.

Definition exec (ex : SSHExecutor) (prog : string) (args : list string)
    : M unit :=
  call (EvExec (ssh_client ex) prog args);; mret tt.

(** The [mongodump] call with its [catch]: an error is rethrown only when
    its text includes "Failed". *)
Definition mongodump (ex : SSHExecutor) (fn connectionUrl : string) : M unit :=
  try_catch (exec ex "mongodump" ["-o"; fn; connectionUrl])
            (fun err => if includes "Failed" err then mthrow err else mret tt).

(** [SSHExecutor.execute(plan)], the revision that also has [upload],
    [scpDownload] and [scpUpload]. *)
Definition SSHExecutor_execute (ex : SSHExecutor) (hooks : option Hooks)
    (strategy : BackupStrategy) : M string :=
  let pkgFn := tmp in
  runHook ex (preHook hooks);;
  match strategy with
  | Files paths => exec ex "tar" ("czvfP" :: pkgFn :: paths)
  | Mongodb connectionUrl =>
      let fn := ("/tmp/mongodump_" ++ dumpStamp)%string in
      mongodump ex fn connectionUrl;;
      exec ex "tar" ["cvfP"; pkgFn; fn];;
      exec ex "rm" ["-r"; fn]
  end;;
  runHook ex (postHook hooks);;
  mret pkgFn.

(** [SSHExecutor.execute(plan)], the earlier revision of the class (the one
    without [upload] and the scp methods). *)
Definition SSHExecutor_execute_earlier (ex : SSHExecutor)
    (hooks : option Hooks) (strategy : BackupStrategy) : M string :=
  let pkgFn := tmp in
  runHook ex (preHook hooks);;
  match strategy with
  | Files paths => exec ex "tar" ("czvfP" :: pkgFn :: paths)
  | Mongodb connectionUrl =>
      let fn := ("/tmp/mongodump_" ++ dumpStamp)%string in
      mongodump ex fn connectionUrl;;
      exec ex "tar" ["czvfP"; pkgFn; fn];;
      exec ex "rm" ["-r"; fn]
  end;;
  runHook ex (postHook hooks);;
  mret pkgFn.

Definition move (ex : SSHExecutor) (src dest : string) : M unit :=
  exec ex "mv" [src; dest].

Definition download (ex : SSHExecutor) (remoteFile localFile : string)
    : M unit :=
  call (EvGetFile (ssh_client ex) localFile remoteFile);; mret tt.

Definition upload (ex : SSHExecutor) (localFile remoteFile : string)
    : M unit :=
  call (EvPutFile (ssh_client ex) localFile remoteFile);; mret tt.

Definition scpTarget (remote : SSHConfig) (file : string) : string :=
  (username remote ++ "@" ++ ssh_host remote ++ ":" ++ file)%string.

Definition scpDownload (ex : SSHExecutor) (remoteFile : string)
    (remote : option SSHConfig) (executorLocalFile : string) : M unit :=
  r ← member remote;
  assert (privateKeyPath r) "missing private key path";;
  assert (username r) "missing username";;
  assert (ssh_host r) "missing host";;
  exec ex "scp" ["-i"; privateKeyPath r; scpTarget r remoteFile;
                 executorLocalFile].

Definition scpUpload (ex : SSHExecutor) (executorLocalFile : string)
    (remote : option SSHConfig) (remoteFile : string) : M unit :=
  r ← member remote;
  assert (privateKeyPath r) "missing private key path";;
  assert (username r) "missing username";;
  assert (ssh_host r) "missing host";;
  exec ex "scp" ["-i"; privateKeyPath r; executorLocalFile;
                 scpTarget r remoteFile].

Definition delete (ex : SSHExecutor) (pkgFn : string) : M unit :=
  exec ex "rm" [pkgFn].

(** [rm(localFile)] of fs/promises, on the agent. *)
Definition rm (localFile : string) : M unit :=
  call (EvRm localFile);; mret tt.

Definition backupNameOf (planId : string) : string :=
  (replaceSlashes planId ++ "_" ++ backupStamp ++ ".tar.gz")%string.

(** The body of [if (downloadLocally) { ... }]. *)
Definition downloadAndRedirect (hosts : gmap string Host) (agentId : string)
    (executor : SSHExecutor) (pkgFn backupName : string)
    (downloadLocally : DownloadLocally) (redirectCloneTo : list Destination)
    : M unit :=
  let localFile := resolve ("./backups/" ++ backupName)%string in
  emit "Downloading the backup to the agent";;
  download executor pkgFn localFile;;
  for_of redirectCloneTo (fun host =>
    emit ("Uploading the local backup to " ++ gray (dest_host host))%string;;
    a ← member (hosts !! agentId);
    uploadExecutor ← createSSHExecutor (ssh a !! dest_host host);
    ready uploadExecutor;;
    upload uploadExecutor localFile (dest_path host ++ backupName)%string;;
    finish uploadExecutor);;
  match downloadLocally with
  | DownloadAt _ => mret tt
  | DownloadBool _ =>
      emit "Removing local copy of backup";;
      rm localFile
  end.

(** The statements of [execute] between [executor.ready()] and
    [executor.finish()]. *)
Definition transfer (hosts : gmap string Host) (agentId : string)
    (planId : string) (host : Host) (hooks : option Hooks)
    (strategy : BackupStrategy) (clone : CloneStrategy)
    (executor : SSHExecutor) : M unit :=
  emit "Executor ready, running the strategy";;
  pkgFn ← SSHExecutor_execute executor hooks strategy;
  let backupName := backupNameOf planId in
  for_of (directlyCloneTo clone) (fun host' =>
    emit ("Uploading the backup to " ++ gray (dest_host host'))%string;;
    src ← member (hosts !! h_id host);
    scpUpload executor pkgFn (ssh src !! dest_host host')
              (dest_path host' ++ backupName)%string);;
  for_of (receiveCloneFrom clone) (fun host' =>
    emit ("Downloading the backup to " ++ gray (dest_host host'))%string;;
    a' ← member (hosts !! agentId);
    downloadExecutor ← createSSHExecutor (ssh a' !! dest_host host');
    ready downloadExecutor;;
    dh ← member (hosts !! dest_host host');
    scpDownload downloadExecutor pkgFn (ssh dh !! h_id host)
                (dest_path host' ++ backupName)%string;;
    finish downloadExecutor);;
  (if truthyDownload (downloadLocally clone)
   then downloadAndRedirect hosts agentId executor pkgFn backupName
          (downloadLocally clone) (redirectCloneTo clone)
   else mret tt);;
  match retainOnHost clone with
  | RetainAt path =>
      emit "Retaining backup on the remote host";;
      move executor pkgFn (path ++ backupName)%string
  | RetainFalse =>
      emit "Removing backup from remote host";;
      delete executor pkgFn
  end.

(** [execute(hosts, agentId, plan, log)] of executor.ts. *)
Definition execute (hosts : gmap string Host) (agentId : string)
    (plan : Plan) : M unit :=
  match p_mode plan with
  | PSkipped =>
      emit ("Skipping plan " ++ gray (p_id plan) ++ " as it is "
            ++ gray "skipped")%string
  | PFailed =>
      emit ("Skipping plan " ++ gray (p_id plan) ++ " as it is "
            ++ gray "failed")%string
  | PSshAgent host hooks strategy clone =>
      emit ("Preparing to run plan for " ++ gray (p_id plan))%string;;
      a ← member (hosts !! agentId);
      executor ← createSSHExecutor (ssh a !! h_id host);
      ready executor;;
      transfer hosts agentId (p_id plan) host hooks strategy clone executor;;
      finish executor;;
      emit "Plan complete"
  end.

(** run.ts: one iteration of the loop over the accepted plans.  The log
    starts empty, a throw of [execute] is caught and stringified, and the
    run is saved. *)
Record RunRecord := {
  rr_plan : Plan;
  rr_log : list string;
  rr_error : option string
}.

Definition runPlan (hosts : gmap string Host) (agentId : string)
    (plan : Plan) (st : State) : State * RunRecord :=
  let st0 := {| next_session := next_session st;
                open_sessions := open_sessions st;
                trace := trace st; log := [] |} in
  match execute hosts agentId plan st0 with
  | (st', inr _) =>
      (st', {| rr_plan := plan; rr_log := log st'; rr_error := None |})
  | (st', inl err) =>
      (st', {| rr_plan := plan; rr_log := log st'; rr_error := Some err |})
  end.

End WithWorld.

Definition initial : State :=
  {| next_session := 0; open_sessions := []; trace := []; log := [] |}.

(** Where [execute] puts the local copy of the plan [planId]. *)
Definition localFileOf (resolve : string -> string)
    (backupStamp planId : string) : string :=
  resolve ("./backups/" ++ backupNameOf backupStamp planId)%string.

(** The events a hook contributes. *)
Definition hookEvents (sid : nat) (hk : option Hook) : list Event :=
  match hk with
  | Some h => [EvExecCommand sid (cmd h) (cwd h)]
  | None => []
  end.

(** The hooks of a plan with the pre-hook taken out. *)
Definition withoutPre (hooks : option Hooks) : option Hooks :=
  Some {| pre := None; post := postHook hooks |}.

(** The plan with another [downloadLocally]. *)
Definition withDownload (dl : DownloadLocally) (plan : Plan) : Plan :=
  match p_mode plan with
  | PSshAgent host hooks strategy clone =>
      {| p_id := p_id plan;
         p_mode := PSshAgent host hooks strategy
                     {| retainOnHost := retainOnHost clone;
                        downloadLocally := dl;
                        directlyCloneTo := directlyCloneTo clone;
                        redirectCloneTo := redirectCloneTo clone;
                        receiveCloneFrom := receiveCloneFrom clone |} |}
  | _ => plan
  end.

(** Specifications of computations: from a state satisfying [P], whatever
    the computation returns or throws, [Q] holds of the outcome and the
    final state. *)
Definition triple {A} (P : State -> Prop) (m : M A)
    (Q : string + A -> State -> Prop) : Prop :=
  forall st st' r, P st -> m st = (st', r) -> Q r st'.

(** [I] is kept on every exit, normal or not. *)
Definition keeps {A} (I : State -> Prop) (m : M A) : Prop :=
  triple I m (fun _ st => I st).

(** A postcondition that only speaks of a normal return. *)
Definition onReturn {A} (Q : State -> Prop) : string + A -> State -> Prop :=
  fun r st => match r with inr _ => Q st | inl _ => True end.

(** [I] is re-established when the computation returns normally. *)
Definition restores {A} (I : State -> Prop) (m : M A) : Prop :=
  triple I m (onReturn I).

(** The connections held are exactly [o]. *)
Definition holds (o : list nat) (st : State) : Prop := open_sessions st = o.

(** The client [sid] holds a connection, and it is not a future client. *)
Definition connected (sid : nat) (st : State) : Prop :=
  In sid (open_sessions st) /\ (sid < next_session st)%nat.

(** Calls other than the removal of a local file. *)
Definition notRm (ev : Event) : Prop :=
  match ev with EvRm _ => False | _ => True end.

(** Every removal of a local file is recorded in [tr0] or is of a file
    that [allowed] accepts. *)
Definition rmWithin (tr0 : list Event) (allowed : string -> Prop)
    (st : State) : Prop :=
  forall f, In (EvRm f) (trace st) -> In (EvRm f) tr0 \/ allowed f.

(** The call [ev] has been made. *)
Definition recorded (ev : Event) (st : State) : Prop := In ev (trace st).

(** A property of the calls made so far. *)
Definition onTrace (Phi : list Event -> Prop) (st : State) : Prop :=
  Phi (trace st).

(** The source host (client [sid]) has pushed the archive to the
    destination [d], with the parameters the source host has for it. *)
Definition pushedTo (hosts : gmap string Host) (host : Host) (sid : nat)
    (pkgFn backupName : string) (d : Destination) (tr : list Event) : Prop :=
  exists src r,
    hosts !! h_id host = Some src /\ ssh src !! dest_host d = Some r
    /\ In (EvExec sid "scp"
              ["-i"; privateKeyPath r; pkgFn;
               scpTarget r (dest_path d ++ backupName)%string]) tr.

(** The agent has connected to the destination [d], had it pull the archive
    from the source host with the parameters [d] has for the source host,
    and closed the connection. *)
Definition pulledBy (hosts : gmap string Host) (agentId : string)
    (host : Host) (pkgFn backupName : string) (d : Destination)
    (tr : list Event) : Prop :=
  exists a cfg dh r sid,
    hosts !! agentId = Some a /\ ssh a !! dest_host d = Some cfg
    /\ hosts !! dest_host d = Some dh /\ ssh dh !! h_id host = Some r
    /\ In (EvConnect sid cfg) tr
    /\ In (EvExec sid "scp"
              ["-i"; privateKeyPath r; scpTarget r pkgFn;
               (dest_path d ++ backupName)%string]) tr
    /\ In (EvDispose sid) tr.

(** The agent has connected to the destination [d], put the local copy
    there, and closed the connection. *)
Definition carriedTo (hosts : gmap string Host) (agentId : string)
    (localFile backupName : string) (d : Destination) (tr : list Event)
    : Prop :=
  exists a cfg sid,
    hosts !! agentId = Some a /\ ssh a !! dest_host d = Some cfg
    /\ In (EvConnect sid cfg) tr
    /\ In (EvPutFile sid localFile (dest_path d ++ backupName)%string) tr
    /\ In (EvDispose sid) tr.

(** The characters of a string. *)
Fixpoint chars (s : string) : list ascii :=
  match s with
  | EmptyString => []
  | String c s' => c :: chars s'
  end.

End Exec.

(** ** mongodb.ts: the run log ([saveRun], [findLastRun]) *)

Module RunLog.

(** A document of the [run_log] collection.  [doc_error] is [None] when the
    field is absent or null. *)
Record RunDoc := {
  timestamp : Z;
  doc_plan : Plan;
  doc_log : list string;
  doc_error : option string
}.

(** [saveRun(plan, log, error)]: [insertOne] with [timestamp: new Date()]. *)
Definition saveRun (now : Z) (plan : Plan) (log : list string)
    (error : option string) (run_log : list RunDoc) : list RunDoc :=
  run_log ++ [{| timestamp := now; doc_plan := plan; doc_log := log;
                 doc_error := error |}].

(** The filter of [findLastRun]: ["plan.id": planId] and the error field
    absent or null. *)
Definition successfulRunOf (planId : string) (d : RunDoc) : bool :=
  String.eqb (p_id (doc_plan d)) planId && negb (defined (doc_error d)).

(** [sort: { timestamp: -1 }] followed by [findOne]: a document with the
    greatest timestamp. *)
Definition newest (best : option RunDoc) (d : RunDoc) : option RunDoc :=
  match best with
  | None => Some d
  | Some b => if timestamp b <? timestamp d then Some d else Some b
  end.

Definition findOneNewest (ds : list RunDoc) : option RunDoc :=
  fold_left newest ds None.

(** [findLastRun(planId)]: [lastRun?.timestamp]. *)
Definition findLastRun (planId : string) (run_log : list RunDoc) : option Z :=
  match findOneNewest (List.filter (successfulRunOf planId) run_log) with
  | Some d => Some (timestamp d)
  | None => None
  end.

End RunLog.

(** ** data.ts and run.ts: the coordinator *)

Module Coordinator.
Import Planner.

(** The [Date] object stored at [LATEST_RUNS[id]] is named by the id. *)
Definition dateRef (id : string) : positive := encode id.

(** data.ts: [LATEST_RUNS[blueprint._id] = await findLastRun(blueprint._id)]
    for every blueprint, in order. *)
Definition loadLatestRuns (blueprints : list Blueprint)
    (run_log : list RunLog.RunDoc) : gmap positive Z :=
  fold_left
    (fun (latest : gmap positive Z) b =>
       match RunLog.findLastRun (b_id b) run_log with
       | Some t => <[dateRef (b_id b) := t]> latest
       | None => delete (dateRef (b_id b)) latest
       end)
    blueprints ∅.

(** The argument [LATEST_RUNS[blueprint._id]] of [createPlan]. *)
Definition latestRunOf (latest : gmap positive Z) (id : string)
    : option positive :=
  match latest !! dateRef id with
  | Some _ => Some (dateRef id)
  | None => None
  end.

(** [plan.mode !== "skipped" && plan.mode !== "failed"] *)
Definition toExecute (plan : Plan) : bool :=
  match p_mode plan with
  | PSkipped => false
  | PFailed => false
  | PSshAgent _ _ _ _ => true
  end.

Section Planning.
Variable LocalTZA : Z -> bool -> Z.
(** What [new Date()] reads in the call for the blueprint at a position. *)
Variable clock : nat -> Z.
Variable hosts : gmap string Host.
Variable agentId : string.

(** run.ts: the loop that fills [plans], from the blueprint at position
    [i] on. *)
Fixpoint planFrom (i : nat) (blueprints : list Blueprint)
    (latest : gmap positive Z) : list Plan * gmap positive Z :=
  match blueprints with
  | [] => ([], latest)
  | blueprint :: rest =>
      let r := createPlan LocalTZA (clock i) hosts blueprint
                 (latestRunOf latest (b_id blueprint)) agentId latest in
      let r' := planFrom (S i) rest r.2 in
      (((if toExecute r.1 then [r.1] else []) ++ r'.1)%list, r'.2)
  end.

(** For comparison: each blueprint planned on its own, against the table
    of last runs as it was loaded. *)
Fixpoint planEach (i : nat) (blueprints : list Blueprint)
    (latest : gmap positive Z) : list Plan :=
  match blueprints with
  | [] => []
  | blueprint :: rest =>
      let plan := (createPlan LocalTZA (clock i) hosts blueprint
                     (latestRunOf latest (b_id blueprint)) agentId latest).1 in
      ((if toExecute plan then [plan] else []) ++ planEach (S i) rest latest)%list
  end.

End Planning.

Section Running.
Variable world : list Exec.Event -> Exec.Event -> Exec.Outcome.
(** The random digits and the clock readings of the plan at a position. *)
Variables randomDigits dumpStamp backupStamp : nat -> string.
Variable saveClock : nat -> Z.
Variables resolve gray : string -> string.
Variable hosts : gmap string Host.
Variable agentId : string.

(** run.ts: the loop over [plans], from the plan at position [i] on: run
    the plan, catch, save the run. *)
Fixpoint runFrom (i : nat) (plans : list Plan) (st : Exec.State)
    (run_log : list RunLog.RunDoc) : Exec.State * list RunLog.RunDoc :=
  match plans with
  | [] => (st, run_log)
  | plan :: rest =>
      let r := Exec.runPlan world (randomDigits i) (dumpStamp i)
                 (backupStamp i) resolve gray hosts agentId plan st in
      runFrom (S i) rest r.1
        (RunLog.saveRun (saveClock i) (Exec.rr_plan r.2) (Exec.rr_log r.2)
                        (Exec.rr_error r.2) run_log)
  end.

(** run.ts after planning: leave when there is nothing to do, ask, run. *)
Definition coordinate (plans : list Plan) (answer : bool) (st : Exec.State)
    (run_log : list RunLog.RunDoc) : Exec.State * list RunLog.RunDoc :=
  match plans with
  | [] => (st, run_log)
  | _ :: _ => if answer then runFrom 0 plans st run_log else (st, run_log)
  end.

End Running.

End Coordinator.

(** A zone whose offset from UTC never changes. *)
Definition fixedZone (offset : Z) : Z -> bool -> Z := fun _ _ => offset.

(** ** Property names of [Object.prototype]

    [hosts] is an object literal and [host.ssh] a deserialised document:
    both inherit from [Object.prototype], so [o[k]] is defined for these
    twelve names whether or not [o] has an own property [k]. *)
Definition objectPrototypeKeys : list string :=
  ["constructor"; "__defineGetter__"; "__defineSetter__"; "hasOwnProperty";
   "__lookupGetter__"; "__lookupSetter__"; "isPrototypeOf";
   "propertyIsEnumerable"; "toString"; "valueOf"; "__proto__";
   "toLocaleString"].

Definition inherited (k : string) : bool :=
  existsb (String.eqb k) objectPrototypeKeys.

(** The names that [createPlan] uses as keys of [hosts] and of an [ssh] map
    (the agent's id, the blueprint's host, the [_id] of its catalog entry and
    the host of every destination): none of them is inherited. *)
Definition ownNames (hosts : gmap string Host) (agentId : string)
    (b : Blueprint) : bool :=
  negb (inherited agentId)
  && match b_mode b with
     | BDummy => true
     | BSshAgent bhost _ _ dests =>
         negb (inherited bhost)
         && match hosts !! bhost with
            | Some host => negb (inherited (h_id host))
            | None => true
            end
         && forallb (fun d => negb (inherited (dest_host d))) dests
     end.

(** ** The monthly interval in the words of the specification

    "Calendar month increment, preserving day-of-month where possible": the
    same day number and time of day in the next calendar month, and the last
    day of that month when it has no such day.  The program has no such
    function; [Planner.advance] is compared with it. *)
Definition calendarMonthLater (tz : Z -> bool -> Z) (tv : Z) : Z :=
  let t := JSDate.LocalTime tz tv in
  let y := JSDate.YearFromTime t in
  let m := JSDate.MonthFromTime t in
  let y' := y + (m + 1) / 12 in
  let m' := (m + 1) mod 12 in
  let dt := Z.min (JSDate.DateFromTime t)
                  (JSDate.daysInMonth m' (JSDate.isLeap y')) in
  JSDate.UTC tz (JSDate.MakeDate (JSDate.MakeDay y' m' dt)
                                 (JSDate.TimeWithinDay t)).

(** ** Catalog snapshots and worlds used as concrete inputs *)

Module Fixtures.

Definition cfg (user target : string) : SSHConfig :=
  {| username := user; ssh_host := target;
     privateKeyPath := "/root/.ssh/id_rsa"; passphrase := None |}.

Definition mkHost (name : string) (isAgent : option bool)
    (a : option Availability) (links : list string) : Host :=
  {| h_id := name; agent := isAgent; available := a;
     ssh := list_to_map (List.map (fun k => (k, cfg "backup" k)) links) |}.

(** Scenario "source down": the agent can reach B, B is marked unreachable
    and is asked to keep the archive itself. *)
Definition sourceDown_B : Host := mkHost "B" None (Some Unreachable) [].
Definition sourceDown_hosts : gmap string Host :=
  {[ "A" := mkHost "A" (Some true) None ["B"]; "B" := sourceDown_B ]}.
Definition sourceDown_blueprint : Blueprint :=
  {| b_id := "etc/daily"; interval := Daily;
     b_mode := BSshAgent "B" None (Files ["/etc"]) [HostDest "B" "/keep/"] |}.

(** Scenario "receive": B cannot reach C, C can reach B, the agent can reach
    both. *)
Definition receive_hosts : gmap string Host :=
  {[ "A" := mkHost "A" (Some true) None ["B"; "C"];
     "B" := mkHost "B" None (Some Reachable) [];
     "C" := mkHost "C" None (Some Reachable) ["B"] ]}.
Definition receive_blueprint : Blueprint :=
  {| b_id := "etc/daily"; interval := Daily;
     b_mode := BSshAgent "B" None (Files ["/etc"]) [HostDest "C" "/bk/"] |}.

(** Scenario "fan-out": C is reached directly, D through the agent, E pulls;
    the archive is also kept on B and on the agent. *)
Definition fanout_B : Host := mkHost "B" None (Some Reachable) ["C"].
Definition fanout_hosts : gmap string Host :=
  {[ "A" := mkHost "A" (Some true) None ["B"; "C"; "D"; "E"];
     "B" := fanout_B;
     "C" := mkHost "C" None (Some Reachable) [];
     "D" := mkHost "D" None (Some Reachable) [];
     "E" := mkHost "E" None (Some Reachable) ["B"] ]}.
Definition fanout_destinations : list Destination :=
  [HostDest "C" "/bk/"; HostDest "D" "/bk/"; HostDest "E" "/bk/";
   HostDest "B" "/keep/"; HostDest "A" "/local/"].
Definition fanout_blueprint : Blueprint :=
  {| b_id := "etc/daily"; interval := Daily;
     b_mode := BSshAgent "B" None (Files ["/etc"]) fanout_destinations |}.

(** 2023-11-14T22:13:20Z, and a run one and a half days before it. *)
Definition t_now : Z := 1700000000000.
Definition t_lastRun : Z := t_now - 129600000.

Definition fanout_clone : CloneStrategy :=
  {| retainOnHost := RetainAt "/keep/"; downloadLocally := DownloadAt "/local/";
     directlyCloneTo := [HostDest "C" "/bk/"];
     redirectCloneTo := [HostDest "D" "/bk/"];
     receiveCloneFrom := [HostDest "E" "/bk/"] |}.
Definition fanout_weekly : Blueprint :=
  {| b_id := "etc/weekly"; interval := Weekly;
     b_mode := BSshAgent "B" None (Files ["/etc"]) fanout_destinations |}.
Definition fanout_monthly : Blueprint :=
  {| b_id := "etc/monthly"; interval := Monthly;
     b_mode := BSshAgent "B" None (Files ["/etc"]) fanout_destinations |}.

(** A last run at 2023-01-31T10:00:00Z, looked at on 2023-03-01T10:00:00Z;
    between them 2023-02-28T10:00:00Z, after them 2023-03-03T10:00:00Z. *)
Definition t_jan31 : Z := 1675159200000.
Definition t_feb28 : Z := 1677578400000.
Definition t_mar1 : Z := 1677664800000.
Definition t_mar3 : Z := 1677837600000.

(** Scenario "redirect": neither B nor C can reach the other; the agent
    reaches both and no destination names the agent. *)
Definition redirect_B : Host := mkHost "B" None (Some Reachable) [].
Definition redirect_hosts : gmap string Host :=
  {[ "A" := mkHost "A" (Some true) None ["B"; "C"];
     "B" := redirect_B;
     "C" := mkHost "C" None (Some NoData) [] ]}.
Definition redirect_blueprint : Blueprint :=
  {| b_id := "db/monthly"; interval := Monthly;
     b_mode := BSshAgent "B" None (Mongodb "mongodb://db/app")
                 [HostDest "C" "/bk/"] |}.
Definition redirect_clone : CloneStrategy :=
  {| retainOnHost := RetainFalse; downloadLocally := DownloadBool true;
     directlyCloneTo := []; redirectCloneTo := [HostDest "C" "/bk/"];
     receiveCloneFrom := [] |}.

(** A heap with one [Date] object, the last successful run. *)
Definition lastRunRef : positive := 1%positive.
Definition lastRunHeap : gmap positive Z := {[ lastRunRef := t_lastRun ]}.
Definition jan31Heap : gmap positive Z := {[ lastRunRef := t_jan31 ]}.

(** Host documents as the catalog stores them, and a network on which every
    connection attempt is refused. *)
Definition documents : list Host :=
  [mkHost "A" None None ["B"]; mkHost "B" None None []].
Definition refusing : SSHConfig -> Catalog.Settled :=
  fun _ => Catalog.RejectedWith "connect ECONNREFUSED".

(** Worlds for the executor. *)
Definition ok : Exec.Outcome :=
  Exec.Resolved {| Exec.stdout := ""; Exec.stderr := ""; Exec.code := Some 0 |}.

Definition allOk : list Exec.Event -> Exec.Event -> Exec.Outcome :=
  fun _ _ => ok.

(** [tar] writes to stderr, so [exec] rejects. *)
Definition tarFails : list Exec.Event -> Exec.Event -> Exec.Outcome :=
  fun _ ev =>
    match ev with
    | Exec.EvExec _ prog _ =>
        if String.eqb prog "tar" then Exec.Rejected "tar: /etc: Cannot open"
        else ok
    | _ => ok
    end.

(** [mongodump] reports its progress on stderr, so [exec] rejects. *)
Definition mongodumpNoisy : list Exec.Event -> Exec.Event -> Exec.Outcome :=
  fun _ ev =>
    match ev with
    | Exec.EvExec _ prog _ =>
        if String.eqb prog "mongodump"
        then Exec.Rejected "writing app.users to /tmp"
        else ok
    | _ => ok
    end.

(** Every hook command exits with status 1. *)
Definition hookExits1 : list Exec.Event -> Exec.Event -> Exec.Outcome :=
  fun _ ev =>
    match ev with
    | Exec.EvExecCommand _ _ _ =>
        Exec.Resolved {| Exec.stdout := ""; Exec.stderr := "stop failed";
                         Exec.code := Some 1 |}
    | _ => ok
    end.

Definition resolveIn (dir : string) (p : string) : string :=
  (dir ++ "/" ++ p)%string.

Definition stopService : Hooks :=
  {| pre := Some {| cwd := "/srv"; cmd := "systemctl stop app" |};
     post := None |}.

Definition retainOnly : CloneStrategy :=
  {| retainOnHost := RetainAt "/keep/"; downloadLocally := DownloadBool false;
     directlyCloneTo := []; redirectCloneTo := []; receiveCloneFrom := [] |}.

Definition fanout_plan : Plan :=
  {| p_id := "etc/daily";
     p_mode := PSshAgent fanout_B None (Files ["/etc"]) fanout_clone |}.

(** No colouring of log lines. *)
Definition plain (s : string) : string := s.

Definition executor0 : Exec.SSHExecutor :=
  {| Exec.config := Some (cfg "backup" "B"); Exec.ssh_client := 0 |}.

(** The run of the fan-out plan in a world where every call succeeds. *)
Definition fanout_run : Exec.State * (string + unit) :=
  Exec.execute allOk "123" "2023-11-14T22:13:20.000Z"
    "2023-11-14T22:13:21.000Z" (resolveIn "/opt/agent") plain
    fanout_hosts "A" fanout_plan Exec.initial.

Definition retain_plan (hooks : option Hooks) : Plan :=
  {| p_id := "etc/daily";
     p_mode := PSshAgent sourceDown_B hooks (Files ["/etc"]) retainOnly |}.

End Fixtures.

(** * Properties *)

(** ** Calendar arithmetic behind the due check *)

Module JSDateFacts.
Import JSDate.

Lemma MonthFromTime_range (t : Z) : 0 <= MonthFromTime t <= 11.
Proof.
  unfold MonthFromTime.
  repeat match goal with |- context [if ?b then _ else _] => destruct b end;
    lia.
Qed.

Lemma InLeapYear_isLeap (t : Z) :
  InLeapYear t = if isLeap (YearFromTime t) then 1 else 0.
Proof. reflexivity. Qed.

Lemma MakeDate_Day (t k : Z) :
  MakeDate (Day t + k) (TimeWithinDay t) = t + k * msPerDay.
Proof.
  unfold MakeDate, Day, TimeWithinDay.
  pose proof (Z.div_mod t msPerDay) as E.
  assert (msPerDay <> 0) as Hne by (unfold msPerDay; lia).
  specialize (E Hne). lia.
Qed.

(** Setting the day of the month to [getDate() + k] moves the local time by
    [k] days and keeps the time within the day. *)
Lemma setDate_getDate_plus (tz : Z -> bool -> Z) (tv k : Z) :
  setDate tz tv (getDate tz tv + k) = UTC tz (LocalTime tz tv + k * msPerDay).
Proof.
  unfold setDate, getDate. cbv zeta.
  set (t := LocalTime tz tv). f_equal.
  rewrite <- MakeDate_Day. f_equal.
  unfold MakeDay, DateFromTime, DayWithinYear. cbv zeta.
  pose proof (MonthFromTime_range t) as Hm.
  rewrite Z.div_small, Z.mod_small by lia.
  rewrite Z.add_0_r, InLeapYear_isLeap. lia.
Qed.

Lemma DayFromYear_succ (y : Z) :
  DayFromYear (y + 1) = DayFromYear y + DaysInYear y.
Proof.
  unfold DayFromYear, DaysInYear, isLeap.
  repeat match goal with
         | |- context [Z.eqb ?a ?b] => destruct (Z.eqb_spec a b)
         end; cbn [negb];
    Z.div_mod_to_equations; lia.
Qed.

(** Setting the month to [getMonth() + 1] moves the local time by the length
    of the current month: the same day number in the next month, carried
    into the month after it when the next month is shorter. *)
Lemma setMonth_getMonth_succ (tz : Z -> bool -> Z) (tv : Z) :
  setMonth tz tv (getMonth tz tv + 1) =
  UTC tz (LocalTime tz tv
          + daysInMonth (MonthFromTime (LocalTime tz tv))
                        (isLeap (YearFromTime (LocalTime tz tv))) * msPerDay).
Proof.
  unfold setMonth, getMonth. cbv zeta.
  set (t := LocalTime tz tv). f_equal.
  rewrite <- MakeDate_Day. f_equal.
  unfold MakeDay, DateFromTime, DayWithinYear. cbv zeta.
  rewrite InLeapYear_isLeap.
  pose proof (MonthFromTime_range t) as Hm.
  pose proof (DayFromYear_succ (YearFromTime t)) as Hy.
  unfold DaysInYear in Hy.
  remember (MonthFromTime t) as m eqn:Em. clear Em.
  remember (YearFromTime t) as y eqn:Ey. clear Ey.
  assert (m = 0 \/ m = 1 \/ m = 2 \/ m = 3 \/ m = 4 \/ m = 5 \/ m = 6
          \/ m = 7 \/ m = 8 \/ m = 9 \/ m = 10 \/ m = 11) as Hc by lia.
  destruct Hc as [->|[->|[->|[->|[->|[->|[->|[->|[->|[->|[->| ->]]]]]]]]]]];
    repeat match goal with
           | |- context [Z.modulo ?a 12] =>
               let v := eval vm_compute in (Z.modulo a 12) in
               change (Z.modulo a 12) with v
           | |- context [Z.div ?a 12] =>
               let v := eval vm_compute in (Z.div a 12) in
               change (Z.div a 12) with v
           end;
    rewrite ?Z.add_0_r; unfold monthStart, daysInMonth;
    destruct (isLeap y); lia.
Qed.

(** A year has 365 or 366 days: bounds on the first day of a year. *)
Lemma DayFromYear_after (y : Z) :
  1970 <= y -> 365 * (y - 1970) <= DayFromYear y <= 366 * (y - 1970).
Proof. unfold DayFromYear. intros H. Z.div_mod_to_equations. lia. Qed.

Lemma DayFromYear_before (y : Z) :
  y <= 1970 -> 366 * (y - 1970) <= DayFromYear y <= 365 * (y - 1970).
Proof. unfold DayFromYear. intros H. Z.div_mod_to_equations. lia. Qed.

Lemma DaysInYear_pos (y : Z) : 365 <= DaysInYear y <= 366.
Proof. unfold DaysInYear. destruct (isLeap y); lia. Qed.

(** The downward search stops at the year of day [d] when it starts at or
    above it and has fuel to reach it. *)
Lemma yearDown_spec (fuel : nat) (d y : Z) :
  d < DayFromYear (y + 1) ->
  DayFromYear (y - Z.of_nat fuel + 1) <= d ->
  DayFromYear (yearDown fuel d y) <= d < DayFromYear (yearDown fuel d y + 1).
Proof.
  revert y. induction fuel as [|n IH]; intros y Hu Hl.
  - replace (y - Z.of_nat 0 + 1) with (y + 1) in Hl by lia. lia.
  - cbn [yearDown]. destruct (Z.leb_spec (DayFromYear y) d) as [Hle|Hgt].
    + lia.
    + apply IH.
      * replace (y - 1 + 1) with y by lia. exact Hgt.
      * replace (y - 1 - Z.of_nat n + 1) with (y - Z.of_nat (S n) + 1) by lia.
        exact Hl.
Qed.

(** [YearFromTime], as ECMAScript defines it: the year whose days include
    [Day t].  The estimate and the fuel of the search suffice for every
    [t]. *)
Lemma YearFromTime_spec (t : Z) :
  DayFromYear (YearFromTime t) <= Day t < DayFromYear (YearFromTime t + 1).
Proof.
  unfold YearFromTime. cbv zeta. set (d := Day t).
  apply yearDown_spec.
  - destruct (Z.leb_spec 0 d) as [Hd|Hd].
    + pose proof (DayFromYear_after (1970 + d / 365 + 1 + 1)) as H.
      assert (0 <= d / 365) by (apply Z.div_pos; lia).
      specialize (H ltac:(lia)).
      pose proof (Z.mod_pos_bound d 365 ltac:(lia)).
      pose proof (Z.div_mod d 365 ltac:(lia)). lia.
    + pose proof (Z.mod_pos_bound d 366 ltac:(lia)).
      pose proof (Z.div_mod d 366 ltac:(lia)).
      destruct (Z.le_gt_cases 1970 (1970 + d / 366 + 1 + 1)) as [Hc|Hc].
      * pose proof (DayFromYear_after _ Hc). lia.
      * pose proof (DayFromYear_before (1970 + d / 366 + 1 + 1) ltac:(lia)). lia.
  - rewrite Nat2Z.inj_add, Z2Nat.id by (apply Z.div_pos; lia).
    destruct (Z.leb_spec 0 d) as [Hd|Hd].
    + rewrite Z.abs_eq by lia.
      pose proof (Z.mod_pos_bound d 365 ltac:(lia)).
      pose proof (Z.div_mod d 365 ltac:(lia)).
      pose proof (Z.mod_pos_bound d 100000 ltac:(lia)).
      pose proof (Z.div_mod d 100000 ltac:(lia)).
      set (z := 1970 + d / 365 + 1 - (d / 100000 + Z.of_nat 4) + 1).
      destruct (Z.le_gt_cases 1970 z) as [Hc|Hc].
      * pose proof (DayFromYear_after _ Hc). subst z. lia.
      * pose proof (DayFromYear_before z ltac:(lia)). subst z. lia.
    + rewrite Z.abs_neq by lia.
      pose proof (Z.mod_pos_bound d 366 ltac:(lia)).
      pose proof (Z.div_mod d 366 ltac:(lia)).
      pose proof (Z.mod_pos_bound (- d) 100000 ltac:(lia)).
      pose proof (Z.div_mod (- d) 100000 ltac:(lia)).
      set (z := 1970 + d / 366 + 1 - (- d / 100000 + Z.of_nat 4) + 1).
      pose proof (DayFromYear_before z ltac:(subst z; lia)). subst z. lia.
Qed.

Lemma DayWithinYear_range (t : Z) :
  0 <= DayWithinYear t < DaysInYear (YearFromTime t).
Proof.
  unfold DayWithinYear. pose proof (YearFromTime_spec t) as H.
  rewrite DayFromYear_succ in H. lia.
Qed.

Lemma DateFromTime_range (t : Z) :
  1 <= DateFromTime t
    <= daysInMonth (MonthFromTime t) (isLeap (YearFromTime t)).
Proof.
  unfold DateFromTime, MonthFromTime. rewrite InLeapYear_isLeap.
  pose proof (DayWithinYear_range t) as H. unfold DaysInYear in H.
  cbv zeta.
  destruct (isLeap (YearFromTime t));
  repeat match goal with
         | |- context [Z.ltb ?a ?b] => destruct (Z.ltb_spec a b)
         end; cbn [monthStart daysInMonth]; lia.
Qed.

Lemma daysInMonth_bounds m leap : 28 <= daysInMonth m leap <= 31.
Proof.
  unfold daysInMonth.
  repeat match goal with
         | |- context [match ?x with _ => _ end] => destruct x
         end; lia.
Qed.

Lemma DayFromYear_lt (y1 y2 : Z) :
  y1 < y2 -> DayFromYear y1 < DayFromYear y2.
Proof. unfold DayFromYear. intros H. Z.div_mod_to_equations. lia. Qed.

(** [YearFromTime t] is the only year whose days include [Day t]. *)
Lemma YearFromTime_unique (t y : Z) :
  DayFromYear y <= Day t < DayFromYear (y + 1) -> YearFromTime t = y.
Proof.
  intros H. pose proof (YearFromTime_spec t) as Hs.
  destruct (Z.lt_trichotomy (YearFromTime t) y) as [Hlt|[He|Hgt]]; [|exact He|].
  - assert (YearFromTime t + 1 <= y) as Hle by lia.
    apply Zle_lt_or_eq in Hle as [Hl|Hl].
    + pose proof (DayFromYear_lt _ _ Hl). lia.
    + rewrite Hl in Hs. lia.
  - assert (y + 1 <= YearFromTime t) as Hle by lia.
    apply Zle_lt_or_eq in Hle as [Hl|Hl].
    + pose proof (DayFromYear_lt _ _ Hl). lia.
    + rewrite <- Hl in Hs. lia.
Qed.

Lemma Day_MakeDate (day tod : Z) :
  0 <= tod < msPerDay ->
  Day (MakeDate day tod) = day /\ TimeWithinDay (MakeDate day tod) = tod.
Proof.
  unfold Day, TimeWithinDay, MakeDate, msPerDay. intros H.
  Z.div_mod_to_equations. lia.
Qed.

Lemma TimeWithinDay_range (t : Z) : 0 <= TimeWithinDay t < msPerDay.
Proof. unfold TimeWithinDay, msPerDay. apply Z.mod_pos_bound. lia. Qed.

(** The date read back from day [d] of month [m] of year [y]. *)
Lemma calendar_of_MakeDay (y m d tod : Z) :
  0 <= m <= 11 -> 1 <= d <= daysInMonth m (isLeap y) ->
  0 <= tod < msPerDay ->
  YearFromTime (MakeDate (MakeDay y m d) tod) = y
  /\ MonthFromTime (MakeDate (MakeDay y m d) tod) = m
  /\ DateFromTime (MakeDate (MakeDay y m d) tod) = d
  /\ TimeWithinDay (MakeDate (MakeDay y m d) tod) = tod.
Proof.
  intros Hm Hd Ht. set (t := MakeDate (MakeDay y m d) tod).
  destruct (Day_MakeDate (MakeDay y m d) tod Ht) as [HD HT]. fold t in HD, HT.
  assert (MakeDay y m d
          = DayFromYear y + monthStart m (if isLeap y then 1 else 0) + d - 1)
    as HM.
  { unfold MakeDay. cbv zeta.
    rewrite Z.div_small, Z.mod_small by lia. rewrite Z.add_0_r. reflexivity. }
  assert (0 <= monthStart m (if isLeap y then 1 else 0) + d - 1
          < DaysInYear y) as Hr.
  { unfold DaysInYear.
    assert (m = 0 \/ m = 1 \/ m = 2 \/ m = 3 \/ m = 4 \/ m = 5 \/ m = 6
            \/ m = 7 \/ m = 8 \/ m = 9 \/ m = 10 \/ m = 11) as Hc by lia.
    destruct Hc as [->|[->|[->|[->|[->|[->|[->|[->|[->|[->|[->| ->]]]]]]]]]]];
      cbn [monthStart daysInMonth] in *; destruct (isLeap y); lia. }
  assert (YearFromTime t = y) as HY.
  { apply YearFromTime_unique. rewrite HD, HM, DayFromYear_succ. lia. }
  assert (DayWithinYear t
          = monthStart m (if isLeap y then 1 else 0) + d - 1) as HW.
  { unfold DayWithinYear. rewrite HY, HD, HM. lia. }
  assert (MonthFromTime t = m) as HMo.
  { unfold MonthFromTime. rewrite InLeapYear_isLeap, HY, HW. cbv zeta.
    assert (m = 0 \/ m = 1 \/ m = 2 \/ m = 3 \/ m = 4 \/ m = 5 \/ m = 6
            \/ m = 7 \/ m = 8 \/ m = 9 \/ m = 10 \/ m = 11) as Hc by lia.
    destruct Hc as [->|[->|[->|[->|[->|[->|[->|[->|[->|[->|[->| ->]]]]]]]]]]];
      cbn [monthStart daysInMonth] in *; destruct (isLeap y);
      repeat match goal with
             | |- context [Z.ltb ?a ?b] => destruct (Z.ltb_spec a b)
             end; lia. }
  repeat split; auto.
  unfold DateFromTime. rewrite HMo, InLeapYear_isLeap, HY, HW. lia.
Qed.

(** Day [d] of a month that has only [daysInMonth] days is a day of the
    month after it. *)
Lemma MakeDay_overflow (y m d : Z) :
  0 <= m <= 10 ->
  MakeDay y m d = MakeDay y (m + 1) (d - daysInMonth m (isLeap y)).
Proof.
  intros Hm. unfold MakeDay. cbv zeta.
  rewrite !Z.div_small, !Z.mod_small by lia. rewrite Z.add_0_r.
  assert (m = 0 \/ m = 1 \/ m = 2 \/ m = 3 \/ m = 4 \/ m = 5 \/ m = 6
          \/ m = 7 \/ m = 8 \/ m = 9 \/ m = 10) as Hc by lia.
  destruct Hc as [->|[->|[->|[->|[->|[->|[->|[->|[->|[->| ->]]]]]]]]]];
    repeat match goal with
           | |- context [monthStart (?a + 1) ?l] =>
               let v := eval vm_compute in (a + 1) in
               change (monthStart (a + 1) l) with (monthStart v l)
           end;
    cbn [monthStart daysInMonth]; destruct (isLeap y); lia.
Qed.

Lemma MakeDay_carry (y m d : Z) :
  MakeDay y m d = MakeDay (y + m / 12) (m mod 12) d.
Proof.
  unfold MakeDay. cbv zeta.
  rewrite Z.mod_mod by lia.
  rewrite (Z.div_small (m mod 12) 12) by (apply Z.mod_pos_bound; lia).
  rewrite Z.add_0_r. reflexivity.
Qed.

(** The local date after [setMonth(getMonth() + 1)]: the same day number in
    the next month, or, when the next month is too short for it, the day
    of the month after that it overflows to.  The time of day is kept. *)
Lemma next_month_date (t : Z) :
  let y' := YearFromTime t + (MonthFromTime t + 1) / 12 in
  let m' := (MonthFromTime t + 1) mod 12 in
  let t' := MakeDate (MakeDay (YearFromTime t) (MonthFromTime t + 1)
                              (DateFromTime t)) (TimeWithinDay t) in
  TimeWithinDay t' = TimeWithinDay t
  /\ YearFromTime t' = y'
  /\ if DateFromTime t <=? daysInMonth m' (isLeap y')
     then MonthFromTime t' = m' /\ DateFromTime t' = DateFromTime t
     else MonthFromTime t' = m' + 1
          /\ DateFromTime t' = DateFromTime t - daysInMonth m' (isLeap y').
Proof.
  cbv zeta. rewrite MakeDay_carry.
  pose proof (MonthFromTime_range t) as Hm.
  pose proof (DateFromTime_range t) as Hd.
  pose proof (daysInMonth_bounds (MonthFromTime t) (isLeap (YearFromTime t))).
  pose proof (TimeWithinDay_range t) as Ht.
  set (y' := YearFromTime t + (MonthFromTime t + 1) / 12).
  set (m' := (MonthFromTime t + 1) mod 12).
  assert (0 <= m' <= 11) as Hm'
    by (pose proof (Z.mod_pos_bound (MonthFromTime t + 1) 12); lia).
  destruct (Z.leb_spec (DateFromTime t) (daysInMonth m' (isLeap y')))
    as [Hle|Hgt].
  - destruct (calendar_of_MakeDay y' m' (DateFromTime t) (TimeWithinDay t))
      as (E1 & E2 & E3 & E4); auto; lia.
  - assert (0 <= m' <= 10) as Hm10.
    { destruct (Z.eq_dec m' 11) as [E|]; [|lia].
      rewrite E in Hgt. cbn [daysInMonth] in Hgt. lia. }
    rewrite (MakeDay_overflow y' m') by exact Hm10.
    pose proof (daysInMonth_bounds m' (isLeap y')).
    pose proof (daysInMonth_bounds (m' + 1) (isLeap y')).
    destruct (calendar_of_MakeDay y' (m' + 1)
                (DateFromTime t - daysInMonth m' (isLeap y'))
                (TimeWithinDay t))
      as (E1 & E2 & E3 & E4); auto; lia.
Qed.

(** [setMonth(getMonth() + 1)] on a local time, without the zone. *)
Lemma next_month_days (t : Z) :
  MakeDate (MakeDay (YearFromTime t) (MonthFromTime t + 1) (DateFromTime t))
           (TimeWithinDay t)
  = t + daysInMonth (MonthFromTime t) (isLeap (YearFromTime t)) * msPerDay.
Proof.
  pose proof (setMonth_getMonth_succ utcZone t) as H.
  unfold setMonth, getMonth, UTC, LocalTime, utcZone in H. cbv zeta in H.
  rewrite !Z.add_0_r, !Z.sub_0_r in H. exact H.
Qed.

End JSDateFacts.

(** ** The planner *)

Module PlannerFacts.
Import Planner Fixtures.

Lemma forceDownload_buckets (c : CloneStrategy) :
  directlyCloneTo (forceDownload c) = directlyCloneTo c
  /\ redirectCloneTo (forceDownload c) = redirectCloneTo c
  /\ receiveCloneFrom (forceDownload c) = receiveCloneFrom c
  /\ retainOnHost (forceDownload c) = retainOnHost c.
Proof. unfold forceDownload. destruct (_ && _); auto. Qed.

(** What an ssh-agent result of the [try] block tells about its inputs. *)
Lemma planSshAgent_inr hosts agentId bhost hooks strategy dests m :
  planSshAgent hosts agentId bhost hooks strategy dests = inr m ->
  exists host agentH,
    hosts !! bhost = Some host
    /\ truthyAvailable (available host) = true
    /\ hosts !! agentId = Some agentH
    /\ defined (ssh agentH !! bhost) = true
    /\ noDestinations (buildClone hosts agentId host bhost dests) = false
    /\ m = PSshAgent host hooks strategy
             (forceDownload (buildClone hosts agentId host bhost dests)).
Proof.
  unfold planSshAgent. intros H.
  destruct (hosts !! bhost) as [host|] eqn:Eh; [|discriminate].
  destruct (truthyAvailable (available host)) eqn:Ea; [|discriminate].
  destruct (hosts !! agentId) as [agentH|] eqn:Eg; [|discriminate].
  destruct (defined (ssh agentH !! bhost)) eqn:Es; [|discriminate].
  destruct (noDestinations _) eqn:En; [discriminate|].
  cbn in H. injection H as <-. exists host, agentH. repeat split; auto.
Qed.

Lemma dispatch_sshAgent hosts b agentId host hooks strategy clone :
  p_mode (dispatch hosts b agentId) = PSshAgent host hooks strategy clone ->
  exists bhost dests,
    b_mode b = BSshAgent bhost hooks strategy dests
    /\ planSshAgent hosts agentId bhost hooks strategy dests
       = inr (PSshAgent host hooks strategy clone).
Proof.
  unfold dispatch. intros H.
  destruct (b_mode b) as [bhost hk st dests|]; [|discriminate].
  destruct (planSshAgent hosts agentId bhost hk st dests) as [e|m] eqn:E;
    [discriminate|].
  cbn in H. subst m.
  destruct (planSshAgent_inr _ _ _ _ _ _ _ E) as (h0 & a0 & _ & _ & _ & _ & _ & Hm).
  injection Hm as -> -> -> _.
  exists bhost, dests. split; [reflexivity|exact E].
Qed.

(** The plan of [createPlan] is a skip of the due check or the dispatch. *)
Lemma createPlan_cases tz now hosts b latestRun agentId (h : Heap) :
  p_mode (createPlan tz now hosts b latestRun agentId h).1 = PSkipped
  \/ (createPlan tz now hosts b latestRun agentId h).1
     = dispatch hosts b agentId.
Proof.
  unfold createPlan.
  destruct latestRun as [r|]; [|right; reflexivity].
  destruct (h !! r) as [tv|]; [|right; reflexivity].
  destruct (now <? _); [left|right]; reflexivity.
Qed.

Lemma createPlan_sshAgent tz now hosts b latestRun agentId (h : Heap)
    host hooks strategy clone :
  p_mode (createPlan tz now hosts b latestRun agentId h).1
    = PSshAgent host hooks strategy clone ->
  exists bhost dests,
    b_mode b = BSshAgent bhost hooks strategy dests
    /\ hosts !! bhost = Some host
    /\ truthyAvailable (available host) = true
    /\ clone = forceDownload (buildClone hosts agentId host bhost dests).
Proof.
  intros H.
  destruct (createPlan_cases tz now hosts b latestRun agentId h) as [E|E];
    [rewrite E in H; discriminate|].
  rewrite E in H.
  destruct (dispatch_sshAgent _ _ _ _ _ _ _ H) as (bhost & dests & Hb & Hp).
  destruct (planSshAgent_inr _ _ _ _ _ _ _ Hp)
    as (h0 & a0 & Hh & Ha & _ & _ & _ & Hm).
  injection Hm as -> ->.
  exists bhost, dests. repeat split; auto.
Qed.

(** C1, as far as the code goes: the source host of an ssh-agent plan is in
    the catalog and its [available] field is set to some verdict. *)
Lemma sshAgent_source_has_verdict tz now hosts b latestRun agentId (h : Heap)
    host hooks strategy clone :
  p_mode (createPlan tz now hosts b latestRun agentId h).1
    = PSshAgent host hooks strategy clone ->
  exists bhost, hosts !! bhost = Some host /\ available host <> None.
Proof.
  intros H.
  destruct (createPlan_sshAgent _ _ _ _ _ _ _ _ _ _ _ H)
    as (bhost & dests & _ & Hh & Ha & _).
  exists bhost. split; [exact Hh|].
  destruct (available host); [discriminate|discriminate Ha].
Qed.

(** C1 (the code departs from the claim): with a source host whose verdict
    is [unreachable], [createPlan] returns an ssh-agent plan for that host,
    not a failed plan: the test [!host.available] only rejects a missing
    verdict. *)
Theorem C1_unreachable_source_is_planned :
  sourceDown_hosts !! "B" = Some sourceDown_B
  /\ available sourceDown_B = Some Unreachable
  /\ (createPlan JSDate.utcZone t_now sourceDown_hosts sourceDown_blueprint
                 None "A" ∅).1
     = {| p_id := "etc/daily";
          p_mode := PSshAgent sourceDown_B None (Files ["/etc"]) retainOnly |}.
Proof. repeat split; vm_compute; reflexivity. Qed.

(** After validation, the [try] block throws exactly when the four fields
    that the final test reads are all empty or false. *)
Lemma planSshAgent_validated hosts agentId bhost hooks strategy dests
    host agentH :
  hosts !! bhost = Some host ->
  truthyAvailable (available host) = true ->
  hosts !! agentId = Some agentH ->
  defined (ssh agentH !! bhost) = true ->
  planSshAgent hosts agentId bhost hooks strategy dests =
    if noDestinations (buildClone hosts agentId host bhost dests)
    then inl "no viable destinations"
    else inr (PSshAgent host hooks strategy
                (forceDownload (buildClone hosts agentId host bhost dests))).
Proof.
  intros Hh Ha Hg Hs. unfold planSshAgent. rewrite Hh, Ha, Hg, Hs.
  reflexivity.
Qed.

(** C2 (the code departs from the claim): B and the agent pass validation,
    C is classified into [receiveCloneFrom], and the plan still fails: the
    test before [throw "no viable destinations"] does not read
    [receiveCloneFrom]. *)
Theorem C2_receive_only_plan_fails :
  receiveCloneFrom
    (buildClone receive_hosts "A" (mkHost "B" None (Some Reachable) []) "B"
                [HostDest "C" "/bk/"])
    = [HostDest "C" "/bk/"]
  /\ planSshAgent receive_hosts "A" "B" None (Files ["/etc"])
                  [HostDest "C" "/bk/"]
     = inl "no viable destinations"
  /\ p_mode (createPlan JSDate.utcZone t_now receive_hosts receive_blueprint
                        None "A" ∅).1
     = PFailed.
Proof. repeat split; vm_compute; reflexivity. Qed.

(** C6 (amended): the due check.  For a last run that is a valid [Date]
    and is still one when advanced by the interval: the plan is skipped
    when the advanced last run lies strictly after now; otherwise, and when
    there is no last run, it is the plan of the mode dispatch.  The advance
    is one day or seven days of local time; for a monthly blueprint it is
    [setMonth(getMonth() + 1)], the number of days of the last run's own
    month: in local time the same time of day on the same day number of the
    next month, or, when the next month has no such day, on the day of the
    month after it to which the day number overflows.  The year of a time
    is the calendar year whose days include it, and the day number lies
    within the month. *)
Theorem C6_due_check tz now hosts b agentId (h : Heap) :
  (forall r tv due,
     h !! r = Some tv ->
     JSDate.validTime tv = true ->
     due = JSDate.UTC tz
             (JSDate.LocalTime tz tv
              + match interval b with
                | Daily => 1
                | Weekly => 7
                | Monthly =>
                    JSDate.daysInMonth
                      (JSDate.MonthFromTime (JSDate.LocalTime tz tv))
                      (JSDate.isLeap
                         (JSDate.YearFromTime (JSDate.LocalTime tz tv)))
                end * JSDate.msPerDay) ->
     JSDate.validTime due = true ->
     (now < due ->
      p_mode (createPlan tz now hosts b (Some r) agentId h).1 = PSkipped)
     /\ (due <= now ->
         (createPlan tz now hosts b (Some r) agentId h).1
         = dispatch hosts b agentId))
  /\ (createPlan tz now hosts b None agentId h).1 = dispatch hosts b agentId
  /\ (forall t,
        let y' := JSDate.YearFromTime t + (JSDate.MonthFromTime t + 1) / 12 in
        let m' := (JSDate.MonthFromTime t + 1) mod 12 in
        let t' := t + JSDate.daysInMonth (JSDate.MonthFromTime t)
                        (JSDate.isLeap (JSDate.YearFromTime t))
                      * JSDate.msPerDay in
        JSDate.TimeWithinDay t' = JSDate.TimeWithinDay t
        /\ JSDate.YearFromTime t' = y'
        /\ if JSDate.DateFromTime t
              <=? JSDate.daysInMonth m' (JSDate.isLeap y')
           then JSDate.MonthFromTime t' = m'
                /\ JSDate.DateFromTime t' = JSDate.DateFromTime t
           else JSDate.MonthFromTime t' = m' + 1
                /\ JSDate.DateFromTime t'
                   = JSDate.DateFromTime t
                     - JSDate.daysInMonth m' (JSDate.isLeap y'))
  /\ (forall t,
        JSDate.DayFromYear (JSDate.YearFromTime t) <= JSDate.Day t
          < JSDate.DayFromYear (JSDate.YearFromTime t + 1)
        /\ 0 <= JSDate.MonthFromTime t <= 11
        /\ 1 <= JSDate.DateFromTime t
           <= JSDate.daysInMonth (JSDate.MonthFromTime t)
                (JSDate.isLeap (JSDate.YearFromTime t))).
Proof.
  refine (conj _ (conj eq_refl (conj _ _))).
  - intros r tv due Hr _ Hdue _.
    assert (due = advance tz (interval b) tv) as ->.
    { rewrite Hdue. unfold advance. destruct (interval b).
      - symmetry. apply JSDateFacts.setDate_getDate_plus.
      - symmetry. apply JSDateFacts.setDate_getDate_plus.
      - symmetry. apply JSDateFacts.setMonth_getMonth_succ. }
    unfold createPlan. rewrite Hr. cbv zeta. split.
    + intros Hlt. apply Z.ltb_lt in Hlt. rewrite Hlt. reflexivity.
    + intros Hle. apply Z.ltb_ge in Hle. rewrite Hle. reflexivity.
  - intros t. cbv zeta. rewrite <- JSDateFacts.next_month_days.
    exact (JSDateFacts.next_month_date t).
  - intros t. split; [apply JSDateFacts.YearFromTime_spec|].
    split; [apply JSDateFacts.MonthFromTime_range|].
    apply JSDateFacts.DateFromTime_range.
Qed.

Lemma C6_due_check_witness :
  p_mode (createPlan JSDate.utcZone t_mar1 fanout_hosts fanout_monthly
                     (Some lastRunRef) "A" jan31Heap).1 = PSkipped.
Proof.
  apply (proj1 (C6_due_check JSDate.utcZone t_mar1 fanout_hosts fanout_monthly
                             "A" jan31Heap) lastRunRef t_jan31 t_mar3).
  - reflexivity.
  - vm_compute. reflexivity.
  - vm_compute. reflexivity.
  - vm_compute. reflexivity.
  - vm_compute. reflexivity.
Defined.

(** C6, as the claim words it, fails for a monthly blueprint: one calendar
    month after the last run of 2023-01-31T10:00Z is 2023-02-28T10:00Z,
    which is not after 2023-03-01T10:00Z; yet [createPlan], called then,
    returns a skipped plan and not the plan of the mode dispatch, because
    [setMonth] has moved the last run to 2023-03-03T10:00Z. *)
Lemma C6_counterexample :
  calendarMonthLater JSDate.utcZone t_jan31 = t_feb28
  /\ t_feb28 <= t_mar1
  /\ advance JSDate.utcZone Monthly t_jan31 = t_mar3
  /\ p_mode (createPlan JSDate.utcZone t_mar1 fanout_hosts fanout_monthly
                        (Some lastRunRef) "A" jan31Heap).1 = PSkipped
  /\ p_mode (dispatch fanout_hosts fanout_monthly "A") <> PSkipped.
Proof.
  repeat split; try (vm_compute; reflexivity); vm_compute; discriminate.
Qed.







(** C8, as the code has it: the plan is determined by the snapshot, the
    blueprint, the agent id, the clock and the time value that the last-run
    [Date] holds when the call starts; an undefined last run leaves the heap
    as it is; a defined one is advanced in place by the interval. *)
Theorem C8_plan_determined_date_advanced tz now hosts b agentId :
  (forall h : Heap,
     createPlan tz now hosts b None agentId h
     = (dispatch hosts b agentId, h))
  /\ (forall (h1 h2 : Heap) r, h1 !! r = h2 !! r ->
        (createPlan tz now hosts b (Some r) agentId h1).1
        = (createPlan tz now hosts b (Some r) agentId h2).1)
  /\ (forall (h : Heap) r tv, h !! r = Some tv ->
        (createPlan tz now hosts b (Some r) agentId h).2
        = <[r := advance tz (interval b) tv]> h).
Proof.
  refine (conj _ (conj _ _)).
  - reflexivity.
  - intros h1 h2 r E. unfold createPlan. rewrite E.
    destruct (h2 !! r) as [tv|]; [|reflexivity].
    destruct (now <? _); reflexivity.
  - intros h r tv E. unfold createPlan. rewrite E.
    destruct (now <? _); reflexivity.
Qed.

Lemma C8_plan_determined_date_advanced_witness :
  (createPlan JSDate.utcZone t_now fanout_hosts fanout_blueprint
              (Some lastRunRef) "A" lastRunHeap).2
  = <[lastRunRef := advance JSDate.utcZone Daily t_lastRun]> lastRunHeap.
Proof.
  apply (proj2 (proj2 (C8_plan_determined_date_advanced JSDate.utcZone t_now
                         fanout_hosts fanout_blueprint "A"))).
  reflexivity.
Defined.

(** C8 fails as stated: the call changes the [Date] it is given, and a
    second call with the same arguments returns another plan (the run was
    due, and is skipped the second time). *)
Lemma C8_counterexample :
  (createPlan JSDate.utcZone t_now fanout_hosts fanout_blueprint
              (Some lastRunRef) "A" lastRunHeap).2 <> lastRunHeap
  /\ (createPlan JSDate.utcZone t_now fanout_hosts fanout_blueprint
        (Some lastRunRef) "A"
        (createPlan JSDate.utcZone t_now fanout_hosts fanout_blueprint
                    (Some lastRunRef) "A" lastRunHeap).2).1
     <> (createPlan JSDate.utcZone t_now fanout_hosts fanout_blueprint
                    (Some lastRunRef) "A" lastRunHeap).1.
Proof.
  split.
  - intros E. apply (f_equal (fun m : Heap => m !! lastRunRef)) in E.
    vm_compute in E. discriminate E.
  - intros E. apply (f_equal p_mode) in E. vm_compute in E. discriminate E.
Qed.

End PlannerFacts.

(** ** The catalog probe *)

Module CatalogFacts.
Import Catalog Fixtures.

(** The probe does not depend on the network. *)
Lemma probe_reachable network config : probe network config = Reachable.
Proof. reflexivity. Qed.

Lemma setAvailable_idem a h : setAvailable a (setAvailable a h) = setAvailable a h.
Proof. reflexivity. Qed.

Lemma probe_loop_lookup network (l : list (string * SSHConfig)) :
  forall (hosts : gmap string Host) (k : string),
    fold_left (probeStep network) l hosts !! k
    = match hosts !! k with
      | None => None
      | Some h => Some (if decide (k ∈ l.*1)
                        then setAvailable Reachable h else h)
      end.
Proof.
  induction l as [|[k' c] l IH]; intros hosts k; cbn [fold_left].
  - destruct (hosts !! k); [|reflexivity].
    rewrite decide_False by apply not_elem_of_nil. reflexivity.
  - rewrite IH. unfold probeStep. cbn [fst snd]. rewrite probe_reachable.
    rewrite fmap_cons. cbn [fst].
    destruct (decide (k = k')) as [->|Hne].
    + destruct (hosts !! k') as [h0|] eqn:E0; [|rewrite E0; reflexivity].
      rewrite lookup_insert_eq.
      rewrite (decide_True (P := k' ∈ k' :: l.*1)) by (apply elem_of_cons; auto).
      destruct (decide _); reflexivity.
    + assert (match hosts !! k' with
              | Some h => <[k':=setAvailable Reachable h]> hosts
              | None => hosts
              end !! k = hosts !! k) as ->.
      { destruct (hosts !! k'); [|reflexivity].
        apply lookup_insert_ne. congruence. }
      destruct (hosts !! k); [|reflexivity].
      destruct (decide (k ∈ l.*1)) as [Hin|Hin].
      * rewrite decide_True by (apply elem_of_cons; auto). reflexivity.
      * rewrite decide_False; [reflexivity|].
        apply not_elem_of_cons. auto.
Qed.

(** Every peer that the agent has parameters for and that is in the
    catalog ends up [reachable], on every network. *)
Lemma fetchHosts_peer network agentId results agentHost k config h :
  loadDocuments agentId results !! agentId = Some agentHost ->
  ssh agentHost !! k = Some config ->
  loadDocuments agentId results !! k = Some h ->
  fetchHosts network agentId results !! k = Some (setAvailable Reachable h).
Proof.
  intros Ha Hk Hh. unfold fetchHosts. rewrite Ha, probe_loop_lookup, Hh.
  rewrite decide_True; [reflexivity|].
  apply list_elem_of_fmap. exists (k, config). split; [reflexivity|].
  apply elem_of_map_to_list. exact Hk.
Qed.

(** C3 (the code departs from the claim): the agent holds parameters for B,
    B is in the catalog, every connection attempt is refused, and B is
    marked [reachable]: the promise of [connect] is not awaited, so its
    rejection never reaches the [catch]. *)
Theorem C3_refused_probe_marked_reachable :
  refusing (cfg "backup" "B") = RejectedWith "connect ECONNREFUSED"
  /\ available <$> (fetchHosts refusing "A" documents !! "B")
     = Some (Some Reachable).
Proof. split; vm_compute; reflexivity. Qed.

End CatalogFacts.

(** ** The executor *)

Module ExecFacts.
Import Exec Fixtures.

(** *** Rules for specifications *)

Section Rules.
Context {A B : Type}.

Lemma triple_bind (P : State -> Prop) (m : M A) Q1 (k : A -> M B) Q2 :
  triple P m Q1 ->
  (forall a, triple (Q1 (inr a)) (k a) Q2) ->
  (forall e st, Q1 (inl e) st -> Q2 (inl e) st) ->
  triple P (m ≫= k) Q2.
Proof.
  intros Hm Hk He st st' r HP E. unfold mbind, M_bind in E.
  destruct (m st) as [st1 [e|a]] eqn:Em.
  - injection E as <- <-. apply He. exact (Hm _ _ _ HP Em).
  - exact (Hk a _ _ _ (Hm _ _ _ HP Em) E).
Qed.

Lemma keeps_bind (I : State -> Prop) (m : M A) (k : A -> M B) :
  keeps I m -> (forall a, keeps I (k a)) -> keeps I (m ≫= k).
Proof.
  intros Hm Hk. unfold keeps.
  apply (triple_bind I m (fun _ st => I st)); auto.
Qed.

(** Sequencing along the normal path. *)
Lemma triple_seq (P P' Q : State -> Prop) (m : M A) (k : A -> M B) :
  triple P m (onReturn P') ->
  (forall a, triple P' (k a) (onReturn Q)) ->
  triple P (m ≫= k) (onReturn Q).
Proof.
  intros Hm Hk. apply (triple_bind P m (onReturn P')); [exact Hm|exact Hk|].
  intros e st _. exact Logic.I.
Qed.

Lemma restores_bind (I : State -> Prop) (m : M A) (k : A -> M B) :
  restores I m -> (forall a, restores I (k a)) -> restores I (m ≫= k).
Proof. apply triple_seq. Qed.

Lemma keeps_restores (I : State -> Prop) (m : M A) : keeps I m -> restores I m.
Proof.
  intros H st st' r HI E. destruct r; [exact Logic.I|exact (H _ _ _ HI E)].
Qed.

Lemma keeps_ret (I : State -> Prop) (a : A) : keeps I (mret a).
Proof. intros st st' r HI E. injection E as <- <-. exact HI. Qed.

Lemma keeps_throw (I : State -> Prop) (e : string) : keeps I (mthrow e : M A).
Proof. intros st st' r HI E. injection E as <- <-. exact HI. Qed.

Lemma keeps_try_catch (I : State -> Prop) (m : M A) (h : string -> M A) :
  keeps I m -> (forall e, keeps I (h e)) -> keeps I (try_catch m h).
Proof.
  intros Hm Hh st st' r HI E. unfold try_catch in E.
  destruct (m st) as [st1 [e|a]] eqn:Em.
  - exact (Hh e _ _ _ (Hm _ _ _ HI Em) E).
  - injection E as <- <-. exact (Hm _ _ _ HI Em).
Qed.

Lemma keeps_member (I : State -> Prop) (o : option A) : keeps I (member o).
Proof. destruct o; [apply keeps_ret|apply keeps_throw]. Qed.

End Rules.

Lemma keeps_for_of {A} (I : State -> Prop) (l : list A) (body : A -> M unit) :
  (forall x, keeps I (body x)) -> keeps I (for_of l body).
Proof.
  intros Hb. induction l as [|x l IH]; cbn [for_of].
  - apply keeps_ret.
  - apply keeps_bind; auto.
Qed.

Lemma restores_for_of {A} (I : State -> Prop) (l : list A)
    (body : A -> M unit) :
  (forall x, restores I (body x)) -> restores I (for_of l body).
Proof.
  intros Hb. induction l as [|x l IH]; cbn [for_of].
  - apply keeps_restores, keeps_ret.
  - apply restores_bind; auto.
Qed.

Lemma keeps_assert (I : State -> Prop) value message :
  keeps I (assert value message).
Proof.
  unfold assert. destruct (String.eqb value ""); [apply keeps_throw|apply keeps_ret].
Qed.

(** *** Invariants that the log, a call other than a local removal, and a
    new client do not disturb *)

Section Undisturbed.
Variable world : list Event -> Event -> Outcome.
Variables randomDigits dumpStamp backupStamp : string.
Variables resolve gray : string -> string.
Variable I : State -> Prop.
Hypothesis I_log : forall st s,
  I st ->
  I {| next_session := next_session st; open_sessions := open_sessions st;
       trace := trace st; log := log st ++ [s] |}.
Hypothesis I_record : forall ev st, notRm ev -> I st -> I (record ev st).
(** The clients that may be closed, and the local files that may be
    removed, without disturbing [I]. *)
Variable closable : SSHExecutor -> Prop.
Variable removable : string -> Prop.
Hypothesis I_create : forall config,
  triple I (createSSHExecutor config)
    (fun r st => match r with
                 | inr ex => closable ex /\ I st
                 | inl _ => I st
                 end).
Hypothesis I_ready : forall ex, keeps I (ready world ex).
Hypothesis I_finish : forall ex, closable ex -> keeps I (finish ex).
Hypothesis I_rm : forall f, removable f -> keeps I (rm world f).

Lemma keeps_emit s : keeps I (emit s).
Proof. intros st st' r HI E. injection E as <- <-. apply I_log, HI. Qed.

Lemma keeps_call ev : notRm ev -> keeps I (call world ev).
Proof.
  intros Hev st st' r HI E. unfold call in E.
  destruct (world (trace st) ev); injection E as <- <-;
    apply I_record; assumption.
Qed.

Lemma keeps_exec ex prog args : keeps I (exec world ex prog args).
Proof.
  unfold exec. apply keeps_bind; [apply keeps_call; exact Logic.I|].
  intros _. apply keeps_ret.
Qed.

Lemma keeps_runHook ex hk : keeps I (runHook world ex hk).
Proof.
  destruct hk as [h|]; cbn [runHook]; [|apply keeps_ret].
  apply keeps_bind; [apply keeps_call; exact Logic.I|].
  intros _. apply keeps_ret.
Qed.

Lemma keeps_mongodump ex fn url : keeps I (mongodump world ex fn url).
Proof.
  unfold mongodump. apply keeps_try_catch; [apply keeps_exec|].
  intros e. destruct (includes "Failed" e); [apply keeps_throw|apply keeps_ret].
Qed.

Lemma keeps_SSHExecutor_execute ex hooks strategy :
  keeps I (SSHExecutor_execute world randomDigits dumpStamp ex hooks strategy).
Proof.
  unfold SSHExecutor_execute. cbv zeta.
  apply keeps_bind; [apply keeps_runHook|]. intros _.
  apply keeps_bind.
  - destruct strategy; [apply keeps_exec|].
    apply keeps_bind; [apply keeps_mongodump|]. intros _.
    apply keeps_bind; [apply keeps_exec|]. intros _. apply keeps_exec.
  - intros _. apply keeps_bind; [apply keeps_runHook|]. intros _.
    apply keeps_ret.
Qed.

Lemma keeps_download ex remoteFile localFile :
  keeps I (download world ex remoteFile localFile).
Proof.
  unfold download. apply keeps_bind; [apply keeps_call; exact Logic.I|].
  intros _. apply keeps_ret.
Qed.

Lemma keeps_upload ex localFile remoteFile :
  keeps I (upload world ex localFile remoteFile).
Proof.
  unfold upload. apply keeps_bind; [apply keeps_call; exact Logic.I|].
  intros _. apply keeps_ret.
Qed.

Lemma keeps_scpDownload ex remoteFile remote executorLocalFile :
  keeps I (scpDownload world ex remoteFile remote executorLocalFile).
Proof.
  unfold scpDownload. apply keeps_bind; [apply keeps_member|]. intros r.
  repeat (apply keeps_bind; [apply keeps_assert|]; intros _).
  apply keeps_exec.
Qed.

Lemma keeps_scpUpload ex executorLocalFile remote remoteFile :
  keeps I (scpUpload world ex executorLocalFile remote remoteFile).
Proof.
  unfold scpUpload. apply keeps_bind; [apply keeps_member|]. intros r.
  repeat (apply keeps_bind; [apply keeps_assert|]; intros _).
  apply keeps_exec.
Qed.

(** A client created here is opened, used and closed. *)
Lemma keeps_session {A} config (k : SSHExecutor -> M A) :
  (forall ex, closable ex -> keeps I (k ex)) ->
  keeps I (createSSHExecutor config ≫= k).
Proof.
  intros Hk.
  apply (triple_bind I _ (fun r st => match r with
                                      | inr ex => closable ex /\ I st
                                      | inl _ => I st
                                      end)).
  - apply I_create.
  - intros ex st st' r [Hc HI]. exact (Hk ex Hc st st' r HI).
  - intros e st H. exact H.
Qed.

Lemma keeps_downloadAndRedirect hosts agentId executor pkgFn backupName
    downloadLocally redirectCloneTo :
  (downloadLocally = DownloadBool true ->
   removable (resolve ("./backups/" ++ backupName)%string)) ->
  truthyDownload downloadLocally = true ->
  keeps I (downloadAndRedirect world resolve gray hosts agentId executor
             pkgFn backupName downloadLocally redirectCloneTo).
Proof.
  intros Hrm Ht. unfold downloadAndRedirect. cbv zeta.
  apply keeps_bind; [apply keeps_emit|]. intros _.
  apply keeps_bind; [apply keeps_download|]. intros _.
  apply keeps_bind.
  - apply keeps_for_of. intros d.
    apply keeps_bind; [apply keeps_emit|]. intros _.
    apply keeps_bind; [apply keeps_member|]. intros a.
    apply keeps_session. intros ex Hc.
    apply keeps_bind; [apply I_ready|]. intros _.
    apply keeps_bind; [apply keeps_upload|]. intros _.
    apply I_finish, Hc.
  - intros _. destruct downloadLocally as [p|[|]].
    + apply keeps_ret.
    + apply keeps_bind; [apply keeps_emit|]. intros _.
      apply I_rm, Hrm. reflexivity.
    + discriminate Ht.
Qed.

(** [transfer] never closes the executor it is given. *)
Lemma keeps_transfer hosts agentId planId host hooks strategy clone executor :
  (downloadLocally clone = DownloadBool true ->
   removable (resolve ("./backups/" ++ backupNameOf backupStamp planId)%string)) ->
  keeps I (transfer world randomDigits dumpStamp backupStamp resolve gray
             hosts agentId planId host hooks strategy clone executor).
Proof.
  intros Hrm. unfold transfer. cbv zeta.
  apply keeps_bind; [apply keeps_emit|]. intros _.
  apply keeps_bind; [apply keeps_SSHExecutor_execute|]. intros pkgFn.
  apply keeps_bind.
  { apply keeps_for_of. intros d.
    apply keeps_bind; [apply keeps_emit|]. intros _.
    apply keeps_bind; [apply keeps_member|]. intros src.
    apply keeps_scpUpload. }
  intros _. apply keeps_bind.
  { apply keeps_for_of. intros d.
    apply keeps_bind; [apply keeps_emit|]. intros _.
    apply keeps_bind; [apply keeps_member|]. intros a.
    apply keeps_session. intros ex Hc.
    apply keeps_bind; [apply I_ready|]. intros _.
    apply keeps_bind; [apply keeps_member|]. intros dh.
    apply keeps_bind; [apply keeps_scpDownload|]. intros _.
    apply I_finish, Hc. }
  intros _. apply keeps_bind.
  { destruct (truthyDownload (downloadLocally clone)) eqn:Ht.
    - apply keeps_downloadAndRedirect; assumption.
    - apply keeps_ret. }
  intros _. destruct (retainOnHost clone).
  - apply keeps_bind; [apply keeps_emit|]. intros _. apply keeps_exec.
  - apply keeps_bind; [apply keeps_emit|]. intros _. apply keeps_exec.
Qed.

End Undisturbed.

(** *** The connections held *)

Lemma holds_log o st s :
  holds o st ->
  holds o {| next_session := next_session st;
             open_sessions := open_sessions st;
             trace := trace st; log := log st ++ [s] |}.
Proof. auto. Qed.

Lemma holds_record o ev st : notRm ev -> holds o st -> holds o (record ev st).
Proof. auto. Qed.

Lemma holds_create o config : keeps (holds o) (createSSHExecutor config).
Proof. intros st st' r H E. injection E as <- <-. exact H. Qed.

Lemma holds_ready world o ex :
  triple (holds o) (ready world ex) (onReturn (holds (ssh_client ex :: o))).
Proof.
  intros st st' r H E. unfold ready in E.
  destruct (config ex) as [c|].
  - unfold mbind, M_bind, call, markOpen in E.
    destruct (world (trace st) _); injection E as <- <-; cbn.
    + unfold holds in *. cbn. congruence.
    + exact I.
  - injection E as <- <-. exact I.
Qed.

Lemma holds_finish o ex :
  triple (holds (ssh_client ex :: o)) (finish ex) (onReturn (holds o)).
Proof.
  intros st st' r H E. injection E as <- <-. unfold holds in *. cbn.
  rewrite H. cbn. rewrite Nat.eqb_refl. reflexivity.
Qed.

Section Balanced.
Variable world : list Event -> Event -> Outcome.
Variables randomDigits dumpStamp backupStamp : string.
Variables resolve gray : string -> string.

(** A step that does not touch the connections, on the normal path. *)
Local Ltac untouched :=
  apply keeps_restores;
  first [ apply keeps_emit; apply holds_log
        | apply keeps_member
        | apply holds_create
        | apply keeps_SSHExecutor_execute; apply holds_record
        | apply keeps_scpUpload; apply holds_record
        | apply keeps_scpDownload; apply holds_record
        | apply keeps_download; apply holds_record
        | apply keeps_upload; apply holds_record
        | apply keeps_exec; apply holds_record
        | apply keeps_ret ].

Lemma rm_holds o f : keeps (holds o) (rm world f).
Proof.
  intros st st' r H E. unfold rm, mbind, M_bind, call in E.
  destruct (world (trace st) _); injection E as <- <-; exact H.
Qed.

Lemma transfer_restores o hosts agentId planId host hooks strategy clone
    executor :
  restores (holds o)
    (transfer world randomDigits dumpStamp backupStamp resolve gray
       hosts agentId planId host hooks strategy clone executor).
Proof.
  unfold transfer. cbv zeta.
  apply restores_bind; [untouched|]. intros _.
  apply restores_bind; [untouched|]. intros pkgFn.
  apply restores_bind.
  { apply restores_for_of. intros d.
    apply restores_bind; [untouched|]. intros _.
    apply restores_bind; [untouched|]. intros src. untouched. }
  intros _. apply restores_bind.
  { apply restores_for_of. intros d.
    apply restores_bind; [untouched|]. intros _.
    apply restores_bind; [untouched|]. intros a.
    apply restores_bind; [untouched|]. intros ex.
    apply (triple_seq _ (holds (ssh_client ex :: o))); [apply holds_ready|].
    intros _.
    apply (triple_seq _ (holds (ssh_client ex :: o))); [untouched|].
    intros dh.
    apply (triple_seq _ (holds (ssh_client ex :: o))); [untouched|].
    intros _. apply holds_finish. }
  intros _. apply restores_bind.
  { destruct (truthyDownload (downloadLocally clone)); [|untouched].
    unfold downloadAndRedirect. cbv zeta.
    apply restores_bind; [untouched|]. intros _.
    apply restores_bind; [untouched|]. intros _.
    apply restores_bind.
    - apply restores_for_of. intros d.
      apply restores_bind; [untouched|]. intros _.
      apply restores_bind; [untouched|]. intros a.
      apply restores_bind; [untouched|]. intros ex.
      apply (triple_seq _ (holds (ssh_client ex :: o))); [apply holds_ready|].
      intros _.
      apply (triple_seq _ (holds (ssh_client ex :: o))); [untouched|].
      intros _. apply holds_finish.
    - intros _. destruct (downloadLocally clone); [untouched|].
      apply restores_bind; [untouched|]. intros _.
      apply keeps_restores, rm_holds. }
  intros _. destruct (retainOnHost clone).
  - apply restores_bind; [untouched|]. intros _. untouched.
  - apply restores_bind; [untouched|]. intros _. untouched.
Qed.

(** On a normal return of [execute], the connections held are those held
    before: every client that was opened has been closed. *)
Lemma execute_restores o hosts agentId plan :
  restores (holds o)
    (execute world randomDigits dumpStamp backupStamp resolve gray
       hosts agentId plan).
Proof.
  unfold execute. destruct (p_mode plan) as [host hooks strategy clone| |].
  - apply restores_bind; [untouched|]. intros _.
    apply restores_bind; [untouched|]. intros a.
    apply restores_bind; [untouched|]. intros ex.
    apply (triple_seq _ (holds (ssh_client ex :: o))); [apply holds_ready|].
    intros _.
    apply (triple_seq _ (holds (ssh_client ex :: o)));
      [apply transfer_restores|].
    intros _.
    apply (triple_seq _ (holds o)); [apply holds_finish|].
    intros _. untouched.
  - untouched.
  - untouched.
Qed.

End Balanced.

(** *** A connection that stays *)

Lemma In_remove_first_ne (n x : nat) (l : list nat) :
  x <> n -> In n l -> In n (remove_first x l).
Proof.
  intros Hne. induction l as [|y l IH]; cbn; [auto|].
  intros [->|H].
  - destruct (Nat.eqb_spec n x); [congruence|]. left. reflexivity.
  - destruct (Nat.eqb y x); [exact H|]. right. exact (IH H).
Qed.

Lemma connected_log n st s :
  connected n st ->
  connected n {| next_session := next_session st;
                 open_sessions := open_sessions st;
                 trace := trace st; log := log st ++ [s] |}.
Proof. auto. Qed.

Lemma connected_record n ev st :
  notRm ev -> connected n st -> connected n (record ev st).
Proof. auto. Qed.

Lemma connected_create n config :
  triple (connected n) (createSSHExecutor config)
    (fun r st => match r with
                 | inr ex => (n < ssh_client ex)%nat /\ connected n st
                 | inl _ => connected n st
                 end).
Proof.
  intros st st' r [Hin Hlt] E. injection E as <- <-. cbn.
  split; [exact Hlt|]. split; cbn; [exact Hin|lia].
Qed.

Lemma connected_ready world n ex : keeps (connected n) (ready world ex).
Proof.
  intros st st' r [Hin Hlt] E. unfold ready in E.
  destruct (config ex) as [c|].
  - unfold mbind, M_bind, call, markOpen in E.
    destruct (world (trace st) _); injection E as <- <-;
      split; cbn; auto.
  - injection E as <- <-. split; assumption.
Qed.

Lemma connected_finish n ex :
  (n < ssh_client ex)%nat -> keeps (connected n) (finish ex).
Proof.
  intros Hlt st st' r [Hin Hn] E. injection E as <- <-. split; cbn.
  - apply In_remove_first_ne; [lia|exact Hin].
  - exact Hn.
Qed.

Lemma connected_rm world n f : True -> keeps (connected n) (rm world f).
Proof.
  intros _ st st' r H E. unfold rm, mbind, M_bind, call in E.
  destruct (world (trace st) _); injection E as <- <-; exact H.
Qed.

Section Leak.
Variable world : list Event -> Event -> Outcome.
Variables randomDigits dumpStamp backupStamp : string.
Variables resolve gray : string -> string.

Lemma transfer_connected n hosts agentId planId host hooks strategy clone
    executor :
  keeps (connected n)
    (transfer world randomDigits dumpStamp backupStamp resolve gray
       hosts agentId planId host hooks strategy clone executor).
Proof.
  apply (keeps_transfer world randomDigits dumpStamp backupStamp resolve gray
           (connected n) (connected_log n) (connected_record n)
           (fun ex => (n < ssh_client ex)%nat) (fun _ => True)).
  - apply connected_create.
  - apply connected_ready.
  - apply connected_finish.
  - apply connected_rm.
  - intros _. exact I.
Qed.

(** [execute] once the first client is connected: what remains is the
    transfer, [finish] and the last log line. *)
Lemma execute_connected hosts agentId plan host hooks strategy clone a cfg
    resp st :
  p_mode plan = PSshAgent host hooks strategy clone ->
  hosts !! agentId = Some a ->
  ssh a !! h_id host = Some cfg ->
  world (trace st) (EvConnect (next_session st) cfg) = Resolved resp ->
  let ex := {| config := Some cfg; ssh_client := next_session st |} in
  execute world randomDigits dumpStamp backupStamp resolve gray
          hosts agentId plan st
  = (transfer world randomDigits dumpStamp backupStamp resolve gray
       hosts agentId (p_id plan) host hooks strategy clone ex;;
     finish ex;; emit "Plan complete")
      {| next_session := S (next_session st);
         open_sessions := next_session st :: open_sessions st;
         trace := trace st ++ [EvConnect (next_session st) cfg];
         log := log st ++ [("Preparing to run plan for "
                            ++ gray (p_id plan))%string] |}.
Proof.
  intros Hp Ha Hc Hw ex. unfold execute. rewrite Hp, Ha.
  unfold mbind at 1 2 3 4. unfold M_bind at 1 2 3 4.
  cbn [emit member mret M_ret createSSHExecutor next_session open_sessions
       trace log].
  rewrite Hc. unfold ready. cbn [config ssh_client].
  unfold mbind at 1. unfold M_bind at 1. unfold call at 1.
  cbn [trace]. rewrite Hw. reflexivity.
Qed.

(** When a step after [ready()] throws, the first client is still
    connected when [execute] is left. *)
Lemma execute_leaks hosts agentId plan host hooks strategy clone a cfg
    resp st st' e :
  p_mode plan = PSshAgent host hooks strategy clone ->
  hosts !! agentId = Some a ->
  ssh a !! h_id host = Some cfg ->
  world (trace st) (EvConnect (next_session st) cfg) = Resolved resp ->
  execute world randomDigits dumpStamp backupStamp resolve gray
          hosts agentId plan st = (st', inl e) ->
  In (next_session st) (open_sessions st').
Proof.
  intros Hp Ha Hc Hw E.
  rewrite (execute_connected _ _ _ _ _ _ _ _ _ _ _ Hp Ha Hc Hw) in E.
  cbv zeta in E. unfold mbind at 1 in E. unfold M_bind at 1 in E.
  match type of E with
  | match ?t ?s with _ => _ end = _ => destruct (t s) as [st2 [e'|u]] eqn:Et
  end.
  - injection E as <- _.
    refine (proj1 (transfer_connected (next_session st) _ _ _ _ _ _ _ _
                     _ _ _ _ Et)).
    split; cbn; [left; reflexivity|lia].
  - discriminate E.
Qed.

End Leak.

(** *** The coordinator and the connections *)

(** C4, as the code has it: when [execute] returns normally, the run record
    has no error and the connections held are those held before, so every
    client opened for the plan was closed.  When [execute] throws after
    [ready()] of the first client succeeded, the coordinator records the
    error and that client is still connected: no [finish()] is run on the
    way out. *)
Theorem C4_sessions_closed_on_normal_return
    world randomDigits dumpStamp backupStamp resolve gray
    hosts agentId plan st :
  (rr_error (runPlan world randomDigits dumpStamp backupStamp resolve gray
               hosts agentId plan st).2 = None ->
   open_sessions (runPlan world randomDigits dumpStamp backupStamp resolve
                    gray hosts agentId plan st).1 = open_sessions st)
  /\ (forall e host hooks strategy clone a cfg resp,
        rr_error (runPlan world randomDigits dumpStamp backupStamp resolve
                    gray hosts agentId plan st).2 = Some e ->
        p_mode plan = PSshAgent host hooks strategy clone ->
        hosts !! agentId = Some a ->
        ssh a !! h_id host = Some cfg ->
        world (trace st) (EvConnect (next_session st) cfg) = Resolved resp ->
        In (next_session st)
           (open_sessions (runPlan world randomDigits dumpStamp backupStamp
                             resolve gray hosts agentId plan st).1)).
Proof.
  unfold runPlan.
  match goal with
  | |- context [execute ?w ?r ?d ?b ?rs ?g ?h ?a ?p ?s] =>
      destruct (execute w r d b rs g h a p s) as [st1 [e1|u]] eqn:E
  end; cbn [fst snd rr_error]; split.
  - discriminate.
  - intros e host hooks strategy clone a cfg resp _ Hp Ha Hc Hw.
    exact (execute_leaks world randomDigits dumpStamp backupStamp resolve
             gray hosts agentId plan host hooks strategy clone a cfg resp
             {| next_session := next_session st;
                open_sessions := open_sessions st;
                trace := trace st; log := [] |}
             st1 e1 Hp Ha Hc Hw E).
  - intros _.
    exact (execute_restores world randomDigits dumpStamp backupStamp resolve
             gray (open_sessions st) hosts agentId plan
             {| next_session := next_session st;
                open_sessions := open_sessions st;
                trace := trace st; log := [] |}
             st1 (inr u) eq_refl E).
  - discriminate.
Qed.

Lemma C4_sessions_closed_on_normal_return_witness :
  open_sessions (runPlan allOk "123" "2023-11-14T22:13:20.000Z"
                   "2023-11-14T22:13:21.000Z" (resolveIn "/opt/agent") plain
                   fanout_hosts "A" fanout_plan initial).1
  = open_sessions initial.
Proof.
  apply (proj1 (C4_sessions_closed_on_normal_return allOk "123"
                  "2023-11-14T22:13:20.000Z" "2023-11-14T22:13:21.000Z"
                  (resolveIn "/opt/agent") plain fanout_hosts "A"
                  fanout_plan initial)).
  vm_compute. reflexivity.
Defined.

(** C4 fails as stated: [tar] fails on the source host, the coordinator
    catches and records the error, and the client that [ready()] connected
    is never disposed of. *)
Lemma C4_counterexample :
  tarFails [] (EvConnect 0 (cfg "backup" "B")) = ok
  /\ rr_error (runPlan tarFails "123" "2023-11-14T22:13:20.000Z"
                 "2023-11-14T22:13:21.000Z" (resolveIn "/opt/agent") plain
                 sourceDown_hosts "A" (retain_plan None) initial).2
     = Some "tar: /etc: Cannot open"
  /\ trace (runPlan tarFails "123" "2023-11-14T22:13:20.000Z"
              "2023-11-14T22:13:21.000Z" (resolveIn "/opt/agent") plain
              sourceDown_hosts "A" (retain_plan None) initial).1
     = [EvConnect 0 (cfg "backup" "B");
        EvExec 0 "tar" ["czvfP"; "/tmp/backup123.tar.gz"; "/etc"]]
  /\ open_sessions (runPlan tarFails "123" "2023-11-14T22:13:20.000Z"
                      "2023-11-14T22:13:21.000Z" (resolveIn "/opt/agent")
                      plain sourceDown_hosts "A" (retain_plan None) initial).1
     = [0%nat].
Proof. repeat split; vm_compute; reflexivity. Qed.

(** *** The archive build *)

Section Build.
Variable world : list Event -> Event -> Outcome.
Variables randomDigits dumpStamp : string.

(** C5, as the code has it: with [hooks.pre] set, the first call of
    [SSHExecutor.execute] is the hook command in the hook's directory.  If
    that call rejects, [execute] throws the error and nothing else is run.
    If it resolves, with whatever exit status, [execute] goes on exactly as
    a plan without pre-hook does: the status is not looked at. *)
Theorem C5_pre_hook_first_status_ignored ex hooks strategy hk st :
  preHook hooks = Some hk ->
  (forall e,
     world (trace st) (EvExecCommand (ssh_client ex) (cmd hk) (cwd hk))
       = Rejected e ->
     SSHExecutor_execute world randomDigits dumpStamp ex hooks strategy st
     = (record (EvExecCommand (ssh_client ex) (cmd hk) (cwd hk)) st, inl e))
  /\ (forall resp,
        world (trace st) (EvExecCommand (ssh_client ex) (cmd hk) (cwd hk))
          = Resolved resp ->
        SSHExecutor_execute world randomDigits dumpStamp ex hooks strategy st
        = SSHExecutor_execute world randomDigits dumpStamp ex
            (withoutPre hooks) strategy
            (record (EvExecCommand (ssh_client ex) (cmd hk) (cwd hk)) st)).
Proof.
  intros Hpre. split.
  - intros e Hw. unfold SSHExecutor_execute. cbv zeta. rewrite Hpre.
    unfold mbind at 1. unfold M_bind at 1. cbn [runHook].
    unfold mbind at 1. unfold M_bind at 1. unfold call at 1.
    rewrite Hw. reflexivity.
  - intros resp Hw. unfold SSHExecutor_execute. cbv zeta. rewrite Hpre.
    unfold mbind at 1. unfold M_bind at 1. cbn [runHook].
    unfold mbind at 1. unfold M_bind at 1. unfold call at 1.
    rewrite Hw. reflexivity.
Qed.

End Build.

Lemma C5_pre_hook_first_status_ignored_witness :
  SSHExecutor_execute hookExits1 "123" "2023-11-14T22:13:20.000Z" executor0
    (Some stopService) (Files ["/etc"]) initial
  = SSHExecutor_execute hookExits1 "123" "2023-11-14T22:13:20.000Z" executor0
      (withoutPre (Some stopService)) (Files ["/etc"])
      (record (EvExecCommand 0 "systemctl stop app" "/srv") initial).
Proof.
  apply (proj2 (C5_pre_hook_first_status_ignored hookExits1 "123"
                  "2023-11-14T22:13:20.000Z" executor0 (Some stopService)
                  (Files ["/etc"])
                  {| cwd := "/srv"; cmd := "systemctl stop app" |}
                  initial eq_refl)
               {| stdout := ""; stderr := "stop failed"; code := Some 1 |}).
  reflexivity.
Defined.

(** C5 fails as stated: the pre-hook command exits with status 1, and
    [execute] returns the archive path. *)
Lemma C5_counterexample :
  code <$> (match hookExits1 [] (EvExecCommand 0 "systemctl stop app" "/srv")
            with Resolved r => Some r | Rejected _ => None end)
    = Some (Some 1)
  /\ (SSHExecutor_execute hookExits1 "123" "2023-11-14T22:13:20.000Z"
        executor0 (Some stopService) (Files ["/etc"]) initial).2
     = inr "/tmp/backup123.tar.gz".
Proof. split; vm_compute; reflexivity. Qed.

Section Archive.
Variable world : list Event -> Event -> Outcome.
Variables randomDigits dumpStamp : string.

(** Runs a computation of [SSHExecutor.execute] symbolically. *)
Local Ltac run E :=
  unfold SSHExecutor_execute, SSHExecutor_execute_earlier, mongodump,
    try_catch, exec, runHook, hookEvents in *;
  unfold mbind, M_bind, call, mret, M_ret, mthrow, M_throw in E;
  repeat match type of E with
         | context [match ?o with Some _ => _ | None => _ end] =>
             destruct o
         | context [world ?t ?e] => destruct (world t e)
         | context [if includes ?n ?s then _ else _] => destruct (includes n s)
         end;
  try discriminate E;
  injection E as <- <-; unfold record; cbn [trace];
  rewrite <- ?app_assoc; split; reflexivity.

(** C9: on a normal return [execute] gives the path of [tmp()], and between
    the hooks it has made exactly these calls: for [files], [tar czvfP] on
    the archive and the blueprint's paths; for [mongodb], [mongodump], then
    [tar cvfP] on the archive and the dump directory, then [rm -r] on the
    dump directory.  Only the first flag string has [z]; both have [P]. *)
Theorem C9_tar_flags ex hooks st st' p :
  (forall paths,
     SSHExecutor_execute world randomDigits dumpStamp ex hooks (Files paths) st
       = (st', inr p) ->
     p = tmp randomDigits
     /\ trace st'
        = (trace st ++ hookEvents (ssh_client ex) (preHook hooks)
          ++ [EvExec (ssh_client ex) "tar"
                     ("czvfP" :: tmp randomDigits :: paths)]
          ++ hookEvents (ssh_client ex) (postHook hooks))%list)
  /\ (forall connectionUrl,
        SSHExecutor_execute world randomDigits dumpStamp ex hooks
          (Mongodb connectionUrl) st = (st', inr p) ->
        p = tmp randomDigits
        /\ trace st'
           = (trace st ++ hookEvents (ssh_client ex) (preHook hooks)
             ++ [EvExec (ssh_client ex) "mongodump"
                   ["-o"; ("/tmp/mongodump_" ++ dumpStamp)%string;
                    connectionUrl];
                 EvExec (ssh_client ex) "tar"
                   ["cvfP"; tmp randomDigits;
                    ("/tmp/mongodump_" ++ dumpStamp)%string];
                 EvExec (ssh_client ex) "rm"
                   ["-r"; ("/tmp/mongodump_" ++ dumpStamp)%string]]
             ++ hookEvents (ssh_client ex) (postHook hooks))%list)
  /\ includes "z" "czvfP" = true /\ includes "z" "cvfP" = false
  /\ includes "P" "czvfP" = true /\ includes "P" "cvfP" = true.
Proof.
  refine (conj _ (conj _ _)).
  - intros paths E. run E.
  - intros connectionUrl E. run E.
  - repeat split; reflexivity.
Qed.

(** The earlier revision of the class passes [czvfP] for [mongodb] too. *)
Lemma earlier_revision_gzips_dump ex hooks st st' p connectionUrl :
  SSHExecutor_execute_earlier world randomDigits dumpStamp ex hooks
    (Mongodb connectionUrl) st = (st', inr p) ->
  p = tmp randomDigits
  /\ trace st'
     = (trace st ++ hookEvents (ssh_client ex) (preHook hooks)
       ++ [EvExec (ssh_client ex) "mongodump"
             ["-o"; ("/tmp/mongodump_" ++ dumpStamp)%string; connectionUrl];
           EvExec (ssh_client ex) "tar"
             ["czvfP"; tmp randomDigits;
              ("/tmp/mongodump_" ++ dumpStamp)%string];
           EvExec (ssh_client ex) "rm"
             ["-r"; ("/tmp/mongodump_" ++ dumpStamp)%string]]
       ++ hookEvents (ssh_client ex) (postHook hooks))%list.
Proof. intros E. run E. Qed.

End Archive.

Lemma C9_tar_flags_witness :
  trace (SSHExecutor_execute allOk "123" "2023-11-14T22:13:20.000Z" executor0
           None (Mongodb "mongodb://db/app") initial).1
  = [EvExec 0 "mongodump"
       ["-o"; "/tmp/mongodump_2023-11-14T22:13:20.000Z"; "mongodb://db/app"];
     EvExec 0 "tar"
       ["cvfP"; "/tmp/backup123.tar.gz";
        "/tmp/mongodump_2023-11-14T22:13:20.000Z"];
     EvExec 0 "rm" ["-r"; "/tmp/mongodump_2023-11-14T22:13:20.000Z"]].
Proof.
  apply (proj1 (proj2 (C9_tar_flags allOk "123" "2023-11-14T22:13:20.000Z"
                         executor0 None initial
                         (SSHExecutor_execute allOk "123"
                            "2023-11-14T22:13:20.000Z" executor0 None
                            (Mongodb "mongodb://db/app") initial).1
                         "/tmp/backup123.tar.gz"))
               "mongodb://db/app").
  vm_compute. reflexivity.
Defined.

(** *** The local copy *)

Lemma rmWithin_log tr0 allowed st s :
  rmWithin tr0 allowed st ->
  rmWithin tr0 allowed
    {| next_session := next_session st; open_sessions := open_sessions st;
       trace := trace st; log := log st ++ [s] |}.
Proof. auto. Qed.

Lemma rmWithin_record tr0 allowed ev st :
  notRm ev -> rmWithin tr0 allowed st -> rmWithin tr0 allowed (record ev st).
Proof.
  intros Hev H f Hin. cbn in Hin. apply in_app_or in Hin as [Hin|[->|[]]].
  - exact (H f Hin).
  - destruct Hev.
Qed.

Lemma rmWithin_create tr0 allowed config :
  triple (rmWithin tr0 allowed) (createSSHExecutor config)
    (fun r st => match r with
                 | inr ex => True /\ rmWithin tr0 allowed st
                 | inl _ => rmWithin tr0 allowed st
                 end).
Proof. intros st st' r H E. injection E as <- <-. split; [exact I|exact H]. Qed.

Lemma rmWithin_ready world tr0 allowed ex :
  keeps (rmWithin tr0 allowed) (ready world ex).
Proof.
  intros st st' r H E. unfold ready in E.
  destruct (config ex) as [c|].
  - unfold mbind, M_bind, call, markOpen in E.
    destruct (world (trace st) _); injection E as <- <-;
      exact (rmWithin_record tr0 allowed (EvConnect (ssh_client ex) c) st
               I H).
  - injection E as <- <-. exact H.
Qed.

Lemma rmWithin_finish tr0 allowed ex :
  True -> keeps (rmWithin tr0 allowed) (finish ex).
Proof.
  intros _ st st' r H E. injection E as <- <-.
  exact (rmWithin_record tr0 allowed (EvDispose (ssh_client ex)) st I H).
Qed.

Lemma rmWithin_rm world tr0 (allowed : string -> Prop) f :
  allowed f -> keeps (rmWithin tr0 allowed) (rm world f).
Proof.
  intros Hf st st' r H E. unfold rm, mbind, M_bind, call in E.
  assert (rmWithin tr0 allowed (record (EvRm f) st)) as H'.
  { intros g Hin. cbn in Hin. apply in_app_or in Hin as [Hin|[Eg|[]]].
    - exact (H g Hin).
    - injection Eg as <-. right. exact Hf. }
  destruct (world (trace st) _); injection E as <- <-; exact H'.
Qed.

Lemma recorded_log ev st s :
  recorded ev st ->
  recorded ev
    {| next_session := next_session st; open_sessions := open_sessions st;
       trace := trace st; log := log st ++ [s] |}.
Proof. auto. Qed.

Lemma recorded_record ev ev' st :
  recorded ev st -> recorded ev (record ev' st).
Proof. intros H. apply in_or_app. left. exact H. Qed.

Lemma recorded_create ev config :
  keeps (recorded ev) (createSSHExecutor config).
Proof. intros st st' r H E. injection E as <- <-. exact H. Qed.

Lemma recorded_ready world ev ex : keeps (recorded ev) (ready world ex).
Proof.
  intros st st' r H E. unfold ready in E.
  destruct (config ex) as [c|].
  - unfold mbind, M_bind, call, markOpen in E.
    destruct (world (trace st) _); injection E as <- <-;
      exact (recorded_record _ _ _ H).
  - injection E as <- <-. exact H.
Qed.

Lemma recorded_finish ev ex : keeps (recorded ev) (finish ex).
Proof.
  intros st st' r H E. injection E as <- <-. exact (recorded_record _ _ _ H).
Qed.

Lemma recorded_rm world ev f : keeps (recorded ev) (rm world f).
Proof.
  intros st st' r H E. unfold rm, mbind, M_bind, call in E.
  destruct (world (trace st) _); injection E as <- <-;
    exact (recorded_record _ _ _ H).
Qed.

Lemma triple_pure {A} (fact : Prop) (m : M A) Q :
  (fact -> triple (fun _ => True) m Q) -> triple (fun _ => fact) m Q.
Proof. intros H st st' r Hf E. exact (H Hf st st' r I E). Qed.

Lemma triple_onReturn_True {A} (P : State -> Prop) (m : M A) :
  triple P m (onReturn (fun _ => True)).
Proof. intros st st' [e|a] _ _; exact I. Qed.

Section LocalCopy.
Variable world : list Event -> Event -> Outcome.
Variables randomDigits dumpStamp backupStamp : string.
Variables resolve gray : string -> string.

Lemma execute_rmWithin tr0 (allowed : string -> Prop) hosts agentId plan
    host hooks strategy clone :
  p_mode plan = PSshAgent host hooks strategy clone ->
  (downloadLocally clone = DownloadBool true ->
   allowed (localFileOf resolve backupStamp (p_id plan))) ->
  keeps (rmWithin tr0 allowed)
    (execute world randomDigits dumpStamp backupStamp resolve gray
       hosts agentId plan).
Proof.
  intros Hp Hal. unfold execute. rewrite Hp.
  apply keeps_bind; [apply keeps_emit, rmWithin_log|]. intros _.
  apply keeps_bind; [apply keeps_member|]. intros a.
  apply (keeps_session (rmWithin tr0 allowed) (fun _ => True));
    [apply rmWithin_create|].
  intros ex _.
  apply keeps_bind; [apply rmWithin_ready|]. intros _.
  apply keeps_bind.
  { apply (keeps_transfer world randomDigits dumpStamp backupStamp resolve
             gray (rmWithin tr0 allowed) (rmWithin_log tr0 allowed)
             (rmWithin_record tr0 allowed) (fun _ => True) allowed).
    - apply rmWithin_create.
    - apply rmWithin_ready.
    - apply rmWithin_finish.
    - apply rmWithin_rm.
    - exact Hal. }
  intros _.
  apply keeps_bind; [apply rmWithin_finish; exact I|]. intros _.
  apply keeps_emit, rmWithin_log.
Qed.

(** [SSHExecutor.execute] returns the path of [tmp()]. *)
Lemma SSHExecutor_execute_path (P : State -> Prop) ex hooks strategy :
  triple P (SSHExecutor_execute world randomDigits dumpStamp ex hooks strategy)
    (fun r _ => match r with inr p => p = tmp randomDigits | inl _ => True end).
Proof.
  intros st st' r _ E. unfold SSHExecutor_execute in E. cbv zeta in E.
  unfold mbind, M_bind in E.
  repeat match type of E with
         | match ?t with _ => _ end = _ => destruct t as [? [?|?]]
         end;
    injection E as <- <-; exact I || reflexivity.
Qed.

Lemma transfer_records hosts agentId planId host hooks strategy clone ex :
  truthyDownload (downloadLocally clone) = true ->
  triple (fun _ => True)
    (transfer world randomDigits dumpStamp backupStamp resolve gray
       hosts agentId planId host hooks strategy clone ex)
    (onReturn (recorded (EvGetFile (ssh_client ex) (localFileOf resolve backupStamp planId)
                                   (tmp randomDigits)))).
Proof.
  intros Ht. unfold transfer. cbv zeta. rewrite Ht.
  set (ev := EvGetFile (ssh_client ex) (localFileOf resolve backupStamp planId) (tmp randomDigits)).
  apply (triple_seq _ (fun _ => True)); [apply triple_onReturn_True|].
  intros _.
  apply (triple_bind _ _
           (fun r _ => match r with
                       | inr p => p = tmp randomDigits
                       | inl _ => True
                       end));
    [apply SSHExecutor_execute_path| |intros; exact I].
  intros pkgFn. apply triple_pure. intros ->.
  apply (triple_seq _ (fun _ => True)); [apply triple_onReturn_True|].
  intros _.
  apply (triple_seq _ (fun _ => True)); [apply triple_onReturn_True|].
  intros _.
  apply (triple_seq _ (recorded ev)).
  - unfold downloadAndRedirect. cbv zeta.
    apply (triple_seq _ (fun _ => True)); [apply triple_onReturn_True|].
    intros _.
    apply (triple_seq _ (recorded ev)).
    + intros st0 st1 r0 _ E. unfold download, mbind, M_bind, call in E.
      destruct (world (trace st0) _); injection E as <- <-; [|exact I].
      apply in_or_app. right. left. reflexivity.
    + intros _. apply keeps_restores. apply keeps_bind.
      * apply keeps_for_of. intros d.
        apply keeps_bind; [apply keeps_emit, recorded_log|]. intros _.
        apply keeps_bind; [apply keeps_member|]. intros a.
        apply keeps_bind; [apply recorded_create|]. intros ux.
        apply keeps_bind; [apply recorded_ready|]. intros _.
        apply keeps_bind;
          [apply keeps_upload; intros; apply recorded_record; assumption|].
        intros _. apply recorded_finish.
      * intros _. destruct (downloadLocally clone); [apply keeps_ret|].
        apply keeps_bind; [apply keeps_emit, recorded_log|]. intros _.
        apply recorded_rm.
  - intros _. apply keeps_restores. destruct (retainOnHost clone).
    + apply keeps_bind; [apply keeps_emit, recorded_log|]. intros _.
      apply keeps_exec. intros; apply recorded_record; assumption.
    + apply keeps_bind; [apply keeps_emit, recorded_log|]. intros _.
      apply keeps_exec. intros; apply recorded_record; assumption.
Qed.

Lemma execute_records n hosts agentId plan host hooks strategy clone :
  p_mode plan = PSshAgent host hooks strategy clone ->
  truthyDownload (downloadLocally clone) = true ->
  triple (fun st => next_session st = n)
    (execute world randomDigits dumpStamp backupStamp resolve gray
       hosts agentId plan)
    (onReturn (recorded (EvGetFile n
                           (localFileOf resolve backupStamp (p_id plan))
                           (tmp randomDigits)))).
Proof.
  intros Hp Ht. unfold execute. rewrite Hp.
  apply (triple_seq _ (fun st => next_session st = n)).
  { apply keeps_restores, keeps_emit. auto. }
  intros _.
  apply (triple_seq _ (fun st => next_session st = n)).
  { apply keeps_restores, keeps_member. }
  intros a.
  apply (triple_bind _ _
           (fun r _ => match r with
                       | inr ex => ssh_client ex = n
                       | inl _ => True
                       end)).
  { intros st st' r Hn E. injection E as <- <-. exact Hn. }
  2: { intros; exact I. }
  intros ex. apply triple_pure. intros <-.
  apply (triple_seq _ (fun _ => True)); [apply triple_onReturn_True|].
  intros _.
  apply (triple_seq _ (recorded (EvGetFile (ssh_client ex)
                                   (localFileOf resolve backupStamp (p_id plan))
                                   (tmp randomDigits)))).
  { apply transfer_records, Ht. }
  intros _. apply keeps_restores.
  apply keeps_bind; [apply recorded_finish|]. intros _.
  apply keeps_emit, recorded_log.
Qed.

(** C10: a plan whose [downloadLocally] is [{ path }] is executed the same
    way whatever the path is; on a normal return the archive has been
    fetched to [resolve("./backups/<backupName>")]; and a local file is
    removed by [execute] only when [downloadLocally] is [true], and then it
    is that file. *)
Theorem C10_local_copy_kept_at_fixed_place hosts agentId plan :
  (forall path path' st,
     execute world randomDigits dumpStamp backupStamp resolve gray
             hosts agentId (withDownload (DownloadAt path) plan) st
     = execute world randomDigits dumpStamp backupStamp resolve gray
               hosts agentId (withDownload (DownloadAt path') plan) st)
  /\ (forall host hooks strategy clone path st st' u,
        p_mode plan = PSshAgent host hooks strategy clone ->
        downloadLocally clone = DownloadAt path ->
        execute world randomDigits dumpStamp backupStamp resolve gray
                hosts agentId plan st = (st', inr u) ->
        In (EvGetFile (next_session st)
                      (localFileOf resolve backupStamp (p_id plan))
                      (tmp randomDigits))
           (trace st'))
  /\ (forall host hooks strategy clone st st' r f,
        p_mode plan = PSshAgent host hooks strategy clone ->
        execute world randomDigits dumpStamp backupStamp resolve gray
                hosts agentId plan st = (st', r) ->
        In (EvRm f) (trace st') ->
        In (EvRm f) (trace st)
        \/ (downloadLocally clone = DownloadBool true
            /\ f = localFileOf resolve backupStamp (p_id plan))).
Proof.
  refine (conj _ (conj _ _)).
  - intros path path' st. unfold withDownload.
    destruct (p_mode plan); reflexivity.
  - intros host hooks strategy clone path st st' u Hp Hd E.
    refine (execute_records (next_session st) hosts agentId plan host hooks
              strategy clone Hp _ st st' (inr u) eq_refl E).
    rewrite Hd. reflexivity.
  - intros host hooks strategy clone st st' r f Hp E Hin.
    destruct (downloadLocally clone) as [path|[|]] eqn:Hd.
    + left.
      destruct (execute_rmWithin (trace st) (fun _ => False) hosts agentId
                  plan host hooks strategy clone Hp
                  ltac:(rewrite Hd; discriminate) st st' r
                  ltac:(intros g Hg; left; exact Hg) E f Hin) as [H|[]].
      exact H.
    + destruct (execute_rmWithin (trace st)
                  (fun g => g = localFileOf resolve backupStamp (p_id plan))
                  hosts agentId plan host hooks strategy clone Hp
                  ltac:(intros _; reflexivity) st st' r
                  ltac:(intros g Hg; left; exact Hg) E f Hin) as [H|H].
      * left. exact H.
      * right. split; [reflexivity|exact H].
    + left.
      destruct (execute_rmWithin (trace st) (fun _ => False) hosts agentId
                  plan host hooks strategy clone Hp
                  ltac:(rewrite Hd; discriminate) st st' r
                  ltac:(intros g Hg; left; exact Hg) E f Hin) as [H|[]].
      exact H.
Qed.

End LocalCopy.

Lemma C10_local_copy_kept_at_fixed_place_witness :
  In (EvGetFile 0 "/opt/agent/./backups/etc-daily_2023-11-14T22:13:21.000Z.tar.gz"
                "/tmp/backup123.tar.gz")
     (trace (execute allOk "123" "2023-11-14T22:13:20.000Z"
               "2023-11-14T22:13:21.000Z" (resolveIn "/opt/agent") plain
               fanout_hosts "A" fanout_plan initial).1).
Proof.
  apply (proj1 (proj2 (C10_local_copy_kept_at_fixed_place allOk "123"
                         "2023-11-14T22:13:20.000Z" "2023-11-14T22:13:21.000Z"
                         (resolveIn "/opt/agent") plain fanout_hosts "A"
                         fanout_plan))
               fanout_B None (Files ["/etc"]) fanout_clone "/local/" initial
               _ tt eq_refl eq_refl).
  vm_compute. reflexivity.
Defined.

End ExecFacts.

(** ** More on the planner *)

Module PlannerMore.
Import Planner Fixtures PlannerFacts.

(** What an ssh-agent plan tells about the blueprint and the catalog. *)
Lemma createPlan_sshAgent_full tz now hosts b latestRun agentId (h : Heap)
    host hooks strategy clone :
  p_mode (createPlan tz now hosts b latestRun agentId h).1
    = PSshAgent host hooks strategy clone ->
  exists bhost dests agentH,
    b_mode b = BSshAgent bhost hooks strategy dests
    /\ hosts !! bhost = Some host
    /\ truthyAvailable (available host) = true
    /\ hosts !! agentId = Some agentH
    /\ defined (ssh agentH !! bhost) = true
    /\ noDestinations (buildClone hosts agentId host bhost dests) = false
    /\ clone = forceDownload (buildClone hosts agentId host bhost dests).
Proof.
  intros H.
  destruct (createPlan_cases tz now hosts b latestRun agentId h) as [E|E];
    [rewrite E in H; discriminate|].
  rewrite E in H.
  destruct (dispatch_sshAgent _ _ _ _ _ _ _ H) as (bhost & dests & Hb & Hp).
  destruct (planSshAgent_inr _ _ _ _ _ _ _ Hp)
    as (h0 & a0 & Hh & Ha & Hg & Hs & Hn & Hm).
  injection Hm as -> ->.
  exists bhost, dests, a0. repeat split; auto.
Qed.

Lemma createPlan_id tz now hosts b latestRun agentId (h : Heap) :
  p_id (createPlan tz now hosts b latestRun agentId h).1 = b_id b.
Proof.
  assert (p_id (dispatch hosts b agentId) = b_id b) as Hd.
  { unfold dispatch. destruct (b_mode b); [|reflexivity].
    destruct (planSshAgent _ _ _ _ _ _); reflexivity. }
  unfold createPlan. destruct latestRun as [r|]; [|exact Hd].
  destruct (h !! r); [|exact Hd].
  destruct (now <? _); [reflexivity|exact Hd].
Qed.



(** In an ssh-agent plan, a non-empty [redirectCloneTo] comes with a truthy
    [downloadLocally]. *)
Theorem redirect_forces_download tz now hosts b latestRun agentId (h : Heap)
    host hooks strategy clone :
  p_mode (createPlan tz now hosts b latestRun agentId h).1
    = PSshAgent host hooks strategy clone ->
  redirectCloneTo clone <> [] ->
  truthyDownload (downloadLocally clone) = true.
Proof.
  intros H Hne.
  destruct (createPlan_sshAgent_full _ _ _ _ _ _ _ _ _ _ _ H)
    as (bhost & dests & agentH & _ & _ & _ & _ & _ & _ & ->).
  revert Hne. unfold forceDownload.
  set (c := buildClone hosts agentId host bhost dests).
  destruct (nonEmpty (redirectCloneTo c)) eqn:En;
    destruct (truthyDownload (downloadLocally c)) eqn:Et;
    cbn [andb negb]; intros Hne; try assumption; try reflexivity.
  destruct (redirectCloneTo c); [congruence|discriminate En].
Qed.

Lemma redirect_forces_download_witness :
  truthyDownload (downloadLocally redirect_clone) = true.
Proof.
  apply (redirect_forces_download JSDate.utcZone t_now redirect_hosts
           redirect_blueprint None "A" ∅ redirect_B None
           (Mongodb "mongodb://db/app") redirect_clone).
  - vm_compute. reflexivity.
  - discriminate.
Defined.

Lemma keepDestination_true_iff hosts agentId host d :
  keepDestination hosts agentId host d = true
  <-> dest_host d <> agentId /\ dest_host d <> h_id host
      /\ exists dh, hosts !! dest_host d = Some dh
                    /\ available dh <> Some Unreachable.
Proof.
  unfold keepDestination.
  destruct (String.eqb_spec (dest_host d) agentId) as [E1|E1]; cbn [orb].
  { split; [discriminate|]. intros [H _]. contradiction. }
  destruct (String.eqb_spec (dest_host d) (h_id host)) as [E2|E2].
  { split; [discriminate|]. intros (_ & H & _). contradiction. }
  destruct (hosts !! dest_host d) as [dh|].
  - split.
    + intros H. repeat split; auto. exists dh. split; [reflexivity|].
      intros Eu. rewrite Eu in H. discriminate H.
    + intros (_ & _ & dh' & Hd & Hu). injection Hd as <-.
      destruct (available dh) as [[| |]|]; try reflexivity. congruence.
  - split; [discriminate|]. intros (_ & _ & dh & Hd & _). discriminate.
Qed.

(** Each destination is direct, redirected or pulled, and only one of them. *)
Lemma one_bucket hosts host d :
  (isDirect host d = true /\ isRedirect hosts host d = false
   /\ isReceive hosts host d = false)
  \/ (isDirect host d = false /\ isRedirect hosts host d = true
      /\ isReceive hosts host d = false)
  \/ (isDirect host d = false /\ isRedirect hosts host d = false
      /\ isReceive hosts host d = true).
Proof.
  unfold isDirect, isRedirect, isReceive.
  destruct (defined (ssh host !! dest_host d)); cbn; [auto|].
  destruct (defined (backLink hosts host d)); cbn; auto.
Qed.

Lemma three_filters_length hosts host (l : list Destination) :
  (length (List.filter (isDirect host) l)
   + length (List.filter (isRedirect hosts host) l)
   + length (List.filter (isReceive hosts host) l))%nat = length l.
Proof.
  induction l as [|d l IH]; [reflexivity|]. cbn [List.filter].
  destruct (one_bucket hosts host d)
    as [(-> & -> & ->)|[(-> & -> & ->)|(-> & -> & ->)]];
    cbn [length]; lia.
Qed.

(** Where no name used as a key is the name of a property of
    [Object.prototype]: the three buckets of an ssh-agent plan hold exactly
    the destinations of the blueprint that name neither the agent nor the
    source host and whose host is in the catalog and not marked
    [unreachable]; counted with repetitions, each such destination is in
    one bucket. *)
Theorem buckets_cover_surviving_destinations tz now hosts b latestRun agentId
    (h : Heap) host hooks strategy clone bhost hooks' strategy' dests :
  ownNames hosts agentId b = true ->
  p_mode (createPlan tz now hosts b latestRun agentId h).1
    = PSshAgent host hooks strategy clone ->
  b_mode b = BSshAgent bhost hooks' strategy' dests ->
  (forall d,
     In d (directlyCloneTo clone) \/ In d (redirectCloneTo clone)
     \/ In d (receiveCloneFrom clone)
     <-> In d dests /\ dest_host d <> agentId /\ dest_host d <> h_id host
         /\ exists dh, hosts !! dest_host d = Some dh
                       /\ available dh <> Some Unreachable)
  /\ (length (directlyCloneTo clone) + length (redirectCloneTo clone)
      + length (receiveCloneFrom clone))%nat
     = length (List.filter (keepDestination hosts agentId host) dests).
Proof.
  intros _ H Hb.
  destruct (createPlan_sshAgent_full _ _ _ _ _ _ _ _ _ _ _ H)
    as (bhost0 & dests0 & agentH & Hb0 & _ & _ & _ & _ & _ & ->).
  rewrite Hb in Hb0. injection Hb0 as <- _ _ <-.
  destruct (forceDownload_buckets (buildClone hosts agentId host bhost dests))
    as (-> & -> & -> & _).
  cbn [buildClone directlyCloneTo redirectCloneTo receiveCloneFrom].
  split; [|apply three_filters_length].
  intros d. rewrite <- keepDestination_true_iff, !filter_In.
  destruct (one_bucket hosts host d)
    as [(-> & -> & ->)|[(-> & -> & ->)|(-> & -> & ->)]]; intuition congruence.
Qed.

Lemma buckets_cover_surviving_destinations_witness :
  (forall d,
     In d (directlyCloneTo fanout_clone) \/ In d (redirectCloneTo fanout_clone)
     \/ In d (receiveCloneFrom fanout_clone)
     <-> In d fanout_destinations /\ dest_host d <> "A"
         /\ dest_host d <> h_id fanout_B
         /\ exists dh, fanout_hosts !! dest_host d = Some dh
                       /\ available dh <> Some Unreachable)
  /\ (length (directlyCloneTo fanout_clone)
      + length (redirectCloneTo fanout_clone)
      + length (receiveCloneFrom fanout_clone))%nat
     = length (List.filter (keepDestination fanout_hosts "A" fanout_B)
                           fanout_destinations).
Proof.
  apply (buckets_cover_surviving_destinations JSDate.utcZone t_now
           fanout_hosts fanout_blueprint None "A" ∅ fanout_B None
           (Files ["/etc"]) fanout_clone "B" None (Files ["/etc"])
           fanout_destinations).
  - vm_compute. reflexivity.
  - vm_compute. reflexivity.
  - reflexivity.
Defined.

Lemma find_first {A} (p : A -> bool) (l : list A) (d : A) :
  List.find p l = Some d ->
  exists pre post, l = (pre ++ d :: post)%list /\ p d = true
                   /\ forall x, In x pre -> p x = false.
Proof.
  induction l as [|x l IH]; cbn [List.find]; [discriminate|].
  destruct (p x) eqn:Ex.
  - intros E. injection E as <-. exists [], l.
    repeat split; auto. intros y [].
  - intros E. destruct (IH E) as (pre & post & -> & Hd & Hpre).
    exists (x :: pre), post. repeat split; auto.
    intros y [<-|Hy]; auto.
Qed.

Lemma find_none_all {A} (p : A -> bool) (l : list A) :
  List.find p l = None -> forall x, In x l -> p x = false.
Proof. apply find_none. Qed.

(** The archive is retained on the source host at the path of the first
    destination that names the blueprint's host, and in no other case; it
    is kept on the agent at the path of the first destination that names
    the agent; without such a destination [downloadLocally] is a boolean,
    [true] exactly when [redirectCloneTo] is not empty. *)
Theorem retention_from_first_naming_destination tz now hosts b latestRun
    agentId (h : Heap) host hooks strategy clone bhost hooks' strategy' dests :
  p_mode (createPlan tz now hosts b latestRun agentId h).1
    = PSshAgent host hooks strategy clone ->
  b_mode b = BSshAgent bhost hooks' strategy' dests ->
  match retainOnHost clone with
  | RetainAt p =>
      exists pre d post,
        dests = (pre ++ d :: post)%list /\ dest_host d = bhost
        /\ dest_path d = p /\ forall x, In x pre -> dest_host x <> bhost
  | RetainFalse => forall x, In x dests -> dest_host x <> bhost
  end
  /\ match downloadLocally clone with
     | DownloadAt p =>
         exists pre d post,
           dests = (pre ++ d :: post)%list /\ dest_host d = agentId
           /\ dest_path d = p /\ forall x, In x pre -> dest_host x <> agentId
     | DownloadBool bl =>
         (forall x, In x dests -> dest_host x <> agentId)
         /\ bl = nonEmpty (redirectCloneTo clone)
     end.
Proof.
  intros H Hb.
  destruct (createPlan_sshAgent_full _ _ _ _ _ _ _ _ _ _ _ H)
    as (bhost0 & dests0 & agentH & Hb0 & _ & _ & _ & _ & _ & ->).
  rewrite Hb in Hb0. injection Hb0 as <- _ _ <-.
  set (c := buildClone hosts agentId host bhost dests).
  assert (match retainOnHost c with
          | RetainAt p =>
              exists pre d post,
                dests = (pre ++ d :: post)%list /\ dest_host d = bhost
                /\ dest_path d = p
                /\ forall x, In x pre -> dest_host x <> bhost
          | RetainFalse => forall x, In x dests -> dest_host x <> bhost
          end) as Hr.
  { cbn.
    destruct (List.find (fun d => String.eqb (dest_host d) bhost) dests)
      as [d|] eqn:Ef.
    - destruct (find_first _ _ _ Ef) as (pre & post & -> & Hd & Hpre).
      exists pre, d, post. repeat split; auto.
      + apply String.eqb_eq, Hd.
      + intros x Hx. apply String.eqb_neq, Hpre, Hx.
    - intros x Hx. apply String.eqb_neq. exact (find_none_all _ _ Ef x Hx). }
  assert (match downloadLocally c with
          | DownloadAt p =>
              exists pre d post,
                dests = (pre ++ d :: post)%list /\ dest_host d = agentId
                /\ dest_path d = p
                /\ forall x, In x pre -> dest_host x <> agentId
          | DownloadBool bl =>
              (forall x, In x dests -> dest_host x <> agentId) /\ bl = false
          end) as Hd.
  { cbn.
    destruct (List.find (fun d => String.eqb (dest_host d) agentId) dests)
      as [d|] eqn:Ef.
    - destruct (find_first _ _ _ Ef) as (pre & post & -> & Hd & Hpre).
      exists pre, d, post. repeat split; auto.
      + apply String.eqb_eq, Hd.
      + intros x Hx. apply String.eqb_neq, Hpre, Hx.
    - split; [|reflexivity].
      intros x Hx. apply String.eqb_neq. exact (find_none_all _ _ Ef x Hx). }
  unfold forceDownload.
  destruct (nonEmpty (redirectCloneTo c)) eqn:En;
    destruct (downloadLocally c) as [p|[|]] eqn:Edl;
    cbn [andb negb truthyDownload retainOnHost downloadLocally
         redirectCloneTo];
    rewrite ?Edl, ?En; split; try exact Hr; try exact Hd;
    destruct Hd as [Hd1 Hd2]; try discriminate Hd2; split; auto.
Qed.

Lemma retention_from_first_naming_destination_witness :
  match retainOnHost fanout_clone with
  | RetainAt p =>
      exists pre d post,
        fanout_destinations = (pre ++ d :: post)%list /\ dest_host d = "B"
        /\ dest_path d = p /\ forall x, In x pre -> dest_host x <> "B"
  | RetainFalse => forall x, In x fanout_destinations -> dest_host x <> "B"
  end
  /\ match downloadLocally fanout_clone with
     | DownloadAt p =>
         exists pre d post,
           fanout_destinations = (pre ++ d :: post)%list /\ dest_host d = "A"
           /\ dest_path d = p /\ forall x, In x pre -> dest_host x <> "A"
     | DownloadBool bl =>
         (forall x, In x fanout_destinations -> dest_host x <> "A")
         /\ bl = nonEmpty (redirectCloneTo fanout_clone)
     end.
Proof.
  apply (retention_from_first_naming_destination JSDate.utcZone t_now
           fanout_hosts fanout_blueprint None "A" ∅ fanout_B None
           (Files ["/etc"]) fanout_clone "B" None (Files ["/etc"])
           fanout_destinations).
  - vm_compute. reflexivity.
  - reflexivity.
Defined.

Lemma nonEmpty_false {A} (l : list A) : nonEmpty l = false <-> l = [].
Proof. destruct l; split; intros H; congruence || reflexivity || discriminate. Qed.

Lemma noDestinations_iff hosts agentId host bhost dests :
  noDestinations (buildClone hosts agentId host bhost dests) = true
  <-> (forall d, In d dests ->
                 dest_host d <> bhost /\ dest_host d <> agentId)
      /\ directlyCloneTo (buildClone hosts agentId host bhost dests) = []
      /\ redirectCloneTo (buildClone hosts agentId host bhost dests) = [].
Proof.
  unfold noDestinations.
  rewrite !andb_true_iff, !negb_true_iff, !nonEmpty_false.
  cbn [buildClone retainOnHost downloadLocally].
  destruct (List.find (fun d => String.eqb (dest_host d) bhost) dests)
    as [d1|] eqn:E1;
    destruct (List.find (fun d => String.eqb (dest_host d) agentId) dests)
      as [d2|] eqn:E2; cbn [truthyRetain truthyDownload].
  - split; [intros [[_ H] _]; discriminate|]. intros (Hn & _).
    apply find_some in E1 as [Hin Hd]. apply String.eqb_eq in Hd.
    destruct (Hn d1 Hin). contradiction.
  - split; [intros [[_ H] _]; discriminate|]. intros (Hn & _).
    apply find_some in E1 as [Hin Hd]. apply String.eqb_eq in Hd.
    destruct (Hn d1 Hin). contradiction.
  - split; [intros [_ H]; discriminate|]. intros (Hn & _).
    apply find_some in E2 as [Hin Hd]. apply String.eqb_eq in Hd.
    destruct (Hn d2 Hin). contradiction.
  - split.
    + intros [[[Hr Hd] _] _]. repeat split; auto;
        apply String.eqb_neq;
        [exact (find_none_all _ _ E1 d H)|exact (find_none_all _ _ E2 d H)].
    + intros (_ & Hd & Hr). auto.
Qed.

(** For an ssh-agent blueprint with no last run, where no name used as a
    key is the name of a property of [Object.prototype]: [createPlan] never
    skips; it fails exactly when the blueprint's host is not in the
    catalog, or it has no [available] value, or the agent is not in the
    catalog, or the agent has no SSH parameters for the host, or no
    destination names the host or the agent and both [directlyCloneTo] and
    [redirectCloneTo] come out empty. *)
Theorem failed_plan_causes tz now hosts b agentId (h : Heap)
    bhost hooks strategy dests :
  ownNames hosts agentId b = true ->
  b_mode b = BSshAgent bhost hooks strategy dests ->
  p_mode (createPlan tz now hosts b None agentId h).1 <> PSkipped
  /\ (p_mode (createPlan tz now hosts b None agentId h).1 = PFailed
      <-> hosts !! bhost = None
          \/ exists host,
               hosts !! bhost = Some host
               /\ (available host = None
                   \/ hosts !! agentId = None
                   \/ (exists agentH, hosts !! agentId = Some agentH
                                      /\ ssh agentH !! bhost = None)
                   \/ ((forall d, In d dests ->
                          dest_host d <> bhost /\ dest_host d <> agentId)
                       /\ directlyCloneTo
                            (buildClone hosts agentId host bhost dests) = []
                       /\ redirectCloneTo
                            (buildClone hosts agentId host bhost dests) = []))).
Proof.
  intros _ Hb. cbn [createPlan fst]. unfold dispatch. rewrite Hb.
  unfold planSshAgent.
  destruct (hosts !! bhost) as [host|] eqn:Eh.
  2: { cbn. split; [discriminate|]. split; auto. }
  destruct (available host) as [av|] eqn:Ea; cbn [truthyAvailable defined negb].
  2: { cbn. split; [discriminate|]. split; [|reflexivity].
       intros _. right. exists host. auto. }
  destruct (hosts !! agentId) as [agentH|] eqn:Eg.
  2: { cbn. split; [discriminate|]. split; [|reflexivity].
       intros _. right. exists host. auto. }
  destruct (ssh agentH !! bhost) as [config|] eqn:Es; cbn [defined negb].
  2: { cbn. split; [discriminate|]. split; [|reflexivity].
       intros _. right. exists host. split; [reflexivity|].
       right. right. left. exists agentH. auto. }
  pose proof (noDestinations_iff hosts agentId host bhost dests) as Hn.
  destruct (noDestinations (buildClone hosts agentId host bhost dests)).
  - cbn. split; [discriminate|]. split; [|reflexivity].
    intros _. right. exists host. split; [reflexivity|].
    right. right. right. apply Hn. reflexivity.
  - cbn. split; [discriminate|]. split; [discriminate|].
    intros [Hf|(host' & Hh & Hc)]; [discriminate Hf|].
    injection Hh as <-. destruct Hc as [Hf|[Hf|[(a' & Ha' & Hf)|Hf]]].
    + congruence.
    + discriminate Hf.
    + injection Ha' as <-. congruence.
    + apply Hn in Hf. discriminate Hf.
Qed.

Lemma failed_plan_causes_witness :
  p_mode (createPlan JSDate.utcZone t_now receive_hosts receive_blueprint
                     None "A" ∅).1 <> PSkipped
  /\ (p_mode (createPlan JSDate.utcZone t_now receive_hosts receive_blueprint
                         None "A" ∅).1 = PFailed
      <-> receive_hosts !! "B" = None
          \/ exists host,
               receive_hosts !! "B" = Some host
               /\ (available host = None
                   \/ receive_hosts !! "A" = None
                   \/ (exists agentH, receive_hosts !! "A" = Some agentH
                                      /\ ssh agentH !! "B" = None)
                   \/ ((forall d, In d [HostDest "C" "/bk/"] ->
                          dest_host d <> "B" /\ dest_host d <> "A")
                       /\ directlyCloneTo
                            (buildClone receive_hosts "A" host "B"
                                        [HostDest "C" "/bk/"]) = []
                       /\ redirectCloneTo
                            (buildClone receive_hosts "A" host "B"
                                        [HostDest "C" "/bk/"]) = []))).
Proof.
  apply (failed_plan_causes JSDate.utcZone t_now receive_hosts
           receive_blueprint "A" ∅ "B" None (Files ["/etc"])
           [HostDest "C" "/bk/"]).
  - vm_compute. reflexivity.
  - reflexivity.
Defined.



Lemma daysInMonth_range m leap : 28 <= JSDate.daysInMonth m leap <= 31.
Proof.
  unfold JSDate.daysInMonth.
  repeat match goal with
         | |- context [match ?x with _ => _ end] => destruct x
         end; lia.
Qed.

Lemma advance_fixedZone offset tv :
  advance (fixedZone offset) Daily tv = tv + 86400000
  /\ advance (fixedZone offset) Weekly tv = tv + 604800000
  /\ tv + 2419200000 <= advance (fixedZone offset) Monthly tv
     <= tv + 2678400000.
Proof.
  unfold advance.
  rewrite !JSDateFacts.setDate_getDate_plus,
    JSDateFacts.setMonth_getMonth_succ.
  unfold JSDate.UTC, JSDate.LocalTime, fixedZone, JSDate.msPerDay.
  match goal with
  | |- context [JSDate.daysInMonth ?m ?l] =>
      pose proof (daysInMonth_range m l)
  end.
  lia.
Qed.

Lemma dispatch_not_skipped hosts b agentId bhost hooks strategy dests :
  b_mode b = BSshAgent bhost hooks strategy dests ->
  p_mode (dispatch hosts b agentId) <> PSkipped.
Proof.
  intros Hb. unfold dispatch. rewrite Hb.
  destruct (planSshAgent hosts agentId bhost hooks strategy dests) as [e|m]
    eqn:E; cbn; [discriminate|].
  destruct (planSshAgent_inr _ _ _ _ _ _ _ E)
    as (h0 & a0 & _ & _ & _ & _ & _ & ->).
  discriminate.
Qed.

(** Where local time has a constant offset from UTC, an ssh-agent
    blueprint with a last successful run at [tv], a valid [Date] that is
    still one after the interval, is skipped exactly while now < tv + 24 h
    (daily) or now < tv + 7 * 24 h (weekly); a monthly one is skipped while
    now < tv + 28 days and no longer once tv + 31 days <= now. *)
Theorem due_again_after_interval offset now hosts b agentId (h : Heap) r tv
    bhost hooks strategy dests :
  h !! r = Some tv ->
  JSDate.validTime tv = true ->
  b_mode b = BSshAgent bhost hooks strategy dests ->
  (interval b = Daily ->
   JSDate.validTime (tv + 86400000) = true ->
   (p_mode (createPlan (fixedZone offset) now hosts b (Some r) agentId h).1
      = PSkipped <-> now < tv + 86400000))
  /\ (interval b = Weekly ->
      JSDate.validTime (tv + 604800000) = true ->
      (p_mode (createPlan (fixedZone offset) now hosts b (Some r) agentId h).1
         = PSkipped <-> now < tv + 604800000))
  /\ (interval b = Monthly ->
      JSDate.validTime (tv + 2678400000) = true ->
      (now < tv + 2419200000 ->
       p_mode (createPlan (fixedZone offset) now hosts b (Some r) agentId h).1
         = PSkipped)
      /\ (tv + 2678400000 <= now ->
          p_mode (createPlan (fixedZone offset) now hosts b (Some r)
                             agentId h).1 <> PSkipped)).
Proof.
  intros Hr _ Hb.
  pose proof (dispatch_not_skipped hosts b agentId _ _ _ _ Hb) as Hd.
  destruct (advance_fixedZone offset tv) as (Ed & Ew & Em).
  assert (forall i, interval b = i ->
            (now < advance (fixedZone offset) i tv ->
             p_mode (createPlan (fixedZone offset) now hosts b (Some r)
                                agentId h).1 = PSkipped)
            /\ (advance (fixedZone offset) i tv <= now ->
                p_mode (createPlan (fixedZone offset) now hosts b (Some r)
                                   agentId h).1 <> PSkipped)) as Hc.
  { intros i <-. unfold createPlan. rewrite Hr. cbv zeta.
    destruct (Z.ltb_spec now (advance (fixedZone offset) (interval b) tv));
      cbn [fst]; split; intros; try lia; auto. }
  refine (conj _ (conj _ _)); intros Hi _; destruct (Hc _ Hi) as [H1 H2].
  - rewrite Ed in H1, H2. split; [|exact H1].
    intros Hs. destruct (Z.lt_ge_cases now (tv + 86400000)); [assumption|].
    exfalso. exact (H2 H Hs).
  - rewrite Ew in H1, H2. split; [|exact H1].
    intros Hs. destruct (Z.lt_ge_cases now (tv + 604800000)); [assumption|].
    exfalso. exact (H2 H Hs).
  - split; intros Hn; [apply H1|apply H2]; lia.
Qed.

Lemma due_again_after_interval_witness :
  p_mode (createPlan (fixedZone 3600000) t_now fanout_hosts fanout_weekly
                     (Some lastRunRef) "A" lastRunHeap).1 = PSkipped
  <-> t_now < t_lastRun + 604800000.
Proof.
  apply (proj1 (proj2 (due_again_after_interval 3600000 t_now fanout_hosts
                         fanout_weekly "A" lastRunHeap lastRunRef t_lastRun
                         "B" None (Files ["/etc"]) fanout_destinations
                         eq_refl eq_refl eq_refl))).
  - reflexivity.
  - vm_compute. reflexivity.
Defined.

End PlannerMore.

(** ** More on the catalog *)

Module CatalogMore.
Import Catalog Fixtures CatalogFacts.

Lemma markAgent_fields agentId d :
  h_id (markAgent agentId d) = h_id d
  /\ ssh (markAgent agentId d) = ssh d
  /\ available (markAgent agentId d) = available d
  /\ agent (markAgent agentId d)
     = if String.eqb (h_id d) agentId then Some true else agent d.
Proof. unfold markAgent. destruct (String.eqb (h_id d) agentId); auto. Qed.

(** The first loop, from any table [acc]: an entry is one of [acc] or the
    marked copy of a document, stored under the document's id. *)
Lemma load_loop_lookup agentId (docs : list Host) :
  forall (acc : gmap string Host) k h,
    fold_left (fun hosts host => <[h_id host := markAgent agentId host]> hosts)
              docs acc !! k = Some h ->
    acc !! k = Some h
    \/ exists d, In d docs /\ h_id d = k /\ h = markAgent agentId d.
Proof.
  induction docs as [|x docs IH]; intros acc k h; cbn [fold_left].
  - auto.
  - intros H. destruct (IH _ _ _ H) as [Ha|(d & Hd & Hk & Hh)].
    + destruct (decide (h_id x = k)) as [E|E].
      * subst k. rewrite lookup_insert_eq in Ha. injection Ha as <-.
        right. exists x. repeat split; auto. left. reflexivity.
      * rewrite lookup_insert_ne in Ha by exact E. left. exact Ha.
    + right. exists d. repeat split; auto. right. exact Hd.
Qed.

Lemma load_loop_other agentId (docs : list Host) :
  forall (acc : gmap string Host) k,
    ~ In k (List.map h_id docs) ->
    fold_left (fun hosts host => <[h_id host := markAgent agentId host]> hosts)
              docs acc !! k = acc !! k.
Proof.
  induction docs as [|x docs IH]; intros acc k Hn; cbn [fold_left].
  - reflexivity.
  - rewrite IH by (intros Hin; apply Hn; right; exact Hin).
    apply lookup_insert_ne. intros E. apply Hn. left. exact E.
Qed.

(** With ids that are all different, every document is loaded. *)
Lemma load_loop_present agentId (docs : list Host) :
  forall (acc : gmap string Host) d,
    List.NoDup (List.map h_id docs) -> In d docs ->
    fold_left (fun hosts host => <[h_id host := markAgent agentId host]> hosts)
              docs acc !! h_id d = Some (markAgent agentId d).
Proof.
  induction docs as [|x docs IH]; intros acc d Hnd Hin; cbn [fold_left].
  - destruct Hin.
  - apply List.NoDup_cons_iff in Hnd as [Hx Hnd].
    destruct Hin as [<-|Hin].
    + rewrite load_loop_other by exact Hx. apply lookup_insert_eq.
    + apply IH; assumption.
Qed.

(** A lookup in the result of [fetchHosts], by the table before the probes. *)
Lemma fetchHosts_lookup network agentId results k :
  fetchHosts network agentId results !! k
  = match loadDocuments agentId results !! k with
    | None => None
    | Some h0 =>
        Some match loadDocuments agentId results !! agentId with
             | None => h0
             | Some agentHost =>
                 match ssh agentHost !! k with
                 | Some _ => setAvailable Reachable h0
                 | None => h0
                 end
             end
    end.
Proof.
  unfold fetchHosts.
  destruct (loadDocuments agentId results !! agentId) as [a|] eqn:Ea.
  - rewrite probe_loop_lookup.
    destruct (loadDocuments agentId results !! k) as [h0|]; [|reflexivity].
    destruct (ssh a !! k) as [c|] eqn:Ek.
    + rewrite decide_True; [reflexivity|].
      apply list_elem_of_fmap. exists (k, c). split; [reflexivity|].
      apply elem_of_map_to_list. exact Ek.
    + rewrite decide_False; [reflexivity|].
      intros Hin. apply list_elem_of_fmap in Hin as ([k' c] & Hk & Hin).
      cbn in Hk. subst k'. apply elem_of_map_to_list in Hin. congruence.
  - destruct (loadDocuments agentId results !! k); reflexivity.
Qed.

(** Every host that [fetchHosts] returns is stored under its own id and is
    a document of the collection with its [ssh] map unchanged; the entry of
    the agent's id has [agent = true]; and [available] is either what the
    document had or [reachable]. *)
Theorem fetchHosts_entries_are_documents network agentId results k h :
  fetchHosts network agentId results !! k = Some h ->
  h_id h = k
  /\ exists d, In d results /\ h_id d = k /\ ssh h = ssh d
               /\ agent h = (if String.eqb k agentId then Some true
                             else agent d)
               /\ (available h = available d
                   \/ available h = Some Reachable).
Proof.
  rewrite fetchHosts_lookup.
  destruct (loadDocuments agentId results !! k) as [h0|] eqn:E0;
    [|discriminate].
  intros E. injection E as <-.
  destruct (load_loop_lookup agentId results ∅ k h0 E0)
    as [Hemp|(d & Hd & Hk & ->)].
  { rewrite lookup_empty in Hemp. discriminate. }
  destruct (markAgent_fields agentId d) as (Hi & Hs & Ha & Hg).
  rewrite Hk in Hg.
  assert (forall h1, h1 = markAgent agentId d
                     \/ h1 = setAvailable Reachable (markAgent agentId d) ->
            h_id h1 = k
            /\ exists d0, In d0 results /\ h_id d0 = k /\ ssh h1 = ssh d0
                 /\ agent h1 = (if String.eqb k agentId then Some true
                                else agent d0)
                 /\ (available h1 = available d0
                     \/ available h1 = Some Reachable)) as Hgen.
  { intros h1 [->| ->].
    - split; [congruence|]. exists d. repeat split; auto.
    - split; [cbn; congruence|]. exists d. cbn. repeat split; auto. }
  apply Hgen.
  destruct (loadDocuments agentId results !! agentId) as [a|]; [|auto].
  destruct (ssh a !! k); auto.
Qed.

Lemma fetchHosts_entries_are_documents_witness :
  h_id (setAvailable Reachable (mkHost "B" None None [])) = "B"
  /\ exists d, In d documents /\ h_id d = "B"
               /\ ssh (setAvailable Reachable (mkHost "B" None None []))
                  = ssh d
               /\ agent (setAvailable Reachable (mkHost "B" None None []))
                  = (if String.eqb "B" "A" then Some true else agent d)
               /\ (available (setAvailable Reachable (mkHost "B" None None []))
                   = available d
                   \/ available (setAvailable Reachable
                                   (mkHost "B" None None []))
                      = Some Reachable).
Proof.
  apply (fetchHosts_entries_are_documents refusing "A" documents "B").
  vm_compute. reflexivity.
Defined.



(** When the documents have pairwise different ids, none is lost: each is
    returned under its id, with its [ssh] map. *)
Theorem fetchHosts_keeps_every_document network agentId results d :
  List.NoDup (List.map h_id results) -> In d results ->
  exists h, fetchHosts network agentId results !! h_id d = Some h
            /\ h_id h = h_id d /\ ssh h = ssh d.
Proof.
  intros Hnd Hin. rewrite fetchHosts_lookup.
  unfold loadDocuments at 1.
  rewrite (load_loop_present agentId results ∅ d Hnd Hin).
  destruct (markAgent_fields agentId d) as (Hi & Hs & _ & _).
  destruct (loadDocuments agentId results !! agentId) as [a|].
  - destruct (ssh a !! h_id d); eexists; split; try reflexivity;
      cbn; auto.
  - eexists. split; [reflexivity|]. auto.
Qed.

Lemma fetchHosts_keeps_every_document_witness :
  exists h, fetchHosts refusing "A" documents !! "B" = Some h
            /\ h_id h = "B" /\ ssh h = ∅.
Proof.
  apply (fetchHosts_keeps_every_document refusing "A" documents
           (mkHost "B" None None [])).
  - repeat constructor; cbn; intuition discriminate.
  - right. left. reflexivity.
Defined.

End CatalogMore.

(** ** The run log *)

Module RunLogFacts.
Import RunLog Fixtures.

Lemma newest_from (ds : list RunDoc) :
  forall b, exists d,
    fold_left newest ds (Some b) = Some d
    /\ (d = b \/ In d ds)
    /\ timestamp b <= timestamp d
    /\ forall x, In x ds -> timestamp x <= timestamp d.
Proof.
  induction ds as [|y ds IH]; intros b; cbn [fold_left newest].
  - exists b. repeat split; auto; try lia. intros x [].
  - destruct (Z.ltb_spec (timestamp b) (timestamp y)) as [Hlt|Hge].
    + destruct (IH y) as (d & E & Hin & Hb & Hall). exists d.
      repeat split; auto.
      * destruct Hin as [->|Hin]; right; [left; reflexivity|right; exact Hin].
      * lia.
      * intros x [<-|Hx]; auto.
    + destruct (IH b) as (d & E & Hin & Hb & Hall). exists d.
      repeat split; auto.
      * destruct Hin as [->|Hin]; [left; reflexivity|right; right; exact Hin].
      * intros x [<-|Hx]; [lia|auto].
Qed.

Lemma findOneNewest_spec (ds : list RunDoc) :
  match findOneNewest ds with
  | None => ds = []
  | Some d => In d ds /\ forall x, In x ds -> timestamp x <= timestamp d
  end.
Proof.
  unfold findOneNewest. destruct ds as [|y ds]; [reflexivity|].
  cbn [fold_left newest].
  destruct (newest_from ds y) as (d & -> & Hin & Hb & Hall). split.
  - destruct Hin as [->|Hin]; [left; reflexivity|right; exact Hin].
  - intros x [<-|Hx]; auto.
Qed.

Lemma successfulRunOf_iff planId d :
  successfulRunOf planId d = true
  <-> p_id (doc_plan d) = planId /\ doc_error d = None.
Proof.
  unfold successfulRunOf. rewrite andb_true_iff, negb_true_iff, String.eqb_eq.
  destruct (doc_error d); cbn; intuition congruence.
Qed.

(** [findLastRun] returns the time of a run of that plan recorded without
    error, and no such run is later; it returns nothing exactly when every
    recorded run of the plan has an error. *)
Theorem findLastRun_latest_success planId run_log :
  match findLastRun planId run_log with
  | Some t =>
      (exists d, In d run_log /\ p_id (doc_plan d) = planId
                 /\ doc_error d = None /\ timestamp d = t)
      /\ forall d, In d run_log -> p_id (doc_plan d) = planId ->
                   doc_error d = None -> timestamp d <= t
  | None =>
      forall d, In d run_log -> p_id (doc_plan d) = planId ->
                doc_error d <> None
  end.
Proof.
  unfold findLastRun.
  pose proof (findOneNewest_spec
                (List.filter (successfulRunOf planId) run_log)) as H.
  destruct (findOneNewest _) as [d|].
  - destruct H as [Hin Hall]. apply filter_In in Hin as [Hin Hs].
    apply successfulRunOf_iff in Hs as [Hp He]. split.
    + exists d. auto.
    + intros x Hx Hxp Hxe. apply Hall, filter_In. split; [exact Hx|].
      apply successfulRunOf_iff. auto.
  - intros d Hd Hp He.
    assert (In d (List.filter (successfulRunOf planId) run_log)) as Hin.
    { apply filter_In. split; [exact Hd|]. apply successfulRunOf_iff. auto. }
    rewrite H in Hin. destruct Hin.
Qed.

Lemma findLastRun_app_one planId run_log d :
  findLastRun planId (run_log ++ [d])%list
  = if successfulRunOf planId d
    then Some match findLastRun planId run_log with
              | Some t => Z.max t (timestamp d)
              | None => timestamp d
              end
    else findLastRun planId run_log.
Proof.
  unfold findLastRun, findOneNewest. rewrite List.filter_app.
  cbn [List.filter].
  destruct (successfulRunOf planId d).
  - rewrite List.fold_left_app. cbn [fold_left].
    destruct (fold_left newest _ None) as [b|]; cbn [newest]; [|reflexivity].
    destruct (Z.ltb_spec (timestamp b) (timestamp d)); f_equal; lia.
  - rewrite app_nil_r. reflexivity.
Qed.

(** Saving a run with an error changes no plan's last successful run;
    saving a run changes nothing for the other plans; saving a run without
    error makes the plan's last successful run the later of the one before
    and the time of saving. *)
Theorem saveRun_then_findLastRun now plan log error run_log :
  (forall planId e, error = Some e ->
     findLastRun planId (saveRun now plan log error run_log)
     = findLastRun planId run_log)
  /\ (forall planId, p_id plan <> planId ->
        findLastRun planId (saveRun now plan log error run_log)
        = findLastRun planId run_log)
  /\ (error = None ->
      findLastRun (p_id plan) (saveRun now plan log error run_log)
      = Some match findLastRun (p_id plan) run_log with
             | Some t => Z.max t now
             | None => now
             end).
Proof.
  unfold saveRun. refine (conj _ (conj _ _)).
  - intros planId e ->. rewrite findLastRun_app_one.
    unfold successfulRunOf. cbn. rewrite andb_false_r. reflexivity.
  - intros planId Hne. rewrite findLastRun_app_one.
    unfold successfulRunOf. cbn.
    destruct (String.eqb_spec (p_id plan) planId); [contradiction|].
    reflexivity.
  - intros ->. rewrite findLastRun_app_one.
    unfold successfulRunOf. cbn. rewrite String.eqb_refl. reflexivity.
Qed.

Lemma saveRun_then_findLastRun_witness :
  findLastRun "etc/daily"
    (saveRun t_now fanout_plan ["Plan complete"] None []) = Some t_now.
Proof.
  apply (proj2 (proj2 (saveRun_then_findLastRun t_now fanout_plan
                         ["Plan complete"] None []))).
  reflexivity.
Defined.

End RunLogFacts.

(** ** The coordinator *)

Module CoordinatorFacts.
Import Planner Coordinator Fixtures.

Lemma dateRef_inj id1 id2 : dateRef id1 = dateRef id2 -> id1 = id2.
Proof. unfold dateRef. apply encode_inj. Qed.




Section PlanningFacts.
Variable tz : Z -> bool -> Z.
Variable clock : nat -> Z.
Variable hosts : gmap string Host.
Variable agentId : string.

(** [createPlan] touches no [Date] but the one it is given. *)
Lemma createPlan_frame now b latestRun (h : Heap) r' :
  latestRun <> Some r' ->
  (createPlan tz now hosts b latestRun agentId h).2 !! r' = h !! r'.
Proof.
  intros Hne. unfold createPlan. destruct latestRun as [r|]; [|reflexivity].
  destruct (h !! r) as [tv|] eqn:E; [|reflexivity].
  assert (r <> r') by congruence.
  destruct (now <? _); cbn [snd]; apply lookup_insert_ne; assumption.
Qed.

(** The plan depends on the heap through the given [Date] only. *)
Lemma createPlan_plan_local now b id (h1 h2 : Heap) :
  h1 !! dateRef id = h2 !! dateRef id ->
  (createPlan tz now hosts b (latestRunOf h1 id) agentId h1).1
  = (createPlan tz now hosts b (latestRunOf h2 id) agentId h2).1.
Proof.
  intros E. unfold latestRunOf, createPlan. rewrite <- E.
  destruct (h1 !! dateRef id) as [tv|] eqn:E1; [|reflexivity].
  rewrite E1, <- E. destruct (now <? _); reflexivity.
Qed.

Lemma planFrom_agrees (blueprints : list Blueprint) :
  forall i (latest latest0 : Heap),
    List.NoDup (List.map b_id blueprints) ->
    (forall b, In b blueprints ->
       latest !! dateRef (b_id b) = latest0 !! dateRef (b_id b)) ->
    (planFrom tz clock hosts agentId i blueprints latest).1
    = planEach tz clock hosts agentId i blueprints latest0.
Proof.
  induction blueprints as [|b bs IH]; intros i latest latest0 Hnd Hag;
    cbn [planFrom planEach fst]; [reflexivity|].
  apply List.NoDup_cons_iff in Hnd as [Hb Hnd].
  cbv zeta. cbn [fst].
  rewrite (createPlan_plan_local (clock i) b (b_id b) latest latest0)
    by (apply Hag; left; reflexivity).
  f_equal. apply IH; [exact Hnd|].
  intros b' Hb'. rewrite createPlan_frame.
  - apply Hag. right. exact Hb'.
  - unfold latestRunOf. destruct (latest !! dateRef (b_id b)); [|discriminate].
    intros E. injection E as E. apply dateRef_inj in E.
    apply Hb. rewrite E. apply in_map, Hb'.
Qed.

(** When the blueprints have pairwise different ids, the planning loop
    gives each blueprint the plan it would get on its own from the table of
    last runs as loaded: the [Date] that one call advances is never read by
    the call for another blueprint. *)
Theorem planning_loop_plans_each_blueprint_alone blueprints (latest : Heap) :
  List.NoDup (List.map b_id blueprints) ->
  (planFrom tz clock hosts agentId 0 blueprints latest).1
  = planEach tz clock hosts agentId 0 blueprints latest.
Proof. intros Hnd. apply planFrom_agrees; auto. Qed.

(** The plans the loop keeps are ssh-agent plans, and their ids are ids of
    blueprints, in the order of the blueprints, at most one per blueprint. *)
Theorem planning_loop_keeps_agent_plans_in_order blueprints :
  forall i (latest : Heap),
    Forall (fun plan => exists host hooks strategy clone,
                          p_mode plan = PSshAgent host hooks strategy clone)
           (planFrom tz clock hosts agentId i blueprints latest).1
    /\ sublist (List.map p_id
                  (planFrom tz clock hosts agentId i blueprints latest).1)
               (List.map b_id blueprints).
Proof.
  induction blueprints as [|b bs IH]; intros i latest;
    cbn [planFrom fst List.map].
  - split; constructor.
  - cbv zeta. cbn [fst].
    set (r := createPlan tz (clock i) hosts b (latestRunOf latest (b_id b))
                agentId latest).
    destruct (IH (S i) r.2) as [Hf Hs].
    destruct (toExecute r.1) eqn:Et; cbn [app List.map].
    + split.
      * constructor; [|exact Hf]. unfold toExecute in Et.
        destruct (p_mode r.1) as [host hooks strategy clone| |];
          try discriminate Et. eauto.
      * unfold r at 1. rewrite PlannerMore.createPlan_id.
        apply sublist_skip. exact Hs.
    + split; [exact Hf|]. apply sublist_cons. exact Hs.
Qed.

End PlanningFacts.

Lemma planning_loop_plans_each_blueprint_alone_witness :
  (planFrom JSDate.utcZone (fun _ => t_now) fanout_hosts "A" 0
            [fanout_blueprint; fanout_weekly]
            (loadLatestRuns [fanout_blueprint; fanout_weekly]
               (RunLog.saveRun t_lastRun fanout_plan [] None []))).1
  = planEach JSDate.utcZone (fun _ => t_now) fanout_hosts "A" 0
             [fanout_blueprint; fanout_weekly]
             (loadLatestRuns [fanout_blueprint; fanout_weekly]
                (RunLog.saveRun t_lastRun fanout_plan [] None [])).
Proof.
  apply (planning_loop_plans_each_blueprint_alone JSDate.utcZone
           (fun _ => t_now) fanout_hosts "A"
           [fanout_blueprint; fanout_weekly]).
  repeat constructor; cbn; intuition discriminate.
Defined.

Section RunningFacts.
Variable world : list Exec.Event -> Exec.Event -> Exec.Outcome.
Variables randomDigits dumpStamp backupStamp : nat -> string.
Variable saveClock : nat -> Z.
Variables resolve gray : string -> string.
Variable hosts : gmap string Host.
Variable agentId : string.

Lemma runPlan_plan rnd ds bs plan st :
  Exec.rr_plan (Exec.runPlan world rnd ds bs resolve gray hosts agentId
                  plan st).2 = plan.
Proof.
  unfold Exec.runPlan.
  match goal with
  | |- context [Exec.execute ?w ?r ?d ?b ?rs ?g ?h ?a ?p ?s] =>
      destruct (Exec.execute w r d b rs g h a p s) as [st1 [e1|u]]
  end; reflexivity.
Qed.

(** The loop over the plans appends exactly one record per plan to the run
    log, in the order of the plans, whether the plan's execution returned
    or threw; records that were there before are left as they are. *)
Theorem run_loop_one_record_per_plan plans :
  forall i st run_log,
    exists records,
      (runFrom world randomDigits dumpStamp backupStamp saveClock resolve
               gray hosts agentId i plans st run_log).2
      = (run_log ++ records)%list
      /\ List.map RunLog.doc_plan records = plans
      /\ List.map RunLog.timestamp records
         = List.map saveClock (seq i (length plans)).
Proof.
  induction plans as [|plan rest IH]; intros i st run_log; cbn [runFrom].
  - exists []. rewrite app_nil_r. auto.
  - cbv zeta.
    match goal with
    | |- context [runFrom _ _ _ _ _ _ _ _ _ (S i) rest ?s ?l] =>
        destruct (IH (S i) s l) as (records & E & Hp & Ht)
    end.
    rewrite E. unfold RunLog.saveRun. rewrite <- app_assoc.
    eexists. split; [reflexivity|]. cbn [app List.map RunLog.doc_plan
                                          RunLog.timestamp length seq].
    rewrite runPlan_plan, Hp, Ht. auto.
Qed.

(** One plan through the loop: when its execution throws, no plan's last
    successful run changes, so the blueprint stays due; when it returns,
    the plan's last successful run becomes the later of the one before and
    the time the run was saved. *)
Theorem thrown_run_leaves_blueprint_due i plan st run_log :
  (forall e planId,
     Exec.rr_error (Exec.runPlan world (randomDigits i) (dumpStamp i)
                      (backupStamp i) resolve gray hosts agentId plan st).2
       = Some e ->
     RunLog.findLastRun planId
       (runFrom world randomDigits dumpStamp backupStamp saveClock resolve
                gray hosts agentId i [plan] st run_log).2
     = RunLog.findLastRun planId run_log)
  /\ (Exec.rr_error (Exec.runPlan world (randomDigits i) (dumpStamp i)
                       (backupStamp i) resolve gray hosts agentId plan st).2
        = None ->
      RunLog.findLastRun (p_id plan)
        (runFrom world randomDigits dumpStamp backupStamp saveClock resolve
                 gray hosts agentId i [plan] st run_log).2
      = Some match RunLog.findLastRun (p_id plan) run_log with
             | Some t => Z.max t (saveClock i)
             | None => saveClock i
             end).
Proof.
  cbn [runFrom snd]. cbv zeta. unfold RunLog.saveRun. split.
  - intros e planId He. rewrite RunLogFacts.findLastRun_app_one.
    unfold RunLog.successfulRunOf. cbn [RunLog.doc_error RunLog.doc_plan].
    rewrite He. cbn. rewrite andb_false_r. reflexivity.
  - intros He. rewrite RunLogFacts.findLastRun_app_one.
    unfold RunLog.successfulRunOf.
    cbn [RunLog.doc_error RunLog.doc_plan RunLog.timestamp].
    rewrite He, runPlan_plan, String.eqb_refl. reflexivity.
Qed.

End RunningFacts.

Lemma thrown_run_leaves_blueprint_due_witness :
  RunLog.findLastRun "etc/daily"
    (runFrom tarFails (fun _ => "123")
       (fun _ => "2023-11-14T22:13:20.000Z")
       (fun _ => "2023-11-14T22:13:21.000Z") (fun _ => t_now)
       (resolveIn "/opt/agent") plain sourceDown_hosts "A" 0
       [retain_plan None] Exec.initial
       (RunLog.saveRun t_lastRun (retain_plan None) [] None [])).2
  = RunLog.findLastRun "etc/daily"
      (RunLog.saveRun t_lastRun (retain_plan None) [] None []).
Proof.
  apply (proj1 (thrown_run_leaves_blueprint_due tarFails (fun _ => "123")
                  (fun _ => "2023-11-14T22:13:20.000Z")
                  (fun _ => "2023-11-14T22:13:21.000Z") (fun _ => t_now)
                  (resolveIn "/opt/agent") plain sourceDown_hosts "A" 0
                  (retain_plan None) Exec.initial
                  (RunLog.saveRun t_lastRun (retain_plan None) [] None []))
               "tar: /etc: Cannot open" "etc/daily").
  vm_compute. reflexivity.
Defined.

End CoordinatorFacts.

(** ** More on the executor *)

Module ExecMore.
Import Exec Fixtures ExecFacts.

(** *** Names *)

Lemma chars_app (a b : string) : chars (a ++ b)%string = (chars a ++ chars b)%list.
Proof.
  induction a as [|c a IH]; [reflexivity|].
  change (c :: chars (a ++ b)%string = c :: (chars a ++ chars b)%list).
  f_equal. exact IH.
Qed.

Lemma replaceSlashes_chars (s : string) :
  chars (replaceSlashes s)
  = List.map (fun c => if Ascii.eqb c "/"%char then "-"%char else c) (chars s).
Proof.
  induction s as [|c s IH]; [reflexivity|].
  cbn [replaceSlashes chars List.map]. f_equal. exact IH.
Qed.

(** The backup name has no ["/"] when the time stamp has none (as in an ISO
    time stamp), whatever the plan id: appended to a destination path it
    adds no directory level.  A plan id without ["/"] is kept as it is. *)
Theorem backupName_has_no_slash backupStamp planId :
  ~ In "/"%char (chars backupStamp) ->
  ~ In "/"%char (chars (backupNameOf backupStamp planId))
  /\ (~ In "/"%char (chars planId) ->
      backupNameOf backupStamp planId
      = (planId ++ "_" ++ backupStamp ++ ".tar.gz")%string).
Proof.
  intros Hs. unfold backupNameOf. split.
  - rewrite !chars_app, replaceSlashes_chars. intros Hin.
    apply in_app_or in Hin as [Hin|Hin].
    + apply in_map_iff in Hin as (c & Hc & _).
      destruct (Ascii.eqb_spec c "/"%char); [discriminate Hc|].
      contradiction.
    + apply in_app_or in Hin as [Hin|Hin].
      * cbn in Hin. destruct Hin as [Hin|[]]. discriminate Hin.
      * apply in_app_or in Hin as [Hin|Hin]; [contradiction|].
        cbn in Hin. intuition discriminate.
  - intros Hp. f_equal. induction planId as [|c s IH]; cbn; [reflexivity|].
    destruct (Ascii.eqb_spec c "/"%char) as [->|Hc].
    + exfalso. apply Hp. left. reflexivity.
    + f_equal. apply IH. intros Hin. apply Hp. right. exact Hin.
Qed.

Lemma backupName_has_no_slash_witness :
  ~ In "/"%char (chars (backupNameOf "2023-11-14T22:13:21.000Z" "etc/daily")).
Proof.
  apply (backupName_has_no_slash "2023-11-14T22:13:21.000Z" "etc/daily").
  cbn. intuition discriminate.
Defined.

(** *** Errors of [mongodump] and of the scp helpers *)

Section Tolerance.
Variable world : list Event -> Event -> Outcome.
Variables randomDigits dumpStamp : string.

(** When [mongodump] rejects, [SSHExecutor.execute] (here without a
    pre-hook) rethrows the error if its text includes "Failed", having made
    no other call; otherwise it goes on with [tar], [rm -r] and the
    post-hook as if [mongodump] had succeeded. *)
Theorem mongodump_error_rethrown_only_if_Failed ex hooks connectionUrl st e :
  preHook hooks = None ->
  world (trace st)
        (EvExec (ssh_client ex) "mongodump"
           ["-o"; ("/tmp/mongodump_" ++ dumpStamp)%string; connectionUrl])
    = Rejected e ->
  (includes "Failed" e = true ->
   SSHExecutor_execute world randomDigits dumpStamp ex hooks
     (Mongodb connectionUrl) st
   = (record (EvExec (ssh_client ex) "mongodump"
                ["-o"; ("/tmp/mongodump_" ++ dumpStamp)%string;
                 connectionUrl]) st,
      inl e))
  /\ (includes "Failed" e = false ->
      SSHExecutor_execute world randomDigits dumpStamp ex hooks
        (Mongodb connectionUrl) st
      = (exec world ex "tar"
           ["cvfP"; tmp randomDigits; ("/tmp/mongodump_" ++ dumpStamp)%string];;
         exec world ex "rm" ["-r"; ("/tmp/mongodump_" ++ dumpStamp)%string];;
         runHook world ex (postHook hooks);;
         mret (tmp randomDigits))
          (record (EvExec (ssh_client ex) "mongodump"
                     ["-o"; ("/tmp/mongodump_" ++ dumpStamp)%string;
                      connectionUrl]) st)).
Proof.
  intros Hpre Hw. unfold SSHExecutor_execute. cbv zeta. rewrite Hpre.
  unfold mongodump, try_catch, exec, runHook.
  split; intros Hi.
  - unfold mbind, M_bind, call, mret, M_ret. rewrite Hw, Hi. reflexivity.
  - unfold mbind, M_bind, call, mret, M_ret, mthrow, M_throw.
    rewrite Hw, Hi.
    repeat match goal with
           | |- context [world ?t ?ev] => destruct (world t ev)
           end; try reflexivity;
      destruct (postHook hooks); try reflexivity;
      repeat match goal with
             | |- context [world ?t ?ev] => destruct (world t ev)
             end; reflexivity.
Qed.

(** The scp helpers throw before any call when the parameters of the peer
    are missing or have an empty key path, user or host; with complete
    parameters they make one call, [scp -i key source target], the remote
    side written [user@host:file]. *)
Theorem scp_needs_complete_parameters ex file remote target st :
  ((remote = None
    \/ exists r, remote = Some r
                 /\ (privateKeyPath r = "" \/ username r = ""
                     \/ ssh_host r = "")) ->
   (exists e, scpUpload world ex file remote target st = (st, inl e))
   /\ (exists e, scpDownload world ex file remote target st = (st, inl e)))
  /\ (forall r, remote = Some r -> privateKeyPath r <> "" ->
        username r <> "" -> ssh_host r <> "" ->
        scpUpload world ex file remote target st
        = exec world ex "scp"
            ["-i"; privateKeyPath r; file;
             (username r ++ "@" ++ ssh_host r ++ ":" ++ target)%string] st
        /\ scpDownload world ex file remote target st
           = exec world ex "scp"
               ["-i"; privateKeyPath r;
                (username r ++ "@" ++ ssh_host r ++ ":" ++ file)%string;
                target] st).
Proof.
  split.
  - intros [->|(r & -> & Hr)].
    + split; eexists; reflexivity.
    + unfold scpUpload, scpDownload, assert, member.
      unfold mbind, M_bind, mret, M_ret, mthrow, M_throw.
      destruct (String.eqb_spec (privateKeyPath r) "");
        [split; eexists; reflexivity|].
      destruct (String.eqb_spec (username r) "");
        [split; eexists; reflexivity|].
      destruct (String.eqb_spec (ssh_host r) "");
        [split; eexists; reflexivity|].
      exfalso. intuition.
  - intros r -> Hk Hu Hh.
    unfold scpUpload, scpDownload, assert, member, scpTarget.
    unfold mbind, M_bind, mret, M_ret, mthrow, M_throw.
    destruct (String.eqb_spec (privateKeyPath r) ""); [contradiction|].
    destruct (String.eqb_spec (username r) ""); [contradiction|].
    destruct (String.eqb_spec (ssh_host r) ""); [contradiction|].
    split; reflexivity.
Qed.

End Tolerance.

Lemma mongodump_error_rethrown_only_if_Failed_witness :
  SSHExecutor_execute mongodumpNoisy "123" "2023-11-14T22:13:20.000Z"
    executor0 None (Mongodb "mongodb://db/app") initial
  = (exec mongodumpNoisy executor0 "tar"
          ["cvfP"; tmp "123"; "/tmp/mongodump_2023-11-14T22:13:20.000Z"];;
     exec mongodumpNoisy executor0 "rm"
          ["-r"; "/tmp/mongodump_2023-11-14T22:13:20.000Z"];;
     runHook mongodumpNoisy executor0 (postHook None);;
     mret (tmp "123"))
      (record (EvExec 0 "mongodump"
                 ["-o"; "/tmp/mongodump_2023-11-14T22:13:20.000Z";
                  "mongodb://db/app"]) initial).
Proof.
  apply (proj2 (mongodump_error_rethrown_only_if_Failed mongodumpNoisy "123"
                  "2023-11-14T22:13:20.000Z" executor0 None
                  "mongodb://db/app" initial "writing app.users to /tmp"
                  eq_refl eq_refl)).
  reflexivity.
Defined.

Lemma scp_needs_complete_parameters_witness :
  (exists e, scpUpload allOk executor0 "/tmp/backup123.tar.gz" None
               "/bk/etc-daily.tar.gz" initial = (initial, inl e))
  /\ (exists e, scpDownload allOk executor0 "/tmp/backup123.tar.gz" None
                  "/bk/etc-daily.tar.gz" initial = (initial, inl e)).
Proof.
  apply (proj1 (scp_needs_complete_parameters allOk executor0
                  "/tmp/backup123.tar.gz" None "/bk/etc-daily.tar.gz"
                  initial)).
  left. reflexivity.
Defined.

(** *** Properties that more calls cannot undo *)

Section Monotone.
Variable world : list Event -> Event -> Outcome.
Variable Phi : list Event -> Prop.
Hypothesis Phi_mono : forall tr ev, Phi tr -> Phi (tr ++ [ev])%list.

Lemma mono_emit s : keeps (onTrace Phi) (emit s).
Proof. intros st st' r H E. injection E as <- <-. exact H. Qed.

Lemma mono_call ev : keeps (onTrace Phi) (call world ev).
Proof.
  intros st st' r H E. unfold call in E.
  destruct (world (trace st) ev); injection E as <- <-;
    apply Phi_mono; exact H.
Qed.

Lemma mono_create config : keeps (onTrace Phi) (createSSHExecutor config).
Proof. intros st st' r H E. injection E as <- <-. exact H. Qed.

Lemma mono_markOpen sid : keeps (onTrace Phi) (markOpen sid).
Proof. intros st st' r H E. injection E as <- <-. exact H. Qed.

Lemma mono_ready ex : keeps (onTrace Phi) (ready world ex).
Proof.
  unfold ready. destruct (config ex); [|apply keeps_throw].
  apply keeps_bind; [apply mono_call|]. intros _. apply mono_markOpen.
Qed.

Lemma mono_finish ex : keeps (onTrace Phi) (finish ex).
Proof.
  intros st st' r H E. injection E as <- <-. apply Phi_mono. exact H.
Qed.

End Monotone.

(** Decomposes a goal [keeps (onTrace Phi) m] along the program [m]; the
    context holds the fact that [Phi] survives one more call. *)
Ltac mono :=
  repeat first
    [ apply keeps_ret
    | apply keeps_throw
    | apply keeps_member
    | apply keeps_assert
    | apply mono_emit
    | apply mono_create
    | apply mono_finish; solve [eauto]
    | apply mono_ready; solve [eauto]
    | apply mono_call; solve [eauto]
    | apply keeps_for_of; intros ?
    | apply keeps_bind; [|intros ?]
    | apply keeps_try_catch; [|intros ?]
    | progress unfold exec, runHook, mongodump, download, upload, rm, move,
        delete, scpUpload, scpDownload, downloadAndRedirect,
        SSHExecutor_execute, transfer
    | progress cbv zeta
    | match goal with
      | |- keeps _ (match ?x with _ => _ end) => destruct x
      end ].

Section Reached.
Variable world : list Event -> Event -> Outcome.
Variables randomDigits dumpStamp backupStamp : string.
Variables resolve gray : string -> string.
Variable hosts : gmap string Host.
Variable agentId : string.

(** What the transfer establishes for good, [execute] establishes. *)
Lemma execute_establishes (Phi : nat -> list Event -> Prop) n plan
    host hooks strategy clone :
  (forall sid tr ev, Phi sid tr -> Phi sid (tr ++ [ev])%list) ->
  p_mode plan = PSshAgent host hooks strategy clone ->
  (forall ex,
     triple (fun _ => True)
       (transfer world randomDigits dumpStamp backupStamp resolve gray
          hosts agentId (p_id plan) host hooks strategy clone ex)
       (onReturn (onTrace (Phi (ssh_client ex))))) ->
  triple (fun st => next_session st = n)
    (execute world randomDigits dumpStamp backupStamp resolve gray
       hosts agentId plan)
    (onReturn (onTrace (Phi n))).
Proof.
  intros Hm Hp Ht. unfold execute. rewrite Hp.
  apply (triple_seq _ (fun st => next_session st = n)).
  { intros st st' r Hn E. injection E as <- <-. exact Hn. }
  intros _.
  apply (triple_seq _ (fun st => next_session st = n)).
  { apply keeps_restores, keeps_member. }
  intros a.
  apply (triple_bind _ _
           (fun r _ => match r with
                       | inr ex => ssh_client ex = n
                       | inl _ => True
                       end)).
  { intros st st' r Hn E. injection E as <- <-. exact Hn. }
  2: { intros; exact I. }
  intros ex. apply triple_pure. intros <-.
  apply (triple_seq _ (fun _ => True)); [apply triple_onReturn_True|].
  intros _.
  apply (triple_seq _ (onTrace (Phi (ssh_client ex)))); [apply Ht|].
  intros _. apply keeps_restores.
  pose proof (Hm (ssh_client ex)) as Hm'. mono.
Qed.

(** Steps over the archive build at the start of [transfer]: what remains
    is run with the path of [tmp()]. *)
Local Ltac after_build :=
  unfold transfer; cbv zeta;
  apply (triple_seq _ (fun _ => True)); [apply triple_onReturn_True|];
  intros _;
  apply (triple_bind _ _
           (fun r _ => match r with
                       | inr p => p = tmp randomDigits
                       | inl _ => True
                       end));
    [apply SSHExecutor_execute_path| |intros; exact I];
  intros pkgFn; apply triple_pure; intros ->.

(** Steps over a statement of which nothing is needed. *)
Local Ltac skip_step :=
  apply (triple_seq _ (fun _ => True)); [apply triple_onReturn_True|];
  intros _.

(** On a normal return of [transfer] the archive on the source host has
    been moved to [retainOnHost.path + backupName], or removed when
    [retainOnHost] is [false]. *)
Lemma transfer_settles_archive planId host hooks strategy clone ex :
  triple (fun _ => True)
    (transfer world randomDigits dumpStamp backupStamp resolve gray
       hosts agentId planId host hooks strategy clone ex)
    (onReturn (onTrace (fun tr =>
       In (match retainOnHost clone with
           | RetainAt path =>
               EvExec (ssh_client ex) "mv"
                 [tmp randomDigits;
                  (path ++ backupNameOf backupStamp planId)%string]
           | RetainFalse => EvExec (ssh_client ex) "rm" [tmp randomDigits]
           end) tr))).
Proof.
  after_build. skip_step. skip_step. skip_step.
  destruct (retainOnHost clone) as [path|]; skip_step;
    intros st st' r _ E; unfold move, delete, exec, mbind, M_bind, call in E;
    destruct (world (trace st) _); injection E as <- <-; try exact I;
    apply in_or_app; right; left; reflexivity.
Qed.

(** On a normal return of [execute] for an ssh-agent plan, the archive on
    the source host has been settled by a call on the first client: [mv]
    to [retainOnHost.path + backupName] when [retainOnHost] is set, [rm]
    otherwise. *)
Theorem archive_moved_or_removed_on_return plan host hooks strategy clone
    st st' u :
  p_mode plan = PSshAgent host hooks strategy clone ->
  execute world randomDigits dumpStamp backupStamp resolve gray
          hosts agentId plan st = (st', inr u) ->
  In (match retainOnHost clone with
      | RetainAt path =>
          EvExec (next_session st) "mv"
            [tmp randomDigits;
             (path ++ backupNameOf backupStamp (p_id plan))%string]
      | RetainFalse => EvExec (next_session st) "rm" [tmp randomDigits]
      end) (trace st').
Proof.
  intros Hp E.
  refine (execute_establishes
            (fun sid tr =>
               In (match retainOnHost clone with
                   | RetainAt path =>
                       EvExec sid "mv"
                         [tmp randomDigits;
                          (path ++ backupNameOf backupStamp (p_id plan))%string]
                   | RetainFalse => EvExec sid "rm" [tmp randomDigits]
                   end) tr)
            (next_session st) plan host hooks strategy clone _ Hp _
            st st' (inr u) eq_refl E).
  - intros sid tr ev H. apply in_or_app. left. exact H.
  - intros ex. apply transfer_settles_archive.
Qed.

(** For an ssh-agent plan whose agent is in the catalog with SSH parameters
    for the source host, the first call that [execute] makes is the
    connection to the source host with these parameters, whatever follows
    and however the run ends.  It makes no call at all for a plan that is
    not ssh-agent, when the agent is not in the catalog, or when the agent
    has no parameters for the source host (the agent's id and the host's
    not being names of properties of [Object.prototype]). *)
Theorem first_call_connects_to_source plan st st' r :
  execute world randomDigits dumpStamp backupStamp resolve gray
          hosts agentId plan st = (st', r) ->
  (forall host hooks strategy clone a cfg,
     p_mode plan = PSshAgent host hooks strategy clone ->
     hosts !! agentId = Some a ->
     ssh a !! h_id host = Some cfg ->
     exists rest,
       trace st'
       = (trace st ++ EvConnect (next_session st) cfg :: rest)%list)
  /\ (p_mode plan = PSkipped \/ p_mode plan = PFailed ->
      trace st' = trace st)
  /\ (forall host hooks strategy clone,
        p_mode plan = PSshAgent host hooks strategy clone ->
        inherited agentId = false ->
        hosts !! agentId = None ->
        trace st' = trace st)
  /\ (forall host hooks strategy clone a,
        p_mode plan = PSshAgent host hooks strategy clone ->
        hosts !! agentId = Some a ->
        inherited (h_id host) = false ->
        ssh a !! h_id host = None ->
        trace st' = trace st).
Proof.
  intros E. refine (conj _ (conj _ (conj _ _))).
  - intros host hooks strategy clone a cfg Hp Ha Hc.
    destruct (world (trace st) (EvConnect (next_session st) cfg))
      as [resp|e] eqn:Hw.
    + rewrite (execute_connected _ _ _ _ _ _ _ _ _ _ _ _ _ _ _ _ _
                 Hp Ha Hc Hw) in E.
      cbv zeta in E.
      set (Phi := fun tr : list Event =>
                    exists rest,
                      tr = (trace st
                            ++ EvConnect (next_session st) cfg :: rest)%list).
      assert (forall tr ev, Phi tr -> Phi (tr ++ [ev])%list) as Hm.
      { intros tr ev [rest ->]. exists (rest ++ [ev])%list.
        rewrite <- app_assoc. reflexivity. }
      match type of E with
      | ?m ?s = _ => assert (keeps (onTrace Phi) m) as Hk by mono
      end.
      match type of E with
      | ?m ?s = _ =>
          assert (onTrace Phi s) as H0 by (exists []; reflexivity)
      end.
      exact (Hk _ _ _ H0 E).
    + exists [].
      unfold execute in E. rewrite Hp, Ha in E.
      unfold mbind at 1 2 3 4 in E. unfold M_bind at 1 2 3 4 in E.
      cbn [emit member mret M_ret createSSHExecutor] in E.
      rewrite Hc in E. unfold ready in E. cbn [Exec.config ssh_client] in E.
      unfold mbind at 1 in E. unfold M_bind at 1 in E. unfold call at 1 in E.
      cbn [trace next_session] in E. rewrite Hw in E.
      injection E as <- _. reflexivity.
  - intros [Hp|Hp]; unfold execute in E; rewrite Hp in E;
      injection E as <- _; reflexivity.
  - intros host hooks strategy clone Hp _ Ha.
    unfold execute in E. rewrite Hp, Ha in E.
    injection E as <- _. reflexivity.
  - intros host hooks strategy clone a Hp Ha _ Hc.
    unfold execute in E. rewrite Hp, Ha in E.
    unfold mbind at 1 2 3 4 in E. unfold M_bind at 1 2 3 4 in E.
    cbn [emit member mret M_ret createSSHExecutor] in E.
    rewrite Hc in E. injection E as <- _. reflexivity.
Qed.

End Reached.

(** *** The fan-out *)

(** A loop establishes for every element what its body establishes, when
    no body undoes what was established for another element. *)
Lemma for_of_establishes {A} (Phi : A -> list Event -> Prop) (l : list A)
    (body : A -> M unit) :
  (forall x, triple (fun _ => True) (body x) (onReturn (onTrace (Phi x)))) ->
  (forall x y, keeps (onTrace (Phi y)) (body x)) ->
  triple (fun _ => True) (for_of l body)
    (onReturn (onTrace (fun tr => forall x, In x l -> Phi x tr))).
Proof.
  intros Hb Hk. induction l as [|x l IH]; cbn [for_of].
  - intros st st' r _ E. injection E as <- <-. intros y [].
  - intros st st' r _ E. unfold mbind, M_bind in E.
    destruct (body x st) as [s1 [e|u]] eqn:Eb.
    + injection E as <- <-. exact I.
    + pose proof (Hb x st s1 (inr u) I Eb) as Hx.
      pose proof (IH s1 st' r I E) as Hl.
      pose proof (keeps_for_of (onTrace (Phi x)) l body
                    (fun y => Hk y x) s1 st' r Hx E) as Hx'.
      destruct r as [e|u']; [exact I|].
      intros y [<-|Hy]; [exact Hx'|exact (Hl y Hy)].
Qed.

Section FanOut.
Variable world : list Event -> Event -> Outcome.
Variables randomDigits dumpStamp backupStamp : string.
Variables resolve gray : string -> string.
Variable hosts : gmap string Host.
Variable agentId : string.

Local Ltac after_build :=
  unfold transfer; cbv zeta;
  apply (triple_seq _ (fun _ => True)); [apply triple_onReturn_True|];
  intros _;
  apply (triple_bind _ _
           (fun r _ => match r with
                       | inr p => p = tmp randomDigits
                       | inl _ => True
                       end));
    [apply SSHExecutor_execute_path| |intros; exact I];
  intros pkgFn; apply triple_pure; intros ->.

Local Ltac skip_step :=
  apply (triple_seq _ (fun _ => True)); [apply triple_onReturn_True|];
  intros _.

(** Runs one loop body symbolically, to its outcomes. *)
Local Ltac run_body E :=
  repeat first
    [ progress unfold emit, member, createSSHExecutor, ready, markOpen,
        finish, scpUpload, scpDownload, upload, assert, exec, call, record,
        mret, M_ret, mthrow, M_throw, mbind, M_bind in E
    | progress cbv beta iota in E
    | progress cbn [Exec.config ssh_client trace next_session open_sessions
                    log] in E
    | match type of E with
      | context [match hosts !! ?k with _ => _ end] =>
          destruct (hosts !! k) eqn:?
      | context [match ssh ?h !! ?k with _ => _ end] =>
          destruct (ssh h !! k) eqn:?
      | context [world ?t ?e] => destruct (world t e) eqn:?
      | context [String.eqb ?a ?b] => destruct (String.eqb a b) eqn:?
      end ];
  injection E as <- <-; try exact I.

Lemma pushedTo_mono host sid pkgFn backupName d tr ev :
  pushedTo hosts host sid pkgFn backupName d tr ->
  pushedTo hosts host sid pkgFn backupName d (tr ++ [ev])%list.
Proof.
  intros (src & r & H1 & H2 & H3). exists src, r.
  rewrite in_app_iff. auto.
Qed.

Lemma pulledBy_mono host pkgFn backupName d tr ev :
  pulledBy hosts agentId host pkgFn backupName d tr ->
  pulledBy hosts agentId host pkgFn backupName d (tr ++ [ev])%list.
Proof.
  intros (a & cfg & dh & r & sid & H1 & H2 & H3 & H4 & H5 & H6 & H7).
  exists a, cfg, dh, r, sid. rewrite !in_app_iff. auto 10.
Qed.

Lemma carriedTo_mono localFile backupName d tr ev :
  carriedTo hosts agentId localFile backupName d tr ->
  carriedTo hosts agentId localFile backupName d (tr ++ [ev])%list.
Proof.
  intros (a & cfg & sid & H1 & H2 & H3 & H4 & H5).
  exists a, cfg, sid. rewrite !in_app_iff. auto 10.
Qed.

Lemma forall_mono {A} (Phi : A -> list Event -> Prop) (l : list A) :
  (forall x tr ev, Phi x tr -> Phi x (tr ++ [ev])%list) ->
  forall tr ev, (forall x, In x l -> Phi x tr) ->
                forall x, In x l -> Phi x (tr ++ [ev])%list.
Proof. intros Hm tr ev H x Hx. apply Hm, H, Hx. Qed.

Lemma transfer_pushes planId host hooks strategy clone ex :
  triple (fun _ => True)
    (transfer world randomDigits dumpStamp backupStamp resolve gray
       hosts agentId planId host hooks strategy clone ex)
    (onReturn (onTrace (fun tr =>
       forall d, In d (directlyCloneTo clone) ->
         pushedTo hosts host (ssh_client ex) (tmp randomDigits)
                  (backupNameOf backupStamp planId) d tr))).
Proof.
  after_build.
  pose proof (pushedTo_mono host (ssh_client ex) (tmp randomDigits)
                (backupNameOf backupStamp planId)) as Hm.
  eapply triple_seq.
  - apply (for_of_establishes
             (pushedTo hosts host (ssh_client ex) (tmp randomDigits)
                       (backupNameOf backupStamp planId))).
    + intros d st st' r _ E. run_body E.
      eexists _, _. unfold onTrace. cbn [trace].
      repeat split; [eassumption|eassumption|].
      apply in_or_app. right. left. reflexivity.
    + intros d d'. pose proof (Hm d') as Hm'. mono.
  - intros _. apply keeps_restores.
    pose proof (forall_mono _ (directlyCloneTo clone) Hm) as Hall.
    mono.
Qed.

Lemma transfer_pulls planId host hooks strategy clone ex :
  triple (fun _ => True)
    (transfer world randomDigits dumpStamp backupStamp resolve gray
       hosts agentId planId host hooks strategy clone ex)
    (onReturn (onTrace (fun tr =>
       forall d, In d (receiveCloneFrom clone) ->
         pulledBy hosts agentId host (tmp randomDigits)
                  (backupNameOf backupStamp planId) d tr))).
Proof.
  after_build. skip_step.
  pose proof (pulledBy_mono host (tmp randomDigits)
                (backupNameOf backupStamp planId)) as Hm.
  eapply triple_seq.
  - apply (for_of_establishes
             (pulledBy hosts agentId host (tmp randomDigits)
                       (backupNameOf backupStamp planId))).
    + intros d st st' r _ E. run_body E.
      eexists _, _, _, _, _. unfold onTrace. cbn [trace].
      repeat split; [eassumption|eassumption|eassumption|eassumption|..];
        rewrite !in_app_iff; cbn [In]; auto 10.
    + intros d d'. pose proof (Hm d') as Hm'. mono.
  - intros _. apply keeps_restores.
    pose proof (forall_mono _ (receiveCloneFrom clone) Hm) as Hall.
    mono.
Qed.

Lemma transfer_carries planId host hooks strategy clone ex :
  truthyDownload (downloadLocally clone) = true ->
  triple (fun _ => True)
    (transfer world randomDigits dumpStamp backupStamp resolve gray
       hosts agentId planId host hooks strategy clone ex)
    (onReturn (onTrace (fun tr =>
       forall d, In d (redirectCloneTo clone) ->
         carriedTo hosts agentId (localFileOf resolve backupStamp planId)
                   (backupNameOf backupStamp planId) d tr))).
Proof.
  intros Ht. after_build. skip_step. skip_step. rewrite Ht.
  pose proof (carriedTo_mono (localFileOf resolve backupStamp planId)
                (backupNameOf backupStamp planId)) as Hm.
  pose proof (forall_mono _ (redirectCloneTo clone) Hm) as Hall.
  eapply triple_seq; [|intros _; apply keeps_restores; mono].
  unfold downloadAndRedirect. cbv zeta. skip_step. skip_step.
  eapply triple_seq; [|intros _; apply keeps_restores; mono].
  apply (for_of_establishes
           (carriedTo hosts agentId (localFileOf resolve backupStamp planId)
                      (backupNameOf backupStamp planId))).
  - intros d st st' r _ E. run_body E.
    eexists _, _, _. unfold onTrace. cbn [trace].
    repeat split; [eassumption|eassumption|..];
      rewrite !in_app_iff; cbn [In]; auto 10.
  - intros d d'. pose proof (Hm d') as Hm'. mono.
Qed.

(** On a normal return of [execute], every destination of
    [directlyCloneTo] was sent the archive by [scp] run on the source host,
    with the SSH parameters the source host has for the destination, to
    [path + backupName]. *)
Theorem direct_destinations_pushed_from_source plan host hooks strategy clone
    st st' u d :
  p_mode plan = PSshAgent host hooks strategy clone ->
  execute world randomDigits dumpStamp backupStamp resolve gray
          hosts agentId plan st = (st', inr u) ->
  In d (directlyCloneTo clone) ->
  exists src r,
    hosts !! h_id host = Some src /\ ssh src !! dest_host d = Some r
    /\ In (EvExec (next_session st) "scp"
             ["-i"; privateKeyPath r; tmp randomDigits;
              (username r ++ "@" ++ ssh_host r ++ ":" ++ dest_path d
               ++ backupNameOf backupStamp (p_id plan))%string])
          (trace st').
Proof.
  intros Hp E Hd.
  refine (execute_establishes world randomDigits dumpStamp backupStamp
            resolve gray hosts agentId
            (fun sid tr =>
               forall d, In d (directlyCloneTo clone) ->
                 pushedTo hosts host sid (tmp randomDigits)
                          (backupNameOf backupStamp (p_id plan)) d tr)
            (next_session st) plan host hooks strategy clone _ Hp _
            st st' (inr u) eq_refl E d Hd).
  - intros sid. apply forall_mono. apply pushedTo_mono.
  - intros ex. apply transfer_pushes.
Qed.

(** On a normal return of [execute], for every destination of
    [receiveCloneFrom] the agent connected to it with its own parameters
    for it, had it fetch the archive from the source host by [scp] with the
    parameters the destination has for the source host, and closed that
    connection. *)
Theorem receive_destinations_pull_from_source plan host hooks strategy clone
    st st' u d :
  p_mode plan = PSshAgent host hooks strategy clone ->
  execute world randomDigits dumpStamp backupStamp resolve gray
          hosts agentId plan st = (st', inr u) ->
  In d (receiveCloneFrom clone) ->
  exists a cfg dh r sid,
    hosts !! agentId = Some a /\ ssh a !! dest_host d = Some cfg
    /\ hosts !! dest_host d = Some dh /\ ssh dh !! h_id host = Some r
    /\ In (EvConnect sid cfg) (trace st')
    /\ In (EvExec sid "scp"
             ["-i"; privateKeyPath r;
              (username r ++ "@" ++ ssh_host r ++ ":" ++ tmp randomDigits)%string;
              (dest_path d ++ backupNameOf backupStamp (p_id plan))%string])
          (trace st')
    /\ In (EvDispose sid) (trace st').
Proof.
  intros Hp E Hd.
  refine (execute_establishes world randomDigits dumpStamp backupStamp
            resolve gray hosts agentId
            (fun _ tr =>
               forall d, In d (receiveCloneFrom clone) ->
                 pulledBy hosts agentId host (tmp randomDigits)
                          (backupNameOf backupStamp (p_id plan)) d tr)
            (next_session st) plan host hooks strategy clone _ Hp _
            st st' (inr u) eq_refl E d Hd).
  - intros _. apply forall_mono. apply pulledBy_mono.
  - intros ex. apply transfer_pulls.
Qed.

(** On a normal return of [execute] with a truthy [downloadLocally], for
    every destination of [redirectCloneTo] the agent connected to it with
    its own parameters, put the local copy at [path + backupName] there,
    and closed that connection. *)
Theorem redirect_destinations_served_by_agent plan host hooks strategy clone
    st st' u d :
  p_mode plan = PSshAgent host hooks strategy clone ->
  truthyDownload (downloadLocally clone) = true ->
  execute world randomDigits dumpStamp backupStamp resolve gray
          hosts agentId plan st = (st', inr u) ->
  In d (redirectCloneTo clone) ->
  exists a cfg sid,
    hosts !! agentId = Some a /\ ssh a !! dest_host d = Some cfg
    /\ In (EvConnect sid cfg) (trace st')
    /\ In (EvPutFile sid (localFileOf resolve backupStamp (p_id plan))
                     (dest_path d ++ backupNameOf backupStamp (p_id plan))%string)
          (trace st')
    /\ In (EvDispose sid) (trace st').
Proof.
  intros Hp Ht E Hd.
  refine (execute_establishes world randomDigits dumpStamp backupStamp
            resolve gray hosts agentId
            (fun _ tr =>
               forall d, In d (redirectCloneTo clone) ->
                 carriedTo hosts agentId
                           (localFileOf resolve backupStamp (p_id plan))
                           (backupNameOf backupStamp (p_id plan)) d tr)
            (next_session st) plan host hooks strategy clone _ Hp _
            st st' (inr u) eq_refl E d Hd).
  - intros _. apply forall_mono. apply carriedTo_mono.
  - intros ex. apply transfer_carries, Ht.
Qed.

End FanOut.

Lemma fanout_run_returns :
  execute allOk "123" "2023-11-14T22:13:20.000Z" "2023-11-14T22:13:21.000Z"
          (resolveIn "/opt/agent") plain fanout_hosts "A" fanout_plan initial
  = (fanout_run.1, inr tt).
Proof. vm_compute. reflexivity. Defined.

Lemma archive_moved_or_removed_on_return_witness :
  In (EvExec 0 "mv"
        ["/tmp/backup123.tar.gz";
         "/keep/etc-daily_2023-11-14T22:13:21.000Z.tar.gz"])
     (trace fanout_run.1).
Proof.
  exact (archive_moved_or_removed_on_return allOk "123"
           "2023-11-14T22:13:20.000Z" "2023-11-14T22:13:21.000Z"
           (resolveIn "/opt/agent") plain fanout_hosts "A" fanout_plan
           fanout_B None (Files ["/etc"]) fanout_clone initial fanout_run.1 tt
           eq_refl fanout_run_returns).
Defined.

Lemma first_call_connects_to_source_witness :
  exists rest,
    trace fanout_run.1
    = (trace initial
       ++ EvConnect (next_session initial) (cfg "backup" "B") :: rest)%list.
Proof.
  apply (proj1 (first_call_connects_to_source allOk "123"
                  "2023-11-14T22:13:20.000Z" "2023-11-14T22:13:21.000Z"
                  (resolveIn "/opt/agent") plain fanout_hosts "A" fanout_plan
                  initial fanout_run.1 (inr tt) fanout_run_returns)
               fanout_B None (Files ["/etc"]) fanout_clone
               (mkHost "A" (Some true) None ["B"; "C"; "D"; "E"])
               (cfg "backup" "B")).
  - reflexivity.
  - vm_compute. reflexivity.
  - vm_compute. reflexivity.
Defined.

Lemma direct_destinations_pushed_from_source_witness :
  exists src r,
    fanout_hosts !! h_id fanout_B = Some src
    /\ ssh src !! "C" = Some r
    /\ In (EvExec 0 "scp"
             ["-i"; privateKeyPath r; "/tmp/backup123.tar.gz";
              (username r ++ "@" ++ ssh_host r ++ ":" ++ "/bk/"
               ++ "etc-daily_2023-11-14T22:13:21.000Z.tar.gz")%string])
          (trace fanout_run.1).
Proof.
  exact (direct_destinations_pushed_from_source allOk "123"
           "2023-11-14T22:13:20.000Z" "2023-11-14T22:13:21.000Z"
           (resolveIn "/opt/agent") plain fanout_hosts "A" fanout_plan
           fanout_B None (Files ["/etc"]) fanout_clone initial fanout_run.1 tt
           (HostDest "C" "/bk/") eq_refl fanout_run_returns
           (or_introl eq_refl)).
Defined.

Lemma receive_destinations_pull_from_source_witness :
  exists a cfg dh r sid,
    fanout_hosts !! "A" = Some a /\ ssh a !! "E" = Some cfg
    /\ fanout_hosts !! "E" = Some dh /\ ssh dh !! h_id fanout_B = Some r
    /\ In (EvConnect sid cfg) (trace fanout_run.1)
    /\ In (EvExec sid "scp"
             ["-i"; privateKeyPath r;
              (username r ++ "@" ++ ssh_host r ++ ":"
               ++ "/tmp/backup123.tar.gz")%string;
              "/bk/etc-daily_2023-11-14T22:13:21.000Z.tar.gz"])
          (trace fanout_run.1)
    /\ In (EvDispose sid) (trace fanout_run.1).
Proof.
  exact (receive_destinations_pull_from_source allOk "123"
           "2023-11-14T22:13:20.000Z" "2023-11-14T22:13:21.000Z"
           (resolveIn "/opt/agent") plain fanout_hosts "A" fanout_plan
           fanout_B None (Files ["/etc"]) fanout_clone initial fanout_run.1 tt
           (HostDest "E" "/bk/") eq_refl fanout_run_returns
           (or_introl eq_refl)).
Defined.

Lemma redirect_destinations_served_by_agent_witness :
  exists a cfg sid,
    fanout_hosts !! "A" = Some a /\ ssh a !! "D" = Some cfg
    /\ In (EvConnect sid cfg) (trace fanout_run.1)
    /\ In (EvPutFile sid
             "/opt/agent/./backups/etc-daily_2023-11-14T22:13:21.000Z.tar.gz"
             "/bk/etc-daily_2023-11-14T22:13:21.000Z.tar.gz")
          (trace fanout_run.1)
    /\ In (EvDispose sid) (trace fanout_run.1).
Proof.
  exact (redirect_destinations_served_by_agent allOk "123"
           "2023-11-14T22:13:20.000Z" "2023-11-14T22:13:21.000Z"
           (resolveIn "/opt/agent") plain fanout_hosts "A" fanout_plan
           fanout_B None (Files ["/etc"]) fanout_clone initial fanout_run.1 tt
           (HostDest "D" "/bk/") eq_refl eq_refl fanout_run_returns
           (or_introl eq_refl)).
Defined.

End ExecMore.
